(** * MVTWMSImageryProvider: the vector-tile imagery bridge of ol-cesium

    A shallow embedding of [src/olcs/MVTWMSImageryProvider.ts] and the
    properties its design document states about it.

    Conventions.
    - Tile addresses ([x], [y], [level]) are integers, [Z].
    - Coordinates and pixel sizes are JavaScript numbers: IEEE-754 binary64,
      the kernel's primitive [float].  [undefined] is [None].
    - Promises are objects with identity: a promise is an index into the
      bridge's promise store.
    - Arrays live in a store ([heap]) and are referred to by address, so that
      aliasing and in-place writes are visible. *)

From Stdlib Require Import ZArith String List Bool Lia DecimalString Ascii.
From Stdlib Require Import Floats.
From Stdlib Require DecimalZ.
From stdpp Require Import base list.
Import ListNotations.

(* ================================================================== *)
(** * The bounded cache ([ol/structs/LRUCache]) *)
(* ================================================================== *)

Module LRUCache.

(** Modelled from the spec: [ol/structs/LRUCache] is an OpenLayers class,
    imported by the provider and absent from the sources.  Section 4.2 of
    the design document describes it as a container with a target capacity
    ([highWaterMark]) that keeps its entries by age: [set] inserts and does
    not evict, [get] returns the stored promise, and entries are evicted
    oldest first "until occupancy is back at or below [highWaterMark]".
    The entries are kept oldest first.  [create], [getCount],
    [containsKey], [get], [set], [canExpireCache] and [pop] below are the
    methods of that class the provider calls; the loop and the test against
    twice the mark are the provider's own. *)
Record t (V : Type) : Type := mk {
  highWaterMark : nat;
  entries : list (string * V)
}.

Arguments mk {V} _ _.
Arguments highWaterMark {V} _.
Arguments entries {V} _.

(** Modelled from the spec: [new LRUCache(highWaterMark)], an empty cache
    with the given target capacity. *)
Definition create {V} (hwm : nat) : t V := mk hwm [].

(** Modelled from the spec: [getCount()], the occupancy. *)
Definition getCount {V} (c : t V) : nat := length (entries c).

Definition hasKey {V} (k : string) (e : string * V) : bool :=
  String.eqb k (fst e).

(** Modelled from the spec: [containsKey(key)]. *)
Definition containsKey {V} (k : string) (c : t V) : bool :=
  existsb (hasKey k) (entries c).

(** Modelled from the spec: [get(key)] returns the existing promise if
    present.  The class being a least-recently-used cache, the entry
    returned becomes the newest one. *)
Definition get {V} (k : string) (c : t V) : option V * t V :=
  match find (hasKey k) (entries c) with
  | Some e =>
      (Some (snd e),
       mk (highWaterMark c)
          (List.filter (fun e' => negb (hasKey k e')) (entries c) ++ [e]))
  | None => (None, c)
  end.

(** Modelled from the spec: [set(key, promise)] inserts and does not
    evict.  The new entry is the newest; the provider only calls [set] for
    a key that [containsKey] has just reported absent. *)
Definition set {V} (k : string) (v : V) (c : t V) : t V :=
  mk (highWaterMark c) (entries c ++ [(k, v)]).

(** Modelled from the spec: eviction goes on "until occupancy is back at
    or below [highWaterMark]", so [canExpireCache()] answers whether the
    occupancy exceeds the mark. *)
Definition canExpireCache {V} (c : t V) : bool :=
  highWaterMark c <? getCount c.

(** Modelled from the spec: [pop()] evicts the oldest entry. *)
Definition pop {V} (c : t V) : t V :=
  mk (highWaterMark c) (tl (entries c)).

(** [while (cache.canExpireCache()) cache.pop();] -- every iteration
    removes an entry, so [getCount c] iterations are enough. *)
Fixpoint expireLoop {V} (fuel : nat) (c : t V) : t V :=
  match fuel with
  | O => c
  | S fuel' => if canExpireCache c then expireLoop fuel' (pop c) else c
  end.

Definition expire {V} (c : t V) : t V := expireLoop (getCount c) c.

(** The grooming step that follows both [set] calls of the provider:
<<
    if (cache.getCount() > 2 * cache.highWaterMark) {
      while (cache.canExpireCache()) cache.pop();
    }
>> *)
Definition groom {V} (c : t V) : t V :=
  if 2 * highWaterMark c <? getCount c then expire c else c.

(** [cache.set(cacheKey, promise)] followed by the grooming step, as in
    [requestImage] (tile cache) and [getTileFeatures] (feature cache). *)
Definition setAndGroom {V} (k : string) (v : V) (c : t V) : t V :=
  groom (set k v c).

End LRUCache.

(* ================================================================== *)
(** * JavaScript numbers and arrays in a store *)
(* ================================================================== *)

(** A number or [undefined]. *)
Abbreviation jsnum := (option float).

(** An array of numbers; a hole reads as [undefined]. *)
Abbreviation jsarray := (list (option float)).

(** The store: arrays by address.  Allocation appends, so the addresses in
    use are those below [length h]. *)
Abbreviation heap := (list (list (option float))).

Abbreviation loc := nat.

Module Js.

(** [a * s] where [a] may be [undefined]: [undefined * s] is [NaN]. *)
Definition mul (a : jsnum) (s : float) : float :=
  match a with
  | Some v => PrimFloat.mul v s
  | None => nan
  end.

(** [a / d] where [a] may be [undefined]. *)
Definition div (a : jsnum) (d : float) : float :=
  match a with
  | Some v => PrimFloat.div v d
  | None => nan
  end.

(** [arr[i]]: a hole or an index out of range reads as [undefined]. *)
Definition item (a : jsarray) (i : nat) : jsnum :=
  match a !! i with
  | Some v => v
  | None => None
  end.

(** [arr[i] = v]: in range it overwrites; beyond the end the array grows,
    leaving holes in between. *)
Definition setItem (i : nat) (v : float) (a : jsarray) : jsarray :=
  if i <? length a then <[i := Some v]> a
  else a ++ replicate (i - length a) None ++ [Some v].

(** [new Array(n)] and array literals: a fresh address. *)
Definition alloc (a : jsarray) (h : heap) : nat * heap :=
  (length h, h ++ [a]).

Definition arrayAt (h : heap) (l : loc) : jsarray :=
  match h !! l with
  | Some a => a
  | None => []
  end.

Definition load (h : heap) (l : loc) (i : nat) : jsnum :=
  item (arrayAt h l) i.

Definition store (l : loc) (i : nat) (v : float) (h : heap) : heap :=
  alter (setItem i v) l h.

(** Iterations of [for (; i < e; i += 2)]. *)
Definition steps (i e : nat) : nat := (e - i + 1) / 2.

End Js.

(* ================================================================== *)
(** * Decoded features, geometries and the raster surface *)
(* ================================================================== *)

(** [ol/render/Feature]: what the provider reads of a decoded feature.
    [getFlatCoordinates()] hands out the decoded buffer itself (its address),
    not a copy. *)
Record RenderFeature : Type := {
  getType : string;
  getFlatCoordinates : option loc;
  getEnds : option (list nat);
  getEndss : option (list (list nat))
}.

Abbreviation coord := (option float * option float)%type.

(** The geometries of [ol/geom] the provider constructs. *)
Inductive Geometry : Type :=
| Point (c : coord)
| MultiPoint (pts : list coord)
| LineString (cs : list coord)
| Polygon (rings : list (list coord))
| MultiLineString (lines : list (list coord))
| MultiPolygon (polys : list (list (list coord))).

Record Style : Type := { strokeColor : string; strokeWidth : Z }.

(** What a style function returns: nothing, one style or an array. *)
Inductive StyleLike : Type :=
| StyleVoid
| StyleOne (s : Style)
| StyleMany (arr : list Style).

Abbreviation StyleFunction := (RenderFeature -> float -> StyleLike).

(** [const styles = [new Style({stroke: new Stroke({color: 'blue', width: 2})})]] *)
Definition styles : list Style :=
  [ {| strokeColor := "blue"; strokeWidth := 2 |} ].

(** A canvas: its size and what was painted on it, in painting order. *)
Record Canvas : Type := {
  width : jsnum;
  height : jsnum;
  drawn : list (Style * Geometry)
}.

Definition createEmptyCanvas : Canvas :=
  {| width := Some 1%float; height := Some 1%float; drawn := [] |}.

Module Raster.

(** [for (; i < end; i += 2) out.push([flat[i], flat[i + 1]])], [n]
    iterations from [i]. *)
Fixpoint pairsFrom (n i : nat) (flat : jsarray) : list coord :=
  match n with
  | O => []
  | S n' => (Js.item flat i, Js.item flat (i + 1)) :: pairsFrom n' (i + 2) flat
  end.

(** [flatToCoords_]: the index [i] runs on from one [end] to the next. *)
Fixpoint flatToCoordsFrom (i : nat) (flat : jsarray) (ends : list nat)
  : list coord :=
  match ends with
  | [] => []
  | e :: es =>
      pairsFrom (Js.steps i e) i flat
      ++ flatToCoordsFrom (i + 2 * Js.steps i e) flat es
  end.

Definition flatToCoords_ (flat : jsarray) (ends : list nat) : list coord :=
  flatToCoordsFrom 0 flat ends.

(** The ring-splitting loop of the [Polygon] and [MultiPolygon] cases. *)
Fixpoint ringsFrom (i : nat) (flat : jsarray) (ends : list nat)
  : list (list coord) :=
  match ends with
  | [] => []
  | e :: es =>
      pairsFrom (Js.steps i e) i flat
      :: ringsFrom (i + 2 * Js.steps i e) flat es
  end.

(** The scaling loop:
<<
    for (let i = 0; i < src.length; i += 2) {
      flat[i]     = src[i] * sx;
      flat[i + 1] = src[i + 1] * sy;
    }
>>
    [n] iterations from [i]; [src] and [flat] are addresses in the store. *)
Fixpoint scaleLoop (n i : nat) (src flat : loc) (sx sy : float) (h : heap)
  : heap :=
  match n with
  | O => h
  | S n' =>
      let h1 := Js.store flat i (Js.mul (Js.load h src i) sx) h in
      let h2 := Js.store flat (i + 1) (Js.mul (Js.load h1 src (i + 1)) sy) h1 in
      scaleLoop n' (i + 2) src flat sx sy h2
  end.

(** The geometry rebuilt from the scaled buffer, by feature type. *)
Definition buildGeometry (f : RenderFeature) (flat : jsarray) : Geometry :=
  let ends := match getEnds f with Some e => e | None => [length flat] end in
  if String.eqb (getType f) "Point" then
    Point (Js.item flat 0, Js.item flat 1)
  else if String.eqb (getType f) "MultiPoint" then
    MultiPoint (pairsFrom (Js.steps 0 (length flat)) 0 flat)
  else if String.eqb (getType f) "LineString" then
    LineString (flatToCoords_ flat ends)
  else if String.eqb (getType f) "Polygon" then
    Polygon (ringsFrom 0 flat ends)
  else
    match getEndss f with
    | Some endss =>
        if String.eqb (getType f) "MultiLineString" then
          MultiLineString (List.map (flatToCoords_ flat) endss)
        else if String.eqb (getType f) "MultiPolygon" then
          MultiPolygon (List.map (ringsFrom 0 flat) endss)
        else LineString (flatToCoords_ flat ends)
    | None => LineString (flatToCoords_ flat ends)
    end.

(** [cloneAndScaleGeometry_(f, sx, sy)]: [null] when the feature has no
    buffer; otherwise a new array is allocated, filled with the scaled
    coordinates, and the geometry is built from it. *)
Definition cloneAndScaleGeometry_ (f : RenderFeature) (sx sy : float) (h : heap)
  : option Geometry * heap :=
  match getFlatCoordinates f with
  | None => (None, h)
  | Some src =>
      let len := length (Js.arrayAt h src) in
      let '(flat, h1) := Js.alloc (replicate len None) h in
      let h2 := scaleLoop (Js.steps 0 len) 0 src flat sx sy h1 in
      (Some (buildGeometry f (Js.arrayAt h2 flat)), h2)
  end.

Definition MVT_EXTENT : float := 4096%float.

(** The loop over the features of [rasterizeFeatures]. *)
Fixpoint drawFeatures (features : list RenderFeature) (styleFn : StyleFunction)
  (resolution sx sy : float) (painted : list (Style * Geometry)) (h : heap)
  : list (Style * Geometry) * heap :=
  match features with
  | [] => (painted, h)
  | f :: rest =>
      match cloneAndScaleGeometry_ f sx sy h with
      | (None, h') => drawFeatures rest styleFn resolution sx sy painted h'
      | (Some g, h') =>
          let arr := match styleFn f resolution with
                     | StyleVoid => []
                     | StyleOne s => [s]
                     | StyleMany l => l
                     end in
          drawFeatures rest styleFn resolution sx sy
            (painted ++ List.map (fun s => (s, g)) arr) h'
      end
  end.

(** [rasterizeFeatures(features, styleFn, resolution)] on a bridge whose
    [tileWidth] and [tileHeight] read as given. *)
Definition rasterizeFeatures (tileWidth tileHeight : jsnum)
  (features : list RenderFeature) (styleFn : StyleFunction)
  (resolution : float) (h : heap) : Canvas * heap :=
  let sx := Js.div tileWidth MVT_EXTENT in
  let sy := Js.div tileHeight MVT_EXTENT in
  let '(painted, h') := drawFeatures features styleFn resolution sx sy [] h in
  ({| width := tileWidth; height := tileHeight; drawn := painted |}, h').

End Raster.

(* ================================================================== *)
(** * The collaborators of the bridge *)
(* ================================================================== *)

(** A call that returns or throws. *)
Inductive Completion (A : Type) : Type :=
| Normal (a : A)
| Throw (e : string).

Arguments Normal {A} _.
Arguments Throw {A} _.

(** [ol/proj/Projection]: its code and its extent. *)
Record Projection : Type := {
  getCode : string;
  getExtent : list float
}.

Inductive TileSize : Type :=
| SizeNumber (n : float)
| SizeArray (w h : float).

(** [ol/tilegrid/TileGrid].  [forEachTileCoord extent zoom] lists the tile
    coordinates [[z, x, y]] the grid hands to the callback, in call order. *)
Record TileGrid : Type := {
  forEachTileCoord : list float -> Z -> list (Z * Z * Z);
  getTileSize : Z -> TileSize;
  getMaxZoom : Z
}.

(** Cesium's tiling schemes, with the level-zero tile counts they were
    built with. *)
Inductive TilingScheme : Type :=
| WebMercatorTilingScheme (levelZero : option (Z * Z))
| GeographicTilingScheme (levelZero : Z * Z)
| OtherTilingScheme (name : string).

Inductive Rectangle : Type :=
| RectangleOf (scheme : TilingScheme)
| RectangleGiven (west south east north : float).

Abbreviation Credit := string.
Abbreviation Params := (list (string * string)).

(** [ol/source/TileWMS]: the description of a raster service. *)
Record TileWMS : Type := {
  wmsUrl : option string;
  wmsParams : Params;
  wmsProjection : option Projection;
  wmsTileGrid : option TileGrid;
  wmsCrossOrigin : option string;
  wmsServerType : option string
}.

(** The vector tile source as the bridge reads it.  The source is a
    mutable object of the application: a value of this type is what it
    answers at one moment. *)
Record Source : Type := {
  getState : string;
  (** Modelled from the spec: [getSourceProjection] of [./util] is not
      among the sources; the bridge reads from it the projection the source
      reports (section 6: "[getProjection()]/fallback"). *)
  getSourceProjection : option Projection;
  getProjection : option Projection;
  tileGrid : option TileGrid;
  getTileGridForProjection : Projection -> option TileGrid;
  getTileUrlFunction :
    option (Z * Z * Z -> Projection -> Completion (option string));
  (** Modelled from the spec: [attributionsFunctionToCredits] of [./core]
      is not among the sources (credits are out of the design's scope);
      this is [getAttributions()] with it applied: the credits at a zoom
      level, for the current view of the map. *)
  getAttributions : option (Z -> list Credit);
  olcs_proxy : option (option string -> option string);
  olcs_authHeaders : option (Z -> Z -> Z -> Params);
  olcs_wmsFormat : option string;
  olcs_wmsCompanion : option TileWMS;
  params_ : Params;
  crossOrigin : option string;
  serverType_ : option string
}.

Abbreviation pid := nat.

(** What [requestImage] of the delegate answers: [undefined] or a promise
    of its own. *)
Abbreviation DelegateImage := (option string).
Abbreviation Request := string.
Abbreviation PickResult := (option (list string)).

(** Modelled from the spec: the stock raster bridge
    ([./core/OLImageryProvider]) is not among the sources; section 4.5 has
    it answer [requestImage], [getTileCredits] and the capability queries,
    and lend its tiling scheme and rectangle.  It is given by what it
    answers.  The provider reads it through [any], so a property may read
    as [undefined] and an optional method may be missing. *)
Record OLImageryProvider : Type := {
  d_requestImage : Z -> Z -> Z -> option Request -> DelegateImage;
  d_getTileCredits : option (Z -> Z -> Z -> list Credit);
  d_pickFeatures : option (Z -> Z -> Z -> float -> float -> PickResult);
  d_tileWidth : jsnum;
  d_tileHeight : jsnum;
  d_maximumLevel : option Z;
  d_minimumLevel : option Z;
  d_tileDiscardPolicy : option string;
  d_hasAlphaChannel : option bool;
  d_tilingScheme : TilingScheme;
  d_rectangle : option Rectangle
}.

(* ================================================================== *)
(** * Promises *)
(* ================================================================== *)

Inductive Value : Type :=
| VCanvas (c : Canvas)
| VFeatures (fs : list RenderFeature).

Inductive Failure : Type :=
| NetworkError      (* [fetch] rejects *)
| ResponseNotOk     (* [r.ok ? r : Promise.reject(r)] *)
| BodyError         (* [r.arrayBuffer()] rejects *)
| DecodeError       (* [readFeaturesFromBuffer] throws *)
| TypeError.

Inductive Settled : Type :=
| Pending
| Fulfilled (v : Value)
| Rejected (why : Failure).

(** Where a promise comes from. *)
Inductive Origin : Type :=
| FromResolve
    (* [Promise.resolve(this.emptyCanvas_)] *)
| FromFetch (url : string) (headers : Params)
    (* [fetch(url, {headers}).then(ok).then(arrayBuffer).then(readFeatures)] *)
| FromThen (parent : pid) (x y z_ : Z).
    (* [parent.then(features => this.rasterizeFeatures(...))] *)

Record Promise : Type := {
  origin : Origin;
  status : Settled
}.

(** What the bridge does that others can observe. *)
Inductive Event : Type :=
| TileCacheLookup (key : string)
| FeatureCacheLookup (key : string)
| UrlBuilt (z x y : Z)
| Fetch (url : string) (headers : Params)
| ErrorRaised (message e : string).

(** How a fetch ends. *)
Record DecodedFeature : Type := {
  decodedType : string;
  decodedCoordinates : option (list float);
  decodedEnds : option (list nat);
  decodedEndss : option (list (list nat))
}.

Inductive FetchOutcome : Type :=
| Failed (why : Failure)
| Decoded (features : list DecodedFeature).

(** What [requestImage] returns. *)
Inductive ImageResult : Type :=
| ImgUndefined
| ImgPromise (p : pid)
| ImgDelegated (r : DelegateImage).

(* ================================================================== *)
(** * The bridge *)
(* ================================================================== *)

(** The fields of [MVTWMSImageryProvider], and the world it acts on: the
    promises it created ([promises]), the store of coordinate buffers
    ([memory]) and what it did ([trace], oldest first).  [source_] is the
    source as it currently answers. *)
Record Bridge : Type := {
  source_ : Source;
  projection_ : option Projection;
  fallbackProj_ : option Projection;
  styleFunction_ : StyleFunction;
  shouldRequestNextLevel : bool;
  emptyCanvasPromise_ : pid;
  tilingScheme_ : TilingScheme;
  ready_ : bool;
  rectangle_ : option Rectangle;
  minimumLevel_ : Z;
  featureCache : LRUCache.t pid;
  tileCache : LRUCache.t pid;
  olWmsDelegate_ : option OLImageryProvider;
  proxy : option (option string -> option string);
  promises : list Promise;
  memory : heap;
  trace : list Event
}.

(** Assignments to one field. *)
Definition setSource (v : Source) (b : Bridge) : Bridge :=
  {| source_ := v;
     projection_ := projection_ b;
     fallbackProj_ := fallbackProj_ b;
     styleFunction_ := styleFunction_ b;
     shouldRequestNextLevel := shouldRequestNextLevel b;
     emptyCanvasPromise_ := emptyCanvasPromise_ b;
     tilingScheme_ := tilingScheme_ b;
     ready_ := ready_ b;
     rectangle_ := rectangle_ b;
     minimumLevel_ := minimumLevel_ b;
     featureCache := featureCache b;
     tileCache := tileCache b;
     olWmsDelegate_ := olWmsDelegate_ b;
     proxy := proxy b;
     promises := promises b;
     memory := memory b;
     trace := trace b |}.

Definition setProjection (v : option Projection) (b : Bridge) : Bridge :=
  {| source_ := source_ b;
     projection_ := v;
     fallbackProj_ := fallbackProj_ b;
     styleFunction_ := styleFunction_ b;
     shouldRequestNextLevel := shouldRequestNextLevel b;
     emptyCanvasPromise_ := emptyCanvasPromise_ b;
     tilingScheme_ := tilingScheme_ b;
     ready_ := ready_ b;
     rectangle_ := rectangle_ b;
     minimumLevel_ := minimumLevel_ b;
     featureCache := featureCache b;
     tileCache := tileCache b;
     olWmsDelegate_ := olWmsDelegate_ b;
     proxy := proxy b;
     promises := promises b;
     memory := memory b;
     trace := trace b |}.

Definition setShouldRequestNextLevel (v : bool) (b : Bridge) : Bridge :=
  {| source_ := source_ b;
     projection_ := projection_ b;
     fallbackProj_ := fallbackProj_ b;
     styleFunction_ := styleFunction_ b;
     shouldRequestNextLevel := v;
     emptyCanvasPromise_ := emptyCanvasPromise_ b;
     tilingScheme_ := tilingScheme_ b;
     ready_ := ready_ b;
     rectangle_ := rectangle_ b;
     minimumLevel_ := minimumLevel_ b;
     featureCache := featureCache b;
     tileCache := tileCache b;
     olWmsDelegate_ := olWmsDelegate_ b;
     proxy := proxy b;
     promises := promises b;
     memory := memory b;
     trace := trace b |}.

Definition setTilingScheme (v : TilingScheme) (b : Bridge) : Bridge :=
  {| source_ := source_ b;
     projection_ := projection_ b;
     fallbackProj_ := fallbackProj_ b;
     styleFunction_ := styleFunction_ b;
     shouldRequestNextLevel := shouldRequestNextLevel b;
     emptyCanvasPromise_ := emptyCanvasPromise_ b;
     tilingScheme_ := v;
     ready_ := ready_ b;
     rectangle_ := rectangle_ b;
     minimumLevel_ := minimumLevel_ b;
     featureCache := featureCache b;
     tileCache := tileCache b;
     olWmsDelegate_ := olWmsDelegate_ b;
     proxy := proxy b;
     promises := promises b;
     memory := memory b;
     trace := trace b |}.

Definition setReady (v : bool) (b : Bridge) : Bridge :=
  {| source_ := source_ b;
     projection_ := projection_ b;
     fallbackProj_ := fallbackProj_ b;
     styleFunction_ := styleFunction_ b;
     shouldRequestNextLevel := shouldRequestNextLevel b;
     emptyCanvasPromise_ := emptyCanvasPromise_ b;
     tilingScheme_ := tilingScheme_ b;
     ready_ := v;
     rectangle_ := rectangle_ b;
     minimumLevel_ := minimumLevel_ b;
     featureCache := featureCache b;
     tileCache := tileCache b;
     olWmsDelegate_ := olWmsDelegate_ b;
     proxy := proxy b;
     promises := promises b;
     memory := memory b;
     trace := trace b |}.

Definition setRectangle (v : option Rectangle) (b : Bridge) : Bridge :=
  {| source_ := source_ b;
     projection_ := projection_ b;
     fallbackProj_ := fallbackProj_ b;
     styleFunction_ := styleFunction_ b;
     shouldRequestNextLevel := shouldRequestNextLevel b;
     emptyCanvasPromise_ := emptyCanvasPromise_ b;
     tilingScheme_ := tilingScheme_ b;
     ready_ := ready_ b;
     rectangle_ := v;
     minimumLevel_ := minimumLevel_ b;
     featureCache := featureCache b;
     tileCache := tileCache b;
     olWmsDelegate_ := olWmsDelegate_ b;
     proxy := proxy b;
     promises := promises b;
     memory := memory b;
     trace := trace b |}.

Definition setFeatureCache (v : LRUCache.t pid) (b : Bridge) : Bridge :=
  {| source_ := source_ b;
     projection_ := projection_ b;
     fallbackProj_ := fallbackProj_ b;
     styleFunction_ := styleFunction_ b;
     shouldRequestNextLevel := shouldRequestNextLevel b;
     emptyCanvasPromise_ := emptyCanvasPromise_ b;
     tilingScheme_ := tilingScheme_ b;
     ready_ := ready_ b;
     rectangle_ := rectangle_ b;
     minimumLevel_ := minimumLevel_ b;
     featureCache := v;
     tileCache := tileCache b;
     olWmsDelegate_ := olWmsDelegate_ b;
     proxy := proxy b;
     promises := promises b;
     memory := memory b;
     trace := trace b |}.

Definition setTileCache (v : LRUCache.t pid) (b : Bridge) : Bridge :=
  {| source_ := source_ b;
     projection_ := projection_ b;
     fallbackProj_ := fallbackProj_ b;
     styleFunction_ := styleFunction_ b;
     shouldRequestNextLevel := shouldRequestNextLevel b;
     emptyCanvasPromise_ := emptyCanvasPromise_ b;
     tilingScheme_ := tilingScheme_ b;
     ready_ := ready_ b;
     rectangle_ := rectangle_ b;
     minimumLevel_ := minimumLevel_ b;
     featureCache := featureCache b;
     tileCache := v;
     olWmsDelegate_ := olWmsDelegate_ b;
     proxy := proxy b;
     promises := promises b;
     memory := memory b;
     trace := trace b |}.

Definition setDelegate (v : option OLImageryProvider) (b : Bridge) : Bridge :=
  {| source_ := source_ b;
     projection_ := projection_ b;
     fallbackProj_ := fallbackProj_ b;
     styleFunction_ := styleFunction_ b;
     shouldRequestNextLevel := shouldRequestNextLevel b;
     emptyCanvasPromise_ := emptyCanvasPromise_ b;
     tilingScheme_ := tilingScheme_ b;
     ready_ := ready_ b;
     rectangle_ := rectangle_ b;
     minimumLevel_ := minimumLevel_ b;
     featureCache := featureCache b;
     tileCache := tileCache b;
     olWmsDelegate_ := v;
     proxy := proxy b;
     promises := promises b;
     memory := memory b;
     trace := trace b |}.

Definition setPromises (v : list Promise) (b : Bridge) : Bridge :=
  {| source_ := source_ b;
     projection_ := projection_ b;
     fallbackProj_ := fallbackProj_ b;
     styleFunction_ := styleFunction_ b;
     shouldRequestNextLevel := shouldRequestNextLevel b;
     emptyCanvasPromise_ := emptyCanvasPromise_ b;
     tilingScheme_ := tilingScheme_ b;
     ready_ := ready_ b;
     rectangle_ := rectangle_ b;
     minimumLevel_ := minimumLevel_ b;
     featureCache := featureCache b;
     tileCache := tileCache b;
     olWmsDelegate_ := olWmsDelegate_ b;
     proxy := proxy b;
     promises := v;
     memory := memory b;
     trace := trace b |}.

Definition setMemory (v : heap) (b : Bridge) : Bridge :=
  {| source_ := source_ b;
     projection_ := projection_ b;
     fallbackProj_ := fallbackProj_ b;
     styleFunction_ := styleFunction_ b;
     shouldRequestNextLevel := shouldRequestNextLevel b;
     emptyCanvasPromise_ := emptyCanvasPromise_ b;
     tilingScheme_ := tilingScheme_ b;
     ready_ := ready_ b;
     rectangle_ := rectangle_ b;
     minimumLevel_ := minimumLevel_ b;
     featureCache := featureCache b;
     tileCache := tileCache b;
     olWmsDelegate_ := olWmsDelegate_ b;
     proxy := proxy b;
     promises := promises b;
     memory := v;
     trace := trace b |}.

Definition setTrace (v : list Event) (b : Bridge) : Bridge :=
  {| source_ := source_ b;
     projection_ := projection_ b;
     fallbackProj_ := fallbackProj_ b;
     styleFunction_ := styleFunction_ b;
     shouldRequestNextLevel := shouldRequestNextLevel b;
     emptyCanvasPromise_ := emptyCanvasPromise_ b;
     tilingScheme_ := tilingScheme_ b;
     ready_ := ready_ b;
     rectangle_ := rectangle_ b;
     minimumLevel_ := minimumLevel_ b;
     featureCache := featureCache b;
     tileCache := tileCache b;
     olWmsDelegate_ := olWmsDelegate_ b;
     proxy := proxy b;
     promises := promises b;
     memory := memory b;
     trace := v |}.

(** JavaScript objects used as parameter maps: [o[k] = v] keeps the place
    of a key that is already there, and [{...a, ...b}] assigns the entries
    of [b] onto a copy of [a]. *)
Fixpoint assign (k v : string) (o : Params) : Params :=
  match o with
  | [] => [(k, v)]
  | (k', v') :: rest =>
      if String.eqb k k' then (k', v) :: rest else (k', v') :: assign k v rest
  end.

Definition spread (a b : Params) : Params :=
  fold_left (fun o kv => assign (fst kv) (snd kv) o) b a.

Definition upperAscii (c : ascii) : ascii :=
  let n := nat_of_ascii c in
  if (97 <=? n) && (n <=? 122) then ascii_of_nat (n - 32) else c.

Fixpoint toUpperCase (s : string) : string :=
  match s with
  | EmptyString => EmptyString
  | String c rest => String (upperAscii c) (toUpperCase rest)
  end.

(** A number in a template literal. *)
Definition numText (z : Z) : string := NilZero.string_of_int (Z.to_int z).

(** [if (url)], [if (!fmt)]: [undefined] and the empty string are falsy. *)
Definition truthy (s : option string) : bool :=
  match s with
  | Some t => negb (String.eqb t "")
  | None => false
  end.

(** [Math.PI] and [Math.pow(2, z)] for an integer [z]. *)
Definition MathPI : float := 0x1.921fb54442d18p+1%float.
Definition pow2 (z : Z) : float := Z.ldexp 1%float z.

(** [a / d] where [d] may be [undefined]. *)
Definition divBy (a : float) (d : jsnum) : float :=
  match d with
  | Some v => PrimFloat.div a v
  | None => nan
  end.

Definition logEvent (e : Event) (b : Bridge) : Bridge :=
  setTrace (trace b ++ [e]) b.

(** A new pending promise. *)
Definition newPromise (o : Origin) (b : Bridge) : pid * Bridge :=
  (length (promises b),
   setPromises (promises b ++ [ {| origin := o; status := Pending |} ]) b).

Definition statusOf (b : Bridge) (p : pid) : option Settled :=
  option_map status (promises b !! p).

Definition settle (p : pid) (s : Settled) (b : Bridge) : Bridge :=
  setPromises
    (alter (fun pr => {| origin := origin pr; status := s |}) p (promises b)) b.

(** [cache.containsKey(key) ? cache.get(key) : undefined] *)
Definition lookupCache {V} (k : string) (c : LRUCache.t V)
  : option V * LRUCache.t V :=
  if LRUCache.containsKey k c then LRUCache.get k c else (None, c).

(* ------------------------------------------------------------------ *)
(** ** Capability getters *)

Definition tileWidth (b : Bridge) : jsnum :=
  match olWmsDelegate_ b with
  | Some d => d_tileWidth d
  | None =>
      match tileGrid (source_ b) with
      | Some g =>
          match getTileSize g 0 with
          | SizeArray w _ => Some w
          | SizeNumber n => Some n
          end
      | None => Some 256%float
      end
  end.

Definition tileHeight (b : Bridge) : jsnum :=
  match olWmsDelegate_ b with
  | Some d => d_tileHeight d
  | None =>
      match tileGrid (source_ b) with
      | Some g =>
          match getTileSize g 0 with
          | SizeArray _ h => Some h
          | SizeNumber n => Some n
          end
      | None => Some 256%float
      end
  end.

Definition maximumLevel (b : Bridge) : Z :=
  match olWmsDelegate_ b with
  | Some d => match d_maximumLevel d with Some v => v | None => 18 end
  | None =>
      match tileGrid (source_ b) with
      | Some g => getMaxZoom g
      | None => 18
      end
  end.

Definition minimumLevel (b : Bridge) : Z :=
  match olWmsDelegate_ b with
  | Some d => match d_minimumLevel d with Some v => v | None => 0 end
  | None => minimumLevel_ b
  end.

Definition tileDiscardPolicy (b : Bridge) : option string :=
  match olWmsDelegate_ b with
  | Some d => d_tileDiscardPolicy d
  | None => None
  end.

Definition hasAlphaChannel (b : Bridge) : bool :=
  match olWmsDelegate_ b with
  | Some d => match d_hasAlphaChannel d with Some v => v | None => true end
  | None => true
  end.

Definition pickFeatures (x y level : Z) (longitude latitude : float)
  (b : Bridge) : PickResult :=
  match olWmsDelegate_ b with
  | Some d =>
      match d_pickFeatures d with
      | Some pick => pick x y level longitude latitude
      | None => None
      end
  | None => None
  end.

Definition getTileCredits (x y level : Z) (b : Bridge) : list Credit :=
  let own :=
    match getAttributions (source_ b) with
    | None => []
    | Some attributions =>
        attributions (if shouldRequestNextLevel b then level + 1 else level)%Z
    end in
  match olWmsDelegate_ b with
  | Some d =>
      match d_getTileCredits d with
      | Some credits => credits x y level
      | None => own
      end
  | None => own
  end.

Definition getCacheKey_ (z x y : Z) : string :=
  (numText z ++ "_" ++ numText x ++ "_" ++ numText y)%string.

Section Provider.

(** Module-level bindings and library calls the provider relies on. *)

(** [olUseNewCoordinates]: the result of the probe run when the module is
    loaded. *)
Variable olUseNewCoordinates : bool.

(** [new URL(sample, base)]: [`${u.origin}${u.pathname}`] and the search
    parameters in order; [None] when it throws. *)
Variable parseUrl : string -> option (string * Params).

(** [createXYZ({extent, tileSize: 256, maxZoom: 20})] and
    [getProj('EPSG:3857')]. *)
Variable createXYZ : list float -> TileGrid.
Variable proj3857 : Projection.

(** [new OLImageryProvider(map, source, fallbackProj)]. *)
Variable newOLImageryProvider : TileWMS -> option Projection -> OLImageryProvider.

(* ------------------------------------------------------------------ *)
(** ** Fetching and decoding *)

(** [getTileFeatures(url, z, x, y)] *)
Definition getTileFeatures (url : string) (z x y : Z) (b : Bridge)
  : pid * Bridge :=
  let cacheKey := getCacheKey_ z x y in
  let b := logEvent (FeatureCacheLookup cacheKey) b in
  match lookupCache cacheKey (featureCache b) with
  | (Some promise, cache) => (promise, setFeatureCache cache b)
  | (None, _) =>
      let headers :=
        match olcs_authHeaders (source_ b) with
        | Some headersFn => headersFn z x y
        | None => []
        end in
      let b := logEvent (Fetch url headers) b in
      let '(promise, b) := newPromise (FromFetch url headers) b in
      (promise,
       setFeatureCache
         (LRUCache.setAndGroom cacheKey promise (featureCache b)) b)
  end.

(** [readFeaturesFromBuffer]: the decoder hands out features whose
    coordinate buffers are new arrays. *)
Fixpoint readFeatures (ds : list DecodedFeature) (h : heap)
  : list RenderFeature * heap :=
  match ds with
  | [] => ([], h)
  | d :: rest =>
      let '(buffer, h1) :=
        match decodedCoordinates d with
        | Some cs =>
            let '(l, h') := Js.alloc (List.map Some cs) h in (Some l, h')
        | None => (None, h)
        end in
      let '(fs, h2) := readFeatures rest h1 in
      ({| getType := decodedType d;
          getFlatCoordinates := buffer;
          getEnds := decodedEnds d;
          getEndss := decodedEndss d |} :: fs, h2)
  end.

(** The fetch behind promise [p] ends with [outcome]: the chain
    [fetch(...).then(...).then(...).then(...)] settles. *)
Definition fetchSettles (p : pid) (outcome : FetchOutcome) (b : Bridge)
  : Bridge :=
  match promises b !! p with
  | Some pr =>
      match origin pr, status pr with
      | FromFetch _ _, Pending =>
          match outcome with
          | Failed why => settle p (Rejected why) b
          | Decoded ds =>
              let '(fs, h) := readFeatures ds (memory b) in
              settle p (Fulfilled (VFeatures fs)) (setMemory h b)
          end
      | _, _ => b
      end
  | None => b
  end.

(** [rasterizeFeatures(features, styleFn, resolution)] *)
Definition rasterizeFeatures (features : list RenderFeature)
  (styleFn : StyleFunction) (resolution : float) (b : Bridge)
  : Canvas * Bridge :=
  let '(canvas, h) :=
    Raster.rasterizeFeatures (tileWidth b) (tileHeight b)
      features styleFn resolution (memory b) in
  (canvas, setMemory h b).

(** The nominal resolution handed to the style function. *)
Definition nominalResolution (z_ : Z) (b : Bridge) : float :=
  let is3857 :=
    match projection_ b with
    | Some p => String.eqb (getCode p) "EPSG:3857"
    | None => false
    end in
  if is3857 then
    let worldMeters := (2 * MathPI * 6378137)%float in
    (divBy worldMeters (tileWidth b) / pow2 z_)%float
  else
    let worldRadians := (2 * MathPI)%float in
    (divBy worldRadians (tileWidth b) / pow2 z_)%float.

(** The reaction registered by [requestImage] on the feature promise runs
    for the tile promise [p]: a fulfilled parent is rasterized, a rejected
    one rejects [p] (the [then] has no rejection handler).
    [tileXYToNativeRectangle] only writes [tileRectangle_], which nothing
    reads afterwards. *)
Definition reaction (p : pid) (b : Bridge) : Bridge :=
  match promises b !! p with
  | Some pr =>
      match origin pr, status pr with
      | FromThen parent x y z_, Pending =>
          match statusOf b parent with
          | Some (Fulfilled (VFeatures features)) =>
              let '(canvas, b') :=
                rasterizeFeatures features (styleFunction_ b)
                  (nominalResolution z_ b) b in
              settle p (Fulfilled (VCanvas canvas)) b'
          | Some (Fulfilled (VCanvas _)) => settle p (Rejected TypeError) b
          | Some (Rejected why) => settle p (Rejected why) b
          | _ => b
          end
      | _, _ => b
      end
  | None => b
  end.

(* ------------------------------------------------------------------ *)
(** ** [requestImage] *)

(** The promise a cache miss stores for the tile:
<<
    promise = url
      ? this.getTileFeatures(url, z_, x, y).then((features) => ...)
      : this.emptyCanvasPromise_;
>> *)
Definition promiseForUrl (url : option string) (x y z_ : Z) (b : Bridge)
  : pid * Bridge :=
  match url with
  | Some u =>
      if truthy url then
        let '(features, b) := getTileFeatures u z_ x y b in
        newPromise (FromThen features x y z_) b
      else (emptyCanvasPromise_ b, b)
  | None => (emptyCanvasPromise_ b, b)
  end.

Definition requestImage (x y z : Z) (request : option Request) (b : Bridge)
  : ImageResult * Bridge :=
  match olWmsDelegate_ b with
  | Some d => (ImgDelegated (d_requestImage d x y z request), b)
  | None =>
      let z_ := (if shouldRequestNextLevel b then z + 1 else z)%Z in
      if (z <? minimumLevel_ b)%Z then (ImgPromise (emptyCanvasPromise_ b), b)
      else
        let cacheKey := getCacheKey_ z_ x y in
        let b := logEvent (TileCacheLookup cacheKey) b in
        match lookupCache cacheKey (tileCache b) with
        | (Some promise, cache) => (ImgPromise promise, setTileCache cache b)
        | (None, _) =>
            match getTileUrlFunction (source_ b), projection_ b with
            | Some tileUrlFunction, Some projection =>
                let y_ := (if olUseNewCoordinates then y else - y - 1)%Z in
                let b := logEvent (UrlBuilt z_ x y_) b in
                match tileUrlFunction (z_, x, y_) projection with
                | Throw e =>
                    (ImgUndefined,
                     logEvent (ErrorRaised "could not render pbf to tile" e) b)
                | Normal url =>
                    let url :=
                      match proxy b with
                      | Some getURL => getURL url
                      | None => url
                      end in
                    let '(promise, b) := promiseForUrl url x y z_ b in
                    (ImgPromise promise,
                     setTileCache
                       (LRUCache.setAndGroom cacheKey promise (tileCache b)) b)
                end
            | _, _ => (ImgUndefined, b)
            end
        end
  end.

(* ------------------------------------------------------------------ *)
(** ** Delegation to the stock raster bridge *)

(** [a || b] on optional strings. *)
Definition orElse (a b : option string) : option string :=
  if truthy a then a else b.

(** [cloneTileWms_(src, overrides)]: the description handed to the
    delegate.  The attributions, proxy hint, tile load function and
    authorization hook it also carries over are not part of [TileWMS]
    here. *)
Definition cloneTileWms_ (src : TileWMS) (overrides : Params) : TileWMS :=
  {| wmsUrl := wmsUrl src;
     wmsParams := spread (wmsParams src) overrides;
     wmsProjection := wmsProjection src;
     wmsTileGrid := wmsTileGrid src;
     wmsCrossOrigin :=
       match wmsCrossOrigin src with
       | Some c => Some c
       | None => Some "anonymous"%string
       end;
     wmsServerType := orElse (wmsServerType src) (Some "geoserver"%string) |}.

(** [deriveTileWmsFromVector_()]: probes the tile URL function once and
    rebuilds a WMS description from the URL; [null] when there is no URL
    function, no sample URL, or anything throws. *)
Definition deriveTileWmsFromVector_ (b : Bridge) : option TileWMS * Bridge :=
  let vt := source_ b in
  let proj :=
    match getProjection vt, projection_ b with
    | Some p, _ => p
    | None, Some p => p
    | None, None => proj3857
    end in
  let grid :=
    match tileGrid vt, getTileGridForProjection vt proj with
    | Some g, _ => g
    | None, Some g => g
    | None, None => createXYZ (getExtent proj)
    end in
  match getTileUrlFunction vt with
  | None => (None, b)
  | Some urlFn =>
      let b := logEvent (UrlBuilt 0 0 0) b in
      match urlFn (0, 0, 0)%Z proj with
      | Throw _ => (None, b)
      | Normal sample =>
          match sample with
          | Some s =>
              if truthy sample then
                match parseUrl s with
                | None => (None, b)
                | Some (baseUrl, query) =>
                    let parsed :=
                      fold_left
                        (fun o kv => assign (toUpperCase (fst kv)) (snd kv) o)
                        query [] in
                    (Some
                       {| wmsUrl := Some baseUrl;
                          wmsParams :=
                            assign "TILED" "true" (spread parsed (params_ vt));
                          wmsProjection := Some proj;
                          wmsTileGrid := Some grid;
                          wmsCrossOrigin :=
                            match crossOrigin vt with
                            | Some c => Some c
                            | None => Some "anonymous"%string
                            end;
                          wmsServerType :=
                            orElse (serverType_ vt) (Some "geoserver"%string) |}, b)
                end
              else (None, b)
          | None => (None, b)
          end
      end
  end.

(** [tryInitOlWmsDelegate_()] *)
Definition tryInitOlWmsDelegate_ (b : Bridge) : Bridge :=
  match olcs_wmsFormat (source_ b) with
  | Some fmt =>
      if truthy (Some fmt) then
        let '(base, b) :=
          match olcs_wmsCompanion (source_ b) with
          | Some companion => (Some companion, b)
          | None => deriveTileWmsFromVector_ b
          end in
        match base with
        | None => b
        | Some base =>
            let overrides := [("FORMAT"%string, fmt); ("TILED"%string, "true"%string)] in
            let overrides :=
              if String.eqb fmt "image/jpeg" then overrides
              else assign "TRANSPARENT" "true" overrides in
            let wmsFor3D := cloneTileWms_ base overrides in
            let delegate := newOLImageryProvider wmsFor3D (fallbackProj_ b) in
            let b := setDelegate (Some delegate) b in
            let b := setTilingScheme (d_tilingScheme delegate) b in
            let b :=
              setRectangle
                (match d_rectangle delegate with
                 | Some r => Some r
                 | None => rectangle_ b
                 end) b in
            setReady true b
        end
      else b
  | None => b
  end.

(* ------------------------------------------------------------------ *)
(** ** Becoming ready *)

(** The level-zero tile counts: the callback handed to
    [forEachTileCoord] overwrites both counts at every tile it is called
    with. *)
Definition levelZeroTiles (s : Source) (p : Projection) : Z * Z :=
  match tileGrid s with
  | Some g =>
      fold_left
        (fun (options : Z * Z) (c : Z * Z * Z) =>
           let '(_, xIndex, yIndex) := c in (xIndex + 1, yIndex + 1)%Z)
        (forEachTileCoord g (getExtent p) 0%Z) (1, 1)%Z
  | None => (1, 1)%Z
  end.

(** [handleSourceChanged_()].  Without any projection the reads of
    [this.projection_] throw a [TypeError], after [projection_] was
    assigned. *)
Definition handleSourceChanged_ (b : Bridge) : Completion unit * Bridge :=
  if negb (ready_ b) && String.eqb (getState (source_ b)) "ready" then
    let projection :=
      match getSourceProjection (source_ b) with
      | Some p => Some p
      | None => fallbackProj_ b
      end in
    let b := setProjection projection b in
    match projection with
    | None => (Throw "TypeError", b)
    | Some p =>
        let options := levelZeroTiles (source_ b) p in
        let supported :=
          if String.eqb (getCode p) "EPSG:4326" then
            Some
              (setTilingScheme (GeographicTilingScheme options)
                 (setShouldRequestNextLevel
                    ((fst options =? 1)%Z && (snd options =? 1)%Z) b))
          else if String.eqb (getCode p) "EPSG:3857" then
            Some
              (setTilingScheme (WebMercatorTilingScheme (Some options))
                 (setShouldRequestNextLevel false b))
          else None in
        match supported with
        | None => (Normal tt, b)
        | Some b =>
            let b :=
              match rectangle_ b with
              | Some _ => b
              | None => setRectangle (Some (RectangleOf (tilingScheme_ b))) b
              end in
            (Normal tt, tryInitOlWmsDelegate_ (setReady true b))
        end
    end
  else (Normal tt, b).

(* ------------------------------------------------------------------ *)
(** ** Construction *)

Record MVTWMSOptions : Type := {
  opt_rectangle : option Rectangle;
  opt_styleFunction : option StyleFunction;
  opt_cacheSize : option nat;
  opt_featureCache : option (LRUCache.t pid);
  opt_minimumLevel : option Z
}.

(** [new MVTWMSImageryProvider(olMap, source, opt_fallbackProj, options)] in
    a world that already holds the promises [world] and the buffers [mem]
    (an injected feature cache refers to them). *)
Definition construct (source : Source) (opt_fallbackProj : option Projection)
  (options : MVTWMSOptions) (world : list Promise) (mem : heap)
  : Completion unit * Bridge :=
  let scheme := WebMercatorTilingScheme None in
  let cacheSize :=
    match opt_cacheSize options with Some n => n | None => 50 end in
  handleSourceChanged_
    {| source_ := source;
       projection_ := None;
       fallbackProj_ := opt_fallbackProj;
       styleFunction_ :=
         match opt_styleFunction options with
         | Some f => f
         | None => fun _ _ => StyleMany styles
         end;
       shouldRequestNextLevel := false;
       emptyCanvasPromise_ := length world;
       tilingScheme_ := scheme;
       ready_ := false;
       rectangle_ :=
         match opt_rectangle options with
         | Some r => Some r
         | None => Some (RectangleOf scheme)
         end;
       minimumLevel_ :=
         match opt_minimumLevel options with Some m => m | None => 0%Z end;
       featureCache :=
         match opt_featureCache options with
         | Some c => c
         | None => LRUCache.create cacheSize
         end;
       tileCache := LRUCache.create cacheSize;
       olWmsDelegate_ := None;
       proxy := olcs_proxy source;
       promises :=
         world ++ [ {| origin := FromResolve;
                       status := Fulfilled (VCanvas createEmptyCanvas) |} ];
       memory := mem;
       trace := [] |}.

(* ------------------------------------------------------------------ *)
(** ** The life of a bridge *)

(** What can happen to a bridge: the source changes and fires ['change'];
    the consumer asks for a tile; a fetch ends; a reaction runs. *)
Inductive Op : Type :=
| SourceChanges (s : Source)
| RequestImage (x y z : Z) (request : option Request)
| FetchSettles (p : pid) (outcome : FetchOutcome)
| Reaction (p : pid).

Definition step (o : Op) (b : Bridge) : Bridge :=
  match o with
  | SourceChanges s => snd (handleSourceChanged_ (setSource s b))
  | RequestImage x y z request => snd (requestImage x y z request b)
  | FetchSettles p outcome => fetchSettles p outcome b
  | Reaction p => reaction p b
  end.

Definition run (ops : list Op) (b : Bridge) : Bridge :=
  fold_left (fun b o => step o b) ops b.

(** [n] calls of [requestImage] for one address, one after the other. *)
Fixpoint requestImages (n : nat) (x y z : Z) (request : option Request)
  (b : Bridge) : list ImageResult * Bridge :=
  match n with
  | O => ([], b)
  | S n' =>
      let '(r, b1) := requestImage x y z request b in
      let '(rs, b2) := requestImages n' x y z request b1 in
      (r :: rs, b2)
  end.

Definition isFetch (e : Event) : bool :=
  match e with
  | Fetch _ _ => true
  | _ => false
  end.

Definition isErrorRaised (e : Event) : bool :=
  match e with
  | ErrorRaised _ _ => true
  | _ => false
  end.

(** The network fetches issued and the error notifications raised so far. *)
Definition fetches (b : Bridge) : nat :=
  length (List.filter isFetch (trace b)).

Definition errorsRaised (b : Bridge) : nat :=
  length (List.filter isErrorRaised (trace b)).

End Provider.

(* ================================================================== *)
(** * The older copy of the provider *)
(* ================================================================== *)

Module Legacy.

(** [src/src/olcs/MVTWMSImageryProvider.ts] is an earlier copy of the
    provider.  It has no delegate and clones nothing: its
    [readFeaturesFromBuffer] scales the coordinates of the features it has
    just decoded in their own buffers, before handing them out, and its
    [rasterizeFeatures] passes the features to [drawGeometry] as they are. *)

(** [w - a] where [a] may be [undefined]. *)
Definition minus (w : float) (a : jsnum) : float :=
  match a with
  | Some v => PrimFloat.sub w v
  | None => nan
  end.

(** The loop over one buffer, [n] iterations from [i]:
<<
    let flip = false;
    for (let i = 0; i < flatCoordinates.length; ++i) {
      flatCoordinates[i] *= scaleFactor;
      if (flip) flatCoordinates[i] = this.tileWidth - flatCoordinates[i];
      if (OL_VERSION <= '6.4.4') flip = !flip;
    }
>>
    [legacy] is the outcome of the version test. *)
Fixpoint scaleInPlace (n i : nat) (buffer : loc) (scaleFactor tileWidth : float)
  (legacy flip : bool) (h : heap) : heap :=
  match n with
  | O => h
  | S n' =>
      let h1 := Js.store buffer i (Js.mul (Js.load h buffer i) scaleFactor) h in
      let h2 :=
        if flip then Js.store buffer i (minus tileWidth (Js.load h1 buffer i)) h1
        else h1 in
      scaleInPlace n' (i + 1) buffer scaleFactor tileWidth legacy
        (if legacy then negb flip else flip) h2
  end.

(** [features.forEach(...)]; reading the length of a missing buffer
    throws. *)
Fixpoint scaleFeatures (features : list RenderFeature)
  (scaleFactor tileWidth : float) (legacy : bool) (h : heap)
  : Completion unit * heap :=
  match features with
  | [] => (Normal tt, h)
  | f :: rest =>
      match getFlatCoordinates f with
      | None => (Throw "TypeError", h)
      | Some buffer =>
          scaleFeatures rest scaleFactor tileWidth legacy
            (scaleInPlace (length (Js.arrayAt h buffer)) 0 buffer
               scaleFactor tileWidth legacy false h)
      end
  end.

(** [readFeaturesFromBuffer(buffer)] of the older copy: decode, then scale
    by [tileWidth / 4096] in place. *)
Definition readFeaturesFromBuffer (decoded : list DecodedFeature)
  (tileWidth : float) (legacy : bool) (h : heap)
  : Completion (list RenderFeature) * heap :=
  let '(features, h1) := readFeatures decoded h in
  match scaleFeatures features (tileWidth / 4096)%float tileWidth legacy h1 with
  | (Normal _, h2) => (Normal features, h2)
  | (Throw e, h2) => (Throw e, h2)
  end.

End Legacy.

(* ================================================================== *)
(** * Notions used in the statements *)
(* ================================================================== *)

(** The value a cache holds for a key, without touching the cache. *)
Definition peek {V} (k : string) (c : LRUCache.t V) : option V :=
  option_map snd (find (LRUCache.hasKey k) (LRUCache.entries c)).

(** The fields no tile request, fetch or reaction writes. *)
Definition sameSettings (b b' : Bridge) : Prop :=
  source_ b' = source_ b
  /\ projection_ b' = projection_ b
  /\ fallbackProj_ b' = fallbackProj_ b
  /\ shouldRequestNextLevel b' = shouldRequestNextLevel b
  /\ emptyCanvasPromise_ b' = emptyCanvasPromise_ b
  /\ tilingScheme_ b' = tilingScheme_ b
  /\ ready_ b' = ready_ b
  /\ rectangle_ b' = rectangle_ b
  /\ minimumLevel_ b' = minimumLevel_ b
  /\ olWmsDelegate_ b' = olWmsDelegate_ b
  /\ proxy b' = proxy b.

(** Case analysis on the innermost scrutinee of the goal. *)
Ltac break_match :=
  match goal with
  | |- context [match ?x with _ => _ end] =>
      lazymatch x with
      | context [match _ with _ => _ end] => fail
      | _ => destruct x eqn:?
      end
  end.

(** What the scaling loop computes, as a function: pairs are scaled by
    [(sx, sy)]; a dangling last coordinate gets [NaN] for its partner,
    from [undefined * sy]. *)
Fixpoint scaledCopy (src : jsarray) (sx sy : float) : jsarray :=
  match src with
  | [] => []
  | [a] => [Some (Js.mul a sx); Some nan]
  | a :: b :: rest => Some (Js.mul a sx) :: Some (Js.mul b sy) :: scaledCopy rest sx sy
  end.

(** The loop on the newest array of the store, as a loop on that array. *)
Fixpoint scaleArray (n i : nat) (src : jsarray) (sx sy : float) (flat : jsarray)
  : jsarray :=
  match n with
  | O => flat
  | S n' =>
      scaleArray n' (i + 2) src sx sy
        (Js.setItem (i + 1) (Js.mul (Js.item src (i + 1)) sy)
           (Js.setItem i (Js.mul (Js.item src i) sx) flat))
  end.

(** The placeholder promise is the one made by
    [Promise.resolve(this.emptyCanvas_)]. *)
Definition placeholderResolved (b : Bridge) : Prop :=
  promises b !! emptyCanvasPromise_ b
  = Some {| origin := FromResolve;
            status := Fulfilled (VCanvas createEmptyCanvas) |}.

(** The level and row the source is asked for. *)
Definition sourceLevel (b : Bridge) (z : Z) : Z :=
  if shouldRequestNextLevel b then (z + 1)%Z else z.

Definition sourceRow (olUseNewCoordinates : bool) (y : Z) : Z :=
  if olUseNewCoordinates then y else (- y - 1)%Z.

Definition supportedCode (code : string) : bool :=
  String.eqb code "EPSG:4326" || String.eqb code "EPSG:3857".

(** The source reports a projection, and it is neither of the two the
    bridge knows. *)
Definition reportsUnsupported (s : Source) : Prop :=
  exists p, getSourceProjection s = Some p /\ supportedCode (getCode p) = false.

(** Every source change of a life reports an unsupported projection. *)
Definition staysUnsupported (o : Op) : Prop :=
  match o with
  | SourceChanges s => reportsUnsupported s
  | _ => True
  end.

(* ================================================================== *)
(** * Concrete bridges *)
(* ================================================================== *)

(** A small world to run the bridge in: a source that serves
    [http://tiles/z/x/y], a URL parser that finds no query, a 256-pixel
    grid, and a delegate that answers every request with ["wms"]. *)

Definition exampleProjection (code : string) : Projection :=
  {| getCode := code; getExtent := [] |}.

Definition exampleUrl (c : Z * Z * Z) (p : Projection) : Completion (option string) :=
  let '(z, x, y) := c in
  Normal (Some ("http://tiles/" ++ numText z ++ "/" ++ numText x ++ "/"
                ++ numText y)%string).

Definition exampleSourceIn (state code : string) (fmt : option string) : Source :=
  {| getState := state;
     getSourceProjection := Some (exampleProjection code);
     getProjection := Some (exampleProjection code);
     tileGrid := None;
     getTileGridForProjection := fun _ => None;
     getTileUrlFunction := Some exampleUrl;
     getAttributions := None;
     olcs_proxy := None;
     olcs_authHeaders := None;
     olcs_wmsFormat := fmt;
     olcs_wmsCompanion := None;
     params_ := [];
     crossOrigin := None;
     serverType_ := None |}.

Definition exampleSource : string -> option string -> Source :=
  exampleSourceIn "ready".

Definition exampleOptions (minimum : option Z) : MVTWMSOptions :=
  {| opt_rectangle := None;
     opt_styleFunction := None;
     opt_cacheSize := None;
     opt_featureCache := None;
     opt_minimumLevel := minimum |}.

Definition exampleParseUrl (s : string) : option (string * Params) := Some (s, []).

Definition exampleGrid (extent : list float) : TileGrid :=
  {| forEachTileCoord := fun _ _ => [];
     getTileSize := fun _ => SizeNumber 256%float;
     getMaxZoom := 20 |}.

Definition exampleDelegate (w : TileWMS) (fallback : option Projection)
  : OLImageryProvider :=
  {| d_requestImage := fun _ _ _ _ => Some "wms"%string;
     d_getTileCredits := Some (fun _ _ _ => ["wms credit"%string]);
     d_pickFeatures := Some (fun _ _ _ _ _ => None);
     d_tileWidth := Some 256%float;
     d_tileHeight := Some 256%float;
     d_maximumLevel := Some 20%Z;
     d_minimumLevel := Some 0%Z;
     d_tileDiscardPolicy := None;
     d_hasAlphaChannel := Some true;
     d_tilingScheme := WebMercatorTilingScheme (Some (1, 1)%Z);
     d_rectangle := None |}.

(** The bridge built on such a source. *)
Definition exampleBridge (code : string) (fmt : option string) (minimum : option Z)
  : Bridge :=
  snd (construct exampleParseUrl exampleGrid (exampleProjection "EPSG:3857")
         exampleDelegate (exampleSource code fmt) None (exampleOptions minimum)
         [] []).

(** A bridge whose source is still loading. *)
Definition exampleLoadingBridge : Bridge :=
  snd (construct exampleParseUrl exampleGrid (exampleProjection "EPSG:3857")
         exampleDelegate (exampleSourceIn "loading" "EPSG:4326" None) None
         (exampleOptions None) [] []).

Definition exampleWms : TileWMS :=
  {| wmsUrl := None;
     wmsParams := [];
     wmsProjection := None;
     wmsTileGrid := None;
     wmsCrossOrigin := None;
     wmsServerType := None |}.

Definition exampleStep : Op -> Bridge -> Bridge :=
  step true exampleParseUrl exampleGrid (exampleProjection "EPSG:3857")
    exampleDelegate.

Definition exampleRun : list Op -> Bridge -> Bridge :=
  run true exampleParseUrl exampleGrid (exampleProjection "EPSG:3857")
    exampleDelegate.

(** A line across the whole local extent. *)
Definition exampleLine : RenderFeature :=
  {| getType := "LineString";
     getFlatCoordinates := Some 0;
     getEnds := Some [4];
     getEndss := None |}.

Definition exampleHeap : heap :=
  [ [Some 0%float; Some 0%float; Some 4096%float; Some 4096%float] ].

Definition exampleStyle : StyleFunction := fun _ _ => StyleMany styles.

(* ================================================================== *)
(** * Notions used in the further properties *)
(* ================================================================== *)

(** Whether a text holds the separator of cache keys. *)
Fixpoint hasUnderscore (s : string) : bool :=
  match s with
  | EmptyString => false
  | String c rest => Ascii.eqb c "_" || hasUnderscore rest
  end.

(** The keys a cache holds, oldest first. *)
Definition keys {V} (c : LRUCache.t V) : list string :=
  List.map fst (LRUCache.entries c).

(** The occupancy the grooming step allows. *)
Definition withinBound {V} (c : LRUCache.t V) : Prop :=
  LRUCache.getCount c <= 2 * LRUCache.highWaterMark c.

(** What one call of the provider does to a cache: nothing, a lookup that
    finds the key, or the insertion of a key that [containsKey] has just
    reported absent, followed by the grooming step. *)
Inductive touched {V} (c : LRUCache.t V) : LRUCache.t V -> Prop :=
| touched_not : touched c c
| touched_hit (k : string) (v : V) (c' : LRUCache.t V) :
    lookupCache k c = (Some v, c') -> touched c c'
| touched_set (k : string) (v : V) :
    LRUCache.containsKey k c = false -> touched c (LRUCache.setAndGroom k v c).

(** Every source change of a life comes from a source that is not ready. *)
Definition staysLoading (o : Op) : Prop :=
  match o with
  | SourceChanges s => getState s <> "ready"%string
  | _ => True
  end.

(** Every source change of a life comes from a source that names no
    [olcs_wmsFormat]. *)
Definition asksNoWms (o : Op) : Prop :=
  match o with
  | SourceChanges s => truthy (olcs_wmsFormat s) = false
  | _ => True
  end.

(** A bridge that has not become ready and has served nothing yet. *)
Definition idle (b : Bridge) : Prop :=
  ready_ b = false
  /\ projection_ b = None
  /\ olWmsDelegate_ b = None
  /\ LRUCache.entries (tileCache b) = []
  /\ List.filter isFetch (trace b) = []
  /\ List.filter isErrorRaised (trace b) = [].

(** [Array.isArray(styles) ? styles : [styles]], and nothing for a falsy
    answer. *)
Definition stylesOf (s : StyleLike) : list Style :=
  match s with
  | StyleVoid => []
  | StyleOne s => [s]
  | StyleMany arr => arr
  end.

(** What one feature adds to the canvas and to the store, its buffer being
    read from the store [h]. *)
Definition paintedFor (styleFn : StyleFunction) (resolution sx sy : float)
  (h : heap) (f : RenderFeature) : list (Style * Geometry) :=
  match getFlatCoordinates f with
  | None => []
  | Some src =>
      List.map
        (fun s => (s, Raster.buildGeometry f (scaledCopy (Js.arrayAt h src) sx sy)))
        (stylesOf (styleFn f resolution))
  end.

Definition clonesFor (sx sy : float) (h : heap) (f : RenderFeature)
  : list jsarray :=
  match getFlatCoordinates f with
  | None => []
  | Some src => [scaledCopy (Js.arrayAt h src) sx sy]
  end.

(** Every buffer of [features] is an array of the store [h]. *)
Definition allocatedIn (h : heap) (features : list RenderFeature) : Prop :=
  Forall (fun f => forall src, getFlatCoordinates f = Some src -> src < length h)
    features.

(** [o[k]] on a parameter object. *)
Definition paramOf (k : string) (o : Params) : option string :=
  option_map snd (find (fun kv => String.eqb k (fst kv)) o).

(** The entries of a parsed query as [parsed[k.toUpperCase()] = v] assigns
    them. *)
Definition upperKeys (query : Params) : Params :=
  List.map (fun kv => (toUpperCase (fst kv), snd kv)) query.

(** What the loop of the older copy leaves in a buffer. *)
Fixpoint legacyScaled (a : jsarray) (scaleFactor tileWidth : float)
  (legacy flip : bool) : jsarray :=
  match a with
  | [] => []
  | v :: rest =>
      let scaled := Js.mul v scaleFactor in
      Some (if flip then PrimFloat.sub tileWidth scaled else scaled)
      :: legacyScaled rest scaleFactor tileWidth legacy
           (if legacy then negb flip else flip)
  end.

(** The buffers a decode step allocates, in order. *)
Definition decodedBuffers (ds : list DecodedFeature) : list jsarray :=
  flat_map (fun d => match decodedCoordinates d with
                     | Some cs => [List.map Some cs]
                     | None => []
                     end) ds.

Definition hasCoordinates (d : DecodedFeature) : Prop :=
  is_Some (decodedCoordinates d).

(* ------------------------------------------------------------------ *)
(** ** More concrete bridges *)

(** A source behind a proxy, with authorization headers. *)
Definition exampleSecuredSource : Source :=
  {| getState := "ready";
     getSourceProjection := Some (exampleProjection "EPSG:3857");
     getProjection := Some (exampleProjection "EPSG:3857");
     tileGrid := None;
     getTileGridForProjection := fun _ => None;
     getTileUrlFunction := Some exampleUrl;
     getAttributions := None;
     olcs_proxy := Some (option_map (String.append "http://proxy/?url="));
     olcs_authHeaders :=
       Some (fun _ _ _ => [("Authorization"%string, "Bearer t"%string)]);
     olcs_wmsFormat := None;
     olcs_wmsCompanion := None;
     params_ := [];
     crossOrigin := None;
     serverType_ := None |}.

(** A source whose URL function answers with the given completion. *)
Definition exampleSourceAnswering (answer : Completion (option string)) : Source :=
  {| getState := "ready";
     getSourceProjection := Some (exampleProjection "EPSG:3857");
     getProjection := Some (exampleProjection "EPSG:3857");
     tileGrid := None;
     getTileGridForProjection := fun _ => None;
     getTileUrlFunction := Some (fun _ _ => answer);
     getAttributions := None;
     olcs_proxy := None;
     olcs_authHeaders := None;
     olcs_wmsFormat := None;
     olcs_wmsCompanion := None;
     params_ := [];
     crossOrigin := None;
     serverType_ := None |}.

(** A source that names a format and carries a companion description, and
    one whose tiles come from a WMS endpoint. *)
Definition exampleCompanion : TileWMS :=
  {| wmsUrl := Some "http://wms/"%string;
     wmsParams := [("LAYERS"%string, "roads"%string);
                   ("FORMAT"%string, "image/gif"%string)];
     wmsProjection := None;
     wmsTileGrid := None;
     wmsCrossOrigin := None;
     wmsServerType := None |}.

Definition exampleCompanionSource : Source :=
  {| getState := "ready";
     getSourceProjection := Some (exampleProjection "EPSG:3857");
     getProjection := Some (exampleProjection "EPSG:3857");
     tileGrid := None;
     getTileGridForProjection := fun _ => None;
     getTileUrlFunction := Some exampleUrl;
     getAttributions := None;
     olcs_proxy := None;
     olcs_authHeaders := None;
     olcs_wmsFormat := Some "image/png"%string;
     olcs_wmsCompanion := Some exampleCompanion;
     params_ := [];
     crossOrigin := None;
     serverType_ := None |}.

(** A source that names a format but has nothing to derive a description
    from: no companion, and a URL function that throws. *)
Definition exampleBaselessSource : Source :=
  {| getState := "ready";
     getSourceProjection := Some (exampleProjection "EPSG:3857");
     getProjection := Some (exampleProjection "EPSG:3857");
     tileGrid := None;
     getTileGridForProjection := fun _ => None;
     getTileUrlFunction := Some (fun _ _ => Throw "boom");
     getAttributions := None;
     olcs_proxy := None;
     olcs_authHeaders := None;
     olcs_wmsFormat := Some "image/png"%string;
     olcs_wmsCompanion := None;
     params_ := [];
     crossOrigin := None;
     serverType_ := None |}.

Definition exampleWmsUrl : string := "http://wms/ows?layers=roads&format=image/png".

Definition exampleWmsSource : Source :=
  {| getState := "ready";
     getSourceProjection := Some (exampleProjection "EPSG:3857");
     getProjection := Some (exampleProjection "EPSG:3857");
     tileGrid := None;
     getTileGridForProjection := fun _ => None;
     getTileUrlFunction := Some (fun _ _ => Normal (Some exampleWmsUrl));
     getAttributions := None;
     olcs_proxy := None;
     olcs_authHeaders := None;
     olcs_wmsFormat := None;
     olcs_wmsCompanion := None;
     params_ := [("LAYERS"%string, "rivers"%string)];
     crossOrigin := None;
     serverType_ := None |}.

Definition exampleQueryParser (s : string) : option (string * Params) :=
  Some ("http://wms/ows"%string,
        [("layers"%string, "roads"%string); ("format"%string, "image/png"%string)]).

Definition exampleBridgeOn (source : Source) (options : MVTWMSOptions)
  (world : list Promise) : Bridge :=
  snd (construct exampleParseUrl exampleGrid (exampleProjection "EPSG:3857")
         exampleDelegate source None options world []).

(** Options that hand in a feature cache shared with another consumer,
    which already holds the features of tile (1, 2) at level 3, and the
    promise that cache refers to. *)
Definition exampleSharedOptions : MVTWMSOptions :=
  {| opt_rectangle := None;
     opt_styleFunction := None;
     opt_cacheSize := None;
     opt_featureCache := Some (LRUCache.mk 50 [("3_1_2"%string, 0)]);
     opt_minimumLevel := None |}.

Definition exampleSharedWorld : list Promise :=
  [ {| origin := FromFetch "http://tiles/3/1/2" []; status := Pending |} ].

(** A decoded line across the whole local extent. *)
Definition exampleDecoded : DecodedFeature :=
  {| decodedType := "LineString";
     decodedCoordinates := Some [0%float; 0%float; 4096%float; 4096%float];
     decodedEnds := Some [4];
     decodedEndss := None |}.

(* ================================================================== *)
(** * Facts about the bounded cache *)
(* ================================================================== *)

Section CacheFacts.

Context {V : Type}.
Implicit Types (c : LRUCache.t V) (k : string) (v : V).

Lemma getCount_set k v c :
  LRUCache.getCount (LRUCache.set k v c) = S (LRUCache.getCount c).
Proof.
  unfold LRUCache.getCount, LRUCache.set; simpl.
  rewrite length_app; simpl; lia.
Qed.

Lemma expireLoop_hwm fuel c :
  LRUCache.highWaterMark (LRUCache.expireLoop fuel c) = LRUCache.highWaterMark c.
Proof.
  revert c; induction fuel as [|fuel IH]; intros c; simpl; [reflexivity|].
  destruct (LRUCache.canExpireCache c); [rewrite IH|]; reflexivity.
Qed.

(** With enough fuel the loop is a [drop]: it removes exactly the entries
    in excess of the high-water mark, oldest first. *)
Lemma expireLoop_entries fuel c :
  LRUCache.getCount c <= fuel ->
  LRUCache.entries (LRUCache.expireLoop fuel c)
  = drop (LRUCache.getCount c - LRUCache.highWaterMark c) (LRUCache.entries c).
Proof.
  revert c; induction fuel as [|fuel IH]; intros [hwm es] Hfuel;
    unfold LRUCache.getCount in *; simpl in *.
  - destruct es; simpl in *; [reflexivity | lia].
  - unfold LRUCache.canExpireCache, LRUCache.getCount; simpl.
    destruct (Nat.ltb_spec hwm (length es)) as [Hlt|Hge].
    + destruct es as [|e es]; simpl in *; [lia|].
      rewrite IH by (simpl; lia). simpl.
      replace (S (length es) - hwm) with (S (length es - hwm)) by lia.
      reflexivity.
    + replace (length es - hwm) with 0 by lia. reflexivity.
Qed.

Lemma expire_entries c :
  LRUCache.entries (LRUCache.expire c)
  = drop (LRUCache.getCount c - LRUCache.highWaterMark c) (LRUCache.entries c).
Proof. apply expireLoop_entries; lia. Qed.

Lemma expire_hwm c :
  LRUCache.highWaterMark (LRUCache.expire c) = LRUCache.highWaterMark c.
Proof. apply expireLoop_hwm. Qed.

(** The loop leaves through its exit condition: the fuel was enough. *)
Lemma expire_done c : LRUCache.canExpireCache (LRUCache.expire c) = false.
Proof.
  unfold LRUCache.canExpireCache, LRUCache.getCount.
  rewrite expire_hwm, expire_entries, length_drop.
  apply Nat.ltb_ge. unfold LRUCache.getCount. lia.
Qed.

Lemma groom_hwm c :
  LRUCache.highWaterMark (LRUCache.groom c) = LRUCache.highWaterMark c.
Proof.
  unfold LRUCache.groom. destruct (_ <? _); [apply expire_hwm | reflexivity].
Qed.

Lemma groom_entries c :
  LRUCache.entries (LRUCache.groom c)
  = if 2 * LRUCache.highWaterMark c <? LRUCache.getCount c
    then drop (LRUCache.getCount c - LRUCache.highWaterMark c) (LRUCache.entries c)
    else LRUCache.entries c.
Proof.
  unfold LRUCache.groom. destruct (_ <? _); [apply expire_entries | reflexivity].
Qed.

Lemma groom_done c :
  2 * LRUCache.highWaterMark c < LRUCache.getCount c ->
  LRUCache.canExpireCache (LRUCache.groom c) = false.
Proof.
  intros H. unfold LRUCache.groom.
  destruct (Nat.ltb_spec (2 * LRUCache.highWaterMark c) (LRUCache.getCount c));
    [apply expire_done | lia].
Qed.

(** *** Keys *)

Lemma find_hasKey_snoc k v (es : list (string * V)) :
  existsb (LRUCache.hasKey k) es = false ->
  find (LRUCache.hasKey k) (es ++ [(k, v)]) = Some (k, v).
Proof.
  induction es as [|e es IH]; simpl; intros H.
  - unfold LRUCache.hasKey; simpl. rewrite String.eqb_refl. reflexivity.
  - apply orb_false_iff in H as [He Hes]. rewrite He. auto.
Qed.

End CacheFacts.

(** C3.  For a cache of either kind (the tile cache of [requestImage] and
    the feature cache of [getTileFeatures] are both filled through
    [setAndGroom]): [set] only adds the new entry as the newest one and
    evicts nothing; the grooming step that follows evicts exactly when the
    count exceeds twice the high-water mark, it then removes the oldest
    entries until the count is the high-water mark (the loop ends because
    [canExpireCache] answers no), and otherwise leaves the cache as [set]
    left it. *)
Theorem set_then_groom_hysteresis :
  forall (V : Type) (c : LRUCache.t V) (k : string) (v : V),
    let inserted := LRUCache.set k v c in
    let hwm := LRUCache.highWaterMark c in
    LRUCache.entries inserted = LRUCache.entries c ++ [(k, v)]
    /\ LRUCache.getCount inserted = S (LRUCache.getCount c)
    /\ LRUCache.highWaterMark (LRUCache.setAndGroom k v c) = hwm
    /\ LRUCache.entries (LRUCache.setAndGroom k v c)
       = (if 2 * hwm <? LRUCache.getCount inserted
          then drop (LRUCache.getCount inserted - hwm) (LRUCache.entries inserted)
          else LRUCache.entries inserted)
    /\ LRUCache.getCount (LRUCache.setAndGroom k v c)
       = (if 2 * hwm <? LRUCache.getCount inserted
          then hwm
          else LRUCache.getCount inserted)
    /\ (if 2 * hwm <? LRUCache.getCount inserted
        then LRUCache.canExpireCache (LRUCache.setAndGroom k v c) = false
        else LRUCache.setAndGroom k v c = inserted).
Proof.
  intros V c k v inserted hwm. unfold LRUCache.setAndGroom.
  fold inserted.
  assert (Hh : LRUCache.highWaterMark inserted = hwm) by reflexivity.
  split; [reflexivity|].
  split; [apply getCount_set|].
  split; [rewrite groom_hwm; exact Hh|].
  split; [rewrite groom_entries, Hh; reflexivity|].
  split.
  - unfold LRUCache.getCount at 1. rewrite groom_entries, Hh.
    destruct (Nat.ltb_spec (2 * hwm) (LRUCache.getCount inserted)) as [Hlt|Hge];
      [|reflexivity].
    rewrite length_drop. unfold LRUCache.getCount in *. lia.
  - destruct (Nat.ltb_spec (2 * hwm) (LRUCache.getCount inserted)) as [Hlt|Hge].
    + apply groom_done. rewrite Hh. exact Hlt.
    + unfold LRUCache.groom. rewrite Hh.
      destruct (Nat.ltb_spec (2 * hwm) (LRUCache.getCount inserted)); [lia|].
      reflexivity.
Qed.

(* ================================================================== *)
(** * Facts about scaling and rasterizing *)
(* ================================================================== *)

(** A write to the newest array of the store leaves the rest alone. *)
Lemma store_newest (h : heap) (a : jsarray) (i : nat) (v : float) :
  Js.store (length h) i v (h ++ [a]) = h ++ [Js.setItem i v a].
Proof.
  unfold Js.store. rewrite alter_app_r_alt by lia.
  replace (length h - length h) with 0 by lia. reflexivity.
Qed.

Lemma load_older (h : heap) (a : jsarray) (l i : nat) :
  l < length h -> Js.load (h ++ [a]) l i = Js.load h l i.
Proof.
  intros Hl. unfold Js.load, Js.arrayAt. rewrite lookup_app_l by exact Hl.
  reflexivity.
Qed.

(** The scaling loop writes to the clone only. *)
Lemma scaleLoop_newest (n i src : nat) (sx sy : float) (h : heap) (a : jsarray) :
  exists a', Raster.scaleLoop n i src (length h) sx sy (h ++ [a]) = h ++ [a'].
Proof.
  revert i a; induction n as [|n IH]; intros i a; simpl.
  - exists a. reflexivity.
  - rewrite store_newest, store_newest. apply IH.
Qed.

Lemma cloneAndScaleGeometry_extends (f : RenderFeature) (sx sy : float) (h : heap) :
  h `prefix_of` snd (Raster.cloneAndScaleGeometry_ f sx sy h).
Proof.
  unfold Raster.cloneAndScaleGeometry_, Js.alloc.
  destruct (getFlatCoordinates f) as [src|]; simpl; [|reflexivity].
  destruct (scaleLoop_newest (Js.steps 0 (length (Js.arrayAt h src))) 0 src sx sy h
              (replicate (length (Js.arrayAt h src)) None)) as [a' Ha'].
  rewrite Ha'. eexists. reflexivity.
Qed.

Lemma drawFeatures_extends (features : list RenderFeature) (styleFn : StyleFunction)
  (resolution sx sy : float) (painted : list (Style * Geometry)) (h : heap) :
  h `prefix_of` snd (Raster.drawFeatures features styleFn resolution sx sy painted h).
Proof.
  revert painted h; induction features as [|f rest IH]; intros painted h; simpl.
  - reflexivity.
  - pose proof (cloneAndScaleGeometry_extends f sx sy h) as Hf.
    destruct (Raster.cloneAndScaleGeometry_ f sx sy h) as [[g|] h1]; simpl in Hf;
      (etransitivity; [exact Hf | apply IH]).
Qed.

Lemma rasterizeFeatures_extends (tw th : jsnum) (features : list RenderFeature)
  (styleFn : StyleFunction) (resolution : float) (h : heap) :
  h `prefix_of` snd (Raster.rasterizeFeatures tw th features styleFn resolution h).
Proof.
  unfold Raster.rasterizeFeatures.
  pose proof (drawFeatures_extends features styleFn resolution
                (Js.div tw Raster.MVT_EXTENT) (Js.div th Raster.MVT_EXTENT) [] h) as H.
  destruct (Raster.drawFeatures _ _ _ _ _ _ _) as [painted h']. exact H.
Qed.

Lemma prefix_lookup (h h' : heap) (l : nat) :
  h `prefix_of` h' -> is_Some (h !! l) -> h' !! l = h !! l.
Proof.
  intros [fresh ->] [a Ha]. rewrite Ha. apply lookup_app_l_Some. exact Ha.
Qed.

(** *** The clone as a function of the decoded buffer *)

Lemma steps_SS (n : nat) : Js.steps 0 (S (S n)) = S (Js.steps 0 n).
Proof.
  unfold Js.steps. rewrite !Nat.sub_0_r.
  replace (S (S n) + 1) with (n + 1 + 1 * 2) by lia.
  rewrite Nat.div_add by lia. lia.
Qed.

Lemma setItem_first_hole (done : jsarray) (n : nat) (v : float) :
  Js.setItem (length done) v (done ++ replicate (S n) None)
  = (done ++ [Some v]) ++ replicate n None.
Proof.
  unfold Js.setItem. rewrite length_app, length_replicate.
  destruct (Nat.ltb_spec (length done) (length done + S n)); [|lia].
  rewrite insert_app_r_alt by lia.
  replace (length done - length done) with 0 by lia. simpl.
  rewrite <- app_assoc. reflexivity.
Qed.

Lemma setItem_at_end (done : jsarray) (v : float) :
  Js.setItem (length done) v done = done ++ [Some v].
Proof.
  unfold Js.setItem. destruct (Nat.ltb_spec (length done) (length done)); [lia|].
  replace (length done - length done) with 0 by lia. reflexivity.
Qed.

Lemma item_after (pre rest : jsarray) :
  Js.item (pre ++ rest) (length pre)
  = match rest with a :: _ => a | [] => None end.
Proof.
  unfold Js.item. rewrite lookup_app_r by lia.
  replace (length pre - length pre) with 0 by lia.
  destruct rest; reflexivity.
Qed.

Lemma scaleLoop_scaleArray (sx sy : float) (h : heap) (src : nat) (a : jsarray) :
  h !! src = Some a ->
  forall (n i : nat) (flat : jsarray),
    Raster.scaleLoop n i src (length h) sx sy (h ++ [flat])
    = h ++ [scaleArray n i a sx sy flat].
Proof.
  intros Hsrc.
  assert (Hlt : src < length h) by (apply lookup_lt_Some in Hsrc; exact Hsrc).
  assert (Hload : forall flat i, Js.load (h ++ [flat]) src i = Js.item a i).
  { intros flat i. rewrite load_older by exact Hlt.
    unfold Js.load, Js.arrayAt. rewrite Hsrc. reflexivity. }
  induction n as [|n IH]; intros i flat; [reflexivity|].
  cbn [Raster.scaleLoop scaleArray].
  rewrite Hload, store_newest, Hload, store_newest. apply IH.
Qed.

(** The loop, run on a fresh array of holes, fills it with [scaledCopy]. *)
Lemma scaleArray_scaledCopy (sx sy : float) :
  forall (fuel : nat) (rest pre done : jsarray),
    length rest <= fuel ->
    length done = length pre ->
    scaleArray (Js.steps 0 (length rest)) (length pre)
      (pre ++ rest) sx sy (done ++ replicate (length rest) None)
    = done ++ scaledCopy rest sx sy.
Proof.
  induction fuel as [|fuel IH]; intros rest pre done Hfuel Hlen.
  - destruct rest; simpl in *; [reflexivity | lia].
  - destruct rest as [|a [|b rest]].
    + reflexivity.
    + change (Js.steps 0 (length [a])) with 1. cbn [scaleArray length replicate].
      rewrite item_after. rewrite <- Hlen.
      rewrite (setItem_first_hole done 0). cbn [replicate]. rewrite app_nil_r.
      unfold Js.item at 1.
      rewrite lookup_ge_None_2 by (rewrite length_app; simpl; lia).
      replace (length done + 1) with (length (done ++ [Some (Js.mul a sx)]))
        by (rewrite length_app; reflexivity).
      rewrite setItem_at_end, <- app_assoc. reflexivity.
    + cbn [length]. rewrite steps_SS. cbn [scaleArray replicate].
      rewrite item_after. rewrite <- Hlen.
      rewrite (setItem_first_hole done (S (length rest))).
      assert (E1 : length done + 1 = length (pre ++ [a]))
        by (rewrite length_app; simpl; lia).
      assert (E2 : length (pre ++ [a]) = length (done ++ [Some (Js.mul a sx)]))
        by (rewrite !length_app; simpl; lia).
      assert (E3 : length done + 2 = length (pre ++ [a; b]))
        by (rewrite !length_app; simpl; lia).
      rewrite E1, E3.
      replace (pre ++ a :: b :: rest) with ((pre ++ [a]) ++ b :: rest)
        by (rewrite <- app_assoc; reflexivity).
      rewrite item_after, E2, setItem_first_hole.
      replace ((pre ++ [a]) ++ b :: rest) with ((pre ++ [a; b]) ++ rest)
        by (rewrite <- !app_assoc; reflexivity).
      rewrite (IH rest (pre ++ [a; b])
                 ((done ++ [Some (Js.mul a sx)]) ++ [Some (Js.mul b sy)])).
      * rewrite <- !app_assoc. reflexivity.
      * simpl in Hfuel. lia.
      * rewrite !length_app. simpl. lia.
Qed.

(** [cloneAndScaleGeometry_] as a function of the buffer it reads: the
    clone is a new array holding [scaledCopy] of the buffer, and the
    geometry is built from the clone. *)
Lemma cloneAndScaleGeometry_scaledCopy (f : RenderFeature) (sx sy : float) (h : heap) :
  Raster.cloneAndScaleGeometry_ f sx sy h
  = match getFlatCoordinates f with
    | None => (None, h)
    | Some src =>
        let flat := scaledCopy (Js.arrayAt h src) sx sy in
        (Some (Raster.buildGeometry f flat), h ++ [flat])
    end.
Proof.
  unfold Raster.cloneAndScaleGeometry_, Js.alloc.
  destruct (getFlatCoordinates f) as [src|]; [|reflexivity].
  cbv zeta.
  assert (Hat : forall a, Js.arrayAt (h ++ [a]) (length h) = a).
  { intros a. unfold Js.arrayAt. rewrite lookup_app_r by lia.
    replace (length h - length h) with 0 by lia. reflexivity. }
  destruct (h !! src) as [a|] eqn:Hsrc.
  - assert (Ha : Js.arrayAt h src = a) by (unfold Js.arrayAt; rewrite Hsrc; reflexivity).
    rewrite Ha, (scaleLoop_scaleArray sx sy h src a Hsrc).
    pose proof (scaleArray_scaledCopy sx sy (length a) a [] [] (le_n _) eq_refl) as E.
    cbn [length app] in E. rewrite E, Hat. reflexivity.
  - assert (Ha : Js.arrayAt h src = []) by (unfold Js.arrayAt; rewrite Hsrc; reflexivity).
    rewrite Ha. cbn. rewrite Hat. reflexivity.
Qed.

Lemma scaledCopy_item (sx sy : float) :
  forall (k : nat) (a : jsarray),
    2 * k < length a ->
    Js.item (scaledCopy a sx sy) (2 * k) = Some (Js.mul (Js.item a (2 * k)) sx)
    /\ Js.item (scaledCopy a sx sy) (2 * k + 1)
       = Some (Js.mul (Js.item a (2 * k + 1)) sy).
Proof.
  induction k as [|k IH]; intros a Hk.
  - destruct a as [|x [|y rest]]; simpl in Hk; [lia| |]; split; reflexivity.
  - destruct a as [|x [|y rest]]; simpl in Hk; [lia|lia|].
    replace (2 * S k) with (S (S (2 * k))) by lia.
    replace (S (S (2 * k)) + 1) with (S (S (2 * k + 1))) by lia.
    cbn [scaledCopy]. unfold Js.item in *. cbn [lookup list_lookup].
    apply IH. lia.
Qed.

(* ================================================================== *)
(** * Facts about the bridge *)
(* ================================================================== *)

Section CacheLookups.

Context {V : Type}.
Implicit Types (c : LRUCache.t V) (k : string) (v : V).

Lemma find_existsb k (es : list (string * V)) :
  existsb (LRUCache.hasKey k) es = false <-> find (LRUCache.hasKey k) es = None.
Proof.
  induction es as [|e es IH]; simpl; [tauto|].
  destruct (LRUCache.hasKey k e); simpl; [split; discriminate | exact IH].
Qed.

Lemma lookupCache_miss k c :
  LRUCache.containsKey k c = false -> lookupCache k c = (None, c).
Proof. intros H. unfold lookupCache. rewrite H. reflexivity. Qed.

Lemma find_hasKey_key k (es : list (string * V)) e :
  find (LRUCache.hasKey k) es = Some e -> LRUCache.hasKey k e = true.
Proof. intros H. apply find_some in H. tauto. Qed.

Lemma find_after_filter k (es : list (string * V)) e :
  LRUCache.hasKey k e = true ->
  find (LRUCache.hasKey k)
    (List.filter (fun e' => negb (LRUCache.hasKey k e')) es ++ [e]) = Some e.
Proof.
  intros He. induction es as [|e' es IH]; simpl.
  - rewrite He. reflexivity.
  - destruct (LRUCache.hasKey k e') eqn:He'; simpl; [exact IH|].
    rewrite He'. exact IH.
Qed.

(** A hit returns the stored value and keeps it stored. *)
Lemma lookupCache_hit k v c :
  peek k c = Some v ->
  exists c', lookupCache k c = (Some v, c')
             /\ peek k c' = Some v
             /\ LRUCache.highWaterMark c' = LRUCache.highWaterMark c.
Proof.
  unfold peek. intros H.
  destruct (find (LRUCache.hasKey k) (LRUCache.entries c)) as [e|] eqn:Hfind;
    [|discriminate].
  simpl in H. injection H as <-.
  unfold lookupCache, LRUCache.containsKey, LRUCache.get.
  destruct (existsb (LRUCache.hasKey k) (LRUCache.entries c)) eqn:Hex.
  - rewrite Hfind. eexists. split; [reflexivity|]. split; [|reflexivity].
    simpl. rewrite find_after_filter by (eapply find_hasKey_key; eassumption).
    reflexivity.
  - apply find_existsb in Hex. congruence.
Qed.

Lemma existsb_drop (f : string * V -> bool) (n : nat) (es : list (string * V)) :
  existsb f es = false -> existsb f (drop n es) = false.
Proof.
  revert n; induction es as [|e es IH]; intros [|n] H; simpl in *; auto.
  apply orb_false_iff in H as [_ H]. auto.
Qed.

(** With room for at least one entry, the entry just inserted survives
    the grooming step. *)
Lemma peek_setAndGroom k v c :
  LRUCache.containsKey k c = false ->
  0 < LRUCache.highWaterMark c ->
  peek k (LRUCache.setAndGroom k v c) = Some v.
Proof.
  intros Hmiss Hhwm. unfold peek, LRUCache.setAndGroom.
  rewrite groom_entries. unfold LRUCache.containsKey in Hmiss.
  cbn [LRUCache.set LRUCache.highWaterMark LRUCache.entries].
  unfold LRUCache.getCount.
  change (LRUCache.entries (LRUCache.set k v c))
    with (LRUCache.entries c ++ [(k, v)]).
  rewrite length_app. cbn [length].
  destruct (_ <? _).
  - rewrite drop_app_le by lia.
    rewrite find_hasKey_snoc by (apply existsb_drop; exact Hmiss). reflexivity.
  - rewrite find_hasKey_snoc by exact Hmiss. reflexivity.
Qed.

End CacheLookups.

Section PromiseFacts.

(** *** Requests, fetches and reactions, one at a time *)

Lemma sameSettings_refl b : sameSettings b b.
Proof. unfold sameSettings. tauto. Qed.

Lemma getTileFeatures_sameSettings url z x y b :
  sameSettings b (snd (getTileFeatures url z x y b)).
Proof.
  unfold getTileFeatures, newPromise, logEvent.
  repeat break_match; cbn; unfold sameSettings; cbn; tauto.
Qed.

Lemma promiseForUrl_sameSettings url x y z_ b :
  sameSettings b (snd (promiseForUrl url x y z_ b)).
Proof.
  unfold promiseForUrl.
  destruct url as [u|]; [|apply sameSettings_refl].
  destruct (truthy (Some u)); [|apply sameSettings_refl].
  pose proof (getTileFeatures_sameSettings u z_ x y b) as H.
  destruct (getTileFeatures u z_ x y b) as [features b1]. cbn in *.
  unfold sameSettings in *; cbn; tauto.
Qed.

(** A request only appends to the promise store. *)
Lemma getTileFeatures_promises url z x y b :
  exists new, promises (snd (getTileFeatures url z x y b)) = promises b ++ new.
Proof.
  unfold getTileFeatures, newPromise, logEvent.
  repeat break_match; cbn; eexists; try reflexivity.
  symmetry; apply app_nil_r.
Qed.

Lemma promiseForUrl_promises url x y z_ b :
  exists new, promises (snd (promiseForUrl url x y z_ b)) = promises b ++ new.
Proof.
  unfold promiseForUrl.
  destruct url as [u|]; [|exists []; symmetry; apply app_nil_r].
  destruct (truthy (Some u)); [|exists []; symmetry; apply app_nil_r].
  destruct (getTileFeatures_promises u z_ x y b) as [new H].
  destruct (getTileFeatures u z_ x y b) as [features b1]. cbn in *.
  rewrite H, <- app_assoc. eexists. reflexivity.
Qed.

Lemma promiseForUrl_memory url x y z_ b :
  memory (snd (promiseForUrl url x y z_ b)) = memory b.
Proof.
  unfold promiseForUrl, getTileFeatures, newPromise, logEvent.
  repeat break_match; cbn in *;
    repeat match goal with
           | H : (_, _) = (_, _) |- _ => injection H as <- <-
           end; reflexivity.
Qed.

Lemma getTileFeatures_miss url z x y b :
  LRUCache.containsKey (getCacheKey_ z x y) (featureCache b) = false ->
  let headers := match olcs_authHeaders (source_ b) with
                 | Some headersFn => headersFn z x y
                 | None => []
                 end in
  let b' := snd (getTileFeatures url z x y b) in
  fst (getTileFeatures url z x y b) = length (promises b)
  /\ sameSettings b b'
  /\ promises b' = promises b ++ [ {| origin := FromFetch url headers; status := Pending |} ]
  /\ trace b' = trace b ++ [FeatureCacheLookup (getCacheKey_ z x y); Fetch url headers]
  /\ tileCache b' = tileCache b
  /\ featureCache b'
     = LRUCache.setAndGroom (getCacheKey_ z x y) (length (promises b)) (featureCache b).
Proof.
  intros Hmiss. unfold getTileFeatures.
  change (featureCache (logEvent _ b)) with (featureCache b).
  rewrite (lookupCache_miss _ _ Hmiss). cbn.
  unfold sameSettings; cbn. rewrite <- app_assoc. cbn. tauto.
Qed.

Lemma fetchSettles_sameSettings p outcome b :
  sameSettings b (fetchSettles p outcome b).
Proof.
  unfold fetchSettles.
  repeat break_match; try apply sameSettings_refl;
    unfold sameSettings; cbn; tauto.
Qed.

Lemma rasterizeFeatures_frame features styleFn resolution b :
  let b' := snd (rasterizeFeatures features styleFn resolution b) in
  sameSettings b b'
  /\ trace b' = trace b
  /\ promises b' = promises b
  /\ tileCache b' = tileCache b
  /\ featureCache b' = featureCache b
  /\ memory b `prefix_of` memory b'.
Proof.
  unfold rasterizeFeatures.
  pose proof (rasterizeFeatures_extends (tileWidth b) (tileHeight b) features
                styleFn resolution (memory b)) as H.
  destruct (Raster.rasterizeFeatures _ _ _ _ _ _) as [canvas h]. cbn in *.
  unfold sameSettings; cbn. tauto.
Qed.

Lemma reaction_sameSettings p b : sameSettings b (reaction p b).
Proof.
  unfold reaction.
  repeat lazymatch goal with
         | |- context [rasterizeFeatures ?f ?s ?r ?b] =>
             let H := fresh "Hr" in
             pose proof (rasterizeFeatures_frame f s r b) as H;
             destruct (rasterizeFeatures f s r b)
         | |- _ => break_match
         end;
    try apply sameSettings_refl; cbn in *;
    unfold sameSettings in *; cbn; tauto.
Qed.

(** Settling writes nothing to the trace and to the caches: no event is
    raised, no fetch issued, no entry added or removed. *)
Lemma fetchSettles_quiet p outcome b :
  trace (fetchSettles p outcome b) = trace b
  /\ tileCache (fetchSettles p outcome b) = tileCache b
  /\ featureCache (fetchSettles p outcome b) = featureCache b.
Proof.
  unfold fetchSettles. repeat break_match; cbn; tauto.
Qed.

Lemma reaction_quiet p b :
  trace (reaction p b) = trace b
  /\ tileCache (reaction p b) = tileCache b
  /\ featureCache (reaction p b) = featureCache b.
Proof.
  unfold reaction.
  repeat lazymatch goal with
         | |- context [rasterizeFeatures ?f ?s ?r ?b] =>
             let H := fresh "Hr" in
             pose proof (rasterizeFeatures_frame f s r b) as H;
             destruct (rasterizeFeatures f s r b)
         | |- _ => break_match
         end;
    cbn in *; tauto.
Qed.

Lemma readFeatures_extends ds (h : heap) :
  h `prefix_of` snd (readFeatures ds h).
Proof.
  revert h; induction ds as [|d ds IH]; intros h; cbn; [reflexivity|].
  destruct (decodedCoordinates d) as [cs|]; cbn.
  - specialize (IH (h ++ [List.map Some cs])).
    destruct (readFeatures ds (h ++ [List.map Some cs])) as [fs h2]. cbn in *.
    etransitivity; [|exact IH]. eexists; reflexivity.
  - specialize (IH h). destruct (readFeatures ds h) as [fs h2]. exact IH.
Qed.

(** *** The older copy: scaling inside the decode step *)

Lemma store_fresh (h k : heap) (l i : nat) (v : float) :
  length h <= l -> Js.store l i v (h ++ k) = h ++ Js.store (l - length h) i v k.
Proof. intros Hl. unfold Js.store. apply alter_app_r_alt. exact Hl. Qed.

Lemma scaleInPlace_extends (h : heap) (buffer : nat) (sf tw : float) (legacy : bool) :
  length h <= buffer ->
  forall (n i : nat) (flip : bool) (k : heap),
    exists k', Legacy.scaleInPlace n i buffer sf tw legacy flip (h ++ k) = h ++ k'.
Proof.
  intros Hl. induction n as [|n IH]; intros i flip k; cbn [Legacy.scaleInPlace].
  - exists k. reflexivity.
  - rewrite store_fresh by exact Hl. destruct flip.
    + rewrite store_fresh by exact Hl. apply IH.
    + apply IH.
Qed.

(** The decoder hands out buffers at addresses that were not in use. *)
Lemma readFeatures_fresh ds :
  forall h : heap,
    Forall (fun f => forall l, getFlatCoordinates f = Some l -> length h <= l)
      (fst (readFeatures ds h)).
Proof.
  induction ds as [|d ds IH]; intros h; cbn [readFeatures]; [constructor|].
  destruct (decodedCoordinates d) as [cs|]; cbn [Js.alloc].
  - specialize (IH (h ++ [List.map Some cs])).
    destruct (readFeatures ds (h ++ [List.map Some cs])) as [fs h2].
    cbn [fst] in *. constructor.
    + cbn. intros l [= <-]. lia.
    + eapply Forall_impl; [exact IH|]. cbn. intros f Hf l Hl.
      specialize (Hf l Hl). rewrite length_app in Hf. cbn in Hf. lia.
  - specialize (IH h). destruct (readFeatures ds h) as [fs h2].
    cbn [fst] in *. constructor; [cbn; discriminate | exact IH].
Qed.

Lemma scaleFeatures_extends (h : heap) (sf tw : float) (legacy : bool) fs :
  Forall (fun f => forall l, getFlatCoordinates f = Some l -> length h <= l) fs ->
  forall k : heap,
    exists k', snd (Legacy.scaleFeatures fs sf tw legacy (h ++ k)) = h ++ k'.
Proof.
  induction 1 as [|f fs Hf _ IH]; intros k; cbn [Legacy.scaleFeatures].
  - exists k. reflexivity.
  - destruct (getFlatCoordinates f) as [buffer|] eqn:Hb; [|exists k; reflexivity].
    destruct (scaleInPlace_extends h buffer sf tw legacy (Hf _ eq_refl)
                (length (Js.arrayAt (h ++ k) buffer)) 0 false k) as [k1 ->].
    apply IH.
Qed.

(** The in-place scaling of the older copy touches only the buffers its
    own decoding has just made. *)
Lemma legacy_readFeaturesFromBuffer_extends ds (tw : float) (legacy : bool) (h : heap) :
  h `prefix_of` snd (Legacy.readFeaturesFromBuffer ds tw legacy h).
Proof.
  unfold Legacy.readFeaturesFromBuffer.
  pose proof (readFeatures_fresh ds h) as Hfresh.
  pose proof (readFeatures_extends ds h) as [k Hk].
  destruct (readFeatures ds h) as [fs h1]. cbn [fst snd] in *. subst h1.
  destruct (scaleFeatures_extends h (tw / 4096)%float tw legacy fs Hfresh k)
    as [k' Hk'].
  destruct (Legacy.scaleFeatures fs (tw / 4096)%float tw legacy (h ++ k))
    as [[u|e] h2]; cbn [snd] in *; subst h2; eexists; reflexivity.
Qed.

Lemma fetchSettles_memory p outcome b :
  memory b `prefix_of` memory (fetchSettles p outcome b).
Proof.
  unfold fetchSettles.
  repeat lazymatch goal with
         | |- context [readFeatures ?ds ?h] =>
             let H := fresh "Hr" in
             pose proof (readFeatures_extends ds h) as H;
             destruct (readFeatures ds h)
         | |- _ => break_match
         end; cbn in *; try reflexivity; assumption.
Qed.

Lemma reaction_memory p b : memory b `prefix_of` memory (reaction p b).
Proof.
  unfold reaction.
  repeat lazymatch goal with
         | |- context [rasterizeFeatures ?f ?s ?r ?b] =>
             let H := fresh "Hr" in
             pose proof (rasterizeFeatures_frame f s r b) as H;
             destruct (rasterizeFeatures f s r b)
         | |- _ => break_match
         end; cbn in *; try reflexivity; tauto.
Qed.

Lemma settle_other p s b pr :
  promises b !! p = Some pr -> origin pr <> FromResolve ->
  placeholderResolved b -> placeholderResolved (settle p s b).
Proof.
  unfold placeholderResolved. cbn. intros Hp Ho He.
  rewrite list_lookup_alter_ne; [exact He|].
  intros ->. rewrite Hp in He. injection He as ->. apply Ho. reflexivity.
Qed.

End PromiseFacts.

Section RequestFacts.

Variable olUseNewCoordinates : bool.

Local Abbreviation requestImage' := (requestImage olUseNewCoordinates).
Local Abbreviation requestImages' := (requestImages olUseNewCoordinates).

Lemma requestImage_sameSettings x y z request b :
  sameSettings b (snd (requestImage' x y z request b)).
Proof.
  unfold requestImage.
  repeat lazymatch goal with
         | |- context [promiseForUrl ?u ?x ?y ?z ?b] =>
             let H := fresh "Hf" in
             pose proof (promiseForUrl_sameSettings u x y z b) as H;
             destruct (promiseForUrl u x y z b)
         | |- _ => break_match
         end;
    cbn in *; unfold sameSettings in *; cbn in *; intuition congruence.
Qed.

Lemma requestImage_promises x y z request b :
  exists new, promises (snd (requestImage' x y z request b)) = promises b ++ new.
Proof.
  unfold requestImage.
  repeat lazymatch goal with
         | |- context [promiseForUrl ?u ?x ?y ?z ?b] =>
             let H := fresh "Hf" in
             destruct (promiseForUrl_promises u x y z b) as [? H];
             destruct (promiseForUrl u x y z b)
         | |- _ => break_match
         end;
    cbn in *;
    try (exists []; symmetry; apply app_nil_r);
    eexists; eassumption.
Qed.

Lemma requestImage_memory x y z request b :
  memory (snd (requestImage' x y z request b)) = memory b.
Proof.
  unfold requestImage.
  repeat lazymatch goal with
         | |- context [promiseForUrl ?u ?x ?y ?z ?b] =>
             let H := fresh "Hf" in
             pose proof (promiseForUrl_memory u x y z b) as H;
             destruct (promiseForUrl u x y z b)
         | |- _ => break_match
         end;
    cbn in *; congruence.
Qed.

(** A hit in the tile cache: the stored promise is returned; nothing but
    the lookup happens. *)
Lemma requestImage_hit x y z request b p :
  olWmsDelegate_ b = None ->
  (minimumLevel_ b <= z)%Z ->
  peek (getCacheKey_ (sourceLevel b z) x y) (tileCache b) = Some p ->
  exists cache,
    requestImage' x y z request b
    = (ImgPromise p,
       setTileCache cache
         (logEvent (TileCacheLookup (getCacheKey_ (sourceLevel b z) x y)) b))
    /\ peek (getCacheKey_ (sourceLevel b z) x y) cache = Some p
    /\ LRUCache.highWaterMark cache = LRUCache.highWaterMark (tileCache b).
Proof.
  intros Hd Hz Hp. unfold requestImage. rewrite Hd.
  destruct (Z.ltb_spec z (minimumLevel_ b)) as [?|_]; [lia|].
  cbv zeta. fold (sourceLevel b z).
  change (tileCache (logEvent _ b)) with (tileCache b).
  destruct (lookupCache_hit _ _ _ Hp) as (cache & -> & Hpeek & Hhwm).
  exists cache. auto.
Qed.

(** A miss in both caches with a URL to fetch: one fetch is issued, the
    feature promise and the tile promise are created, and both caches get
    their entry. *)
Lemma requestImage_miss x y z request b tileUrlFunction projection url u :
  olWmsDelegate_ b = None ->
  (minimumLevel_ b <= z)%Z ->
  getTileUrlFunction (source_ b) = Some tileUrlFunction ->
  projection_ b = Some projection ->
  tileUrlFunction (sourceLevel b z, x, sourceRow olUseNewCoordinates y) projection = Normal url ->
  match proxy b with Some getURL => getURL url | None => url end = Some u ->
  u <> ""%string ->
  LRUCache.containsKey (getCacheKey_ (sourceLevel b z) x y) (tileCache b) = false ->
  LRUCache.containsKey (getCacheKey_ (sourceLevel b z) x y) (featureCache b) = false ->
  let key := getCacheKey_ (sourceLevel b z) x y in
  let headers := match olcs_authHeaders (source_ b) with
                 | Some headersFn => headersFn (sourceLevel b z) x y
                 | None => []
                 end in
  let features := length (promises b) in
  let b' := snd (requestImage' x y z request b) in
  fst (requestImage' x y z request b) = ImgPromise (S features)
  /\ sameSettings b b'
  /\ promises b'
     = promises b ++ [ {| origin := FromFetch u headers; status := Pending |};
                       {| origin := FromThen features x y (sourceLevel b z);
                          status := Pending |} ]
  /\ trace b'
     = trace b ++ [TileCacheLookup key; UrlBuilt (sourceLevel b z) x (sourceRow olUseNewCoordinates y);
                   FeatureCacheLookup key; Fetch u headers]
  /\ tileCache b' = LRUCache.setAndGroom key (S features) (tileCache b)
  /\ featureCache b' = LRUCache.setAndGroom key features (featureCache b).
Proof.
  intros Hd Hz Hfn Hproj Hurl Hproxy Hu Htile Hfeat.
  unfold requestImage. rewrite Hd.
  destruct (Z.ltb_spec z (minimumLevel_ b)) as [?|_]; [lia|].
  cbv zeta. fold (sourceLevel b z). fold (sourceRow olUseNewCoordinates y).
  change (tileCache (logEvent _ b)) with (tileCache b).
  rewrite (lookupCache_miss _ _ Htile).
  change (source_ (logEvent _ b)) with (source_ b).
  change (projection_ (logEvent _ b)) with (projection_ b).
  rewrite Hfn, Hproj, Hurl.
  change (proxy (logEvent _ (logEvent _ b))) with (proxy b).
  rewrite Hproxy. unfold promiseForUrl.
  assert (Ht : truthy (Some u) = true).
  { cbn. destruct (String.eqb_spec u ""); [contradiction|reflexivity]. }
  rewrite Ht.
  match goal with
  | |- context [getTileFeatures u ?z ?x ?y ?b0] =>
      pose proof (getTileFeatures_miss u z x y b0) as H;
      cbn [featureCache logEvent setTrace] in H; specialize (H Hfeat);
      destruct (getTileFeatures u z x y b0) as [pf b1]
  end.
  cbn in H. destruct H as (-> & Hs & Hp & Ht' & Htc & Hfc).
  cbn. unfold sameSettings in *; cbn in *.
  rewrite Hp, Ht', Htc, Hfc, !length_app. cbn.
  rewrite <- !app_assoc. cbn.
  replace (length (promises b) + 1) with (S (length (promises b))) by lia.
  intuition congruence.
Qed.

(** A miss for which the source's URL function throws: the [catch] logs
    the error on [errorEvent], once, and [requestImage] returns
    [undefined].  This is the only place where [errorEvent] is raised. *)
Lemma requestImage_throw x y z request b tileUrlFunction projection e :
  olWmsDelegate_ b = None ->
  (minimumLevel_ b <= z)%Z ->
  getTileUrlFunction (source_ b) = Some tileUrlFunction ->
  projection_ b = Some projection ->
  tileUrlFunction (sourceLevel b z, x, sourceRow olUseNewCoordinates y) projection
  = Throw e ->
  LRUCache.containsKey (getCacheKey_ (sourceLevel b z) x y) (tileCache b) = false ->
  requestImage' x y z request b
  = (ImgUndefined,
     setTrace
       (trace b ++ [TileCacheLookup (getCacheKey_ (sourceLevel b z) x y);
                    UrlBuilt (sourceLevel b z) x (sourceRow olUseNewCoordinates y);
                    ErrorRaised "could not render pbf to tile" e]) b).
Proof.
  intros Hd Hz Hfn Hproj Hurl Htile.
  unfold requestImage. rewrite Hd.
  destruct (Z.ltb_spec z (minimumLevel_ b)) as [?|_]; [lia|].
  cbv zeta. fold (sourceLevel b z). fold (sourceRow olUseNewCoordinates y).
  change (tileCache (logEvent _ b)) with (tileCache b).
  rewrite (lookupCache_miss _ _ Htile).
  change (source_ (logEvent _ b)) with (source_ b).
  change (projection_ (logEvent _ b)) with (projection_ b).
  rewrite Hfn, Hproj, Hurl. unfold logEvent. cbn.
  rewrite <- !app_assoc. reflexivity.
Qed.

(** A miss for which the source produces no URL: the placeholder promise
    is returned, and cached under the tile's key; nothing is fetched. *)
Lemma requestImage_no_url x y z request b tileUrlFunction projection url :
  olWmsDelegate_ b = None ->
  (minimumLevel_ b <= z)%Z ->
  getTileUrlFunction (source_ b) = Some tileUrlFunction ->
  projection_ b = Some projection ->
  tileUrlFunction (sourceLevel b z, x, sourceRow olUseNewCoordinates y) projection
  = Normal url ->
  truthy (match proxy b with Some getURL => getURL url | None => url end) = false ->
  LRUCache.containsKey (getCacheKey_ (sourceLevel b z) x y) (tileCache b) = false ->
  fst (requestImage' x y z request b) = ImgPromise (emptyCanvasPromise_ b)
  /\ List.filter isFetch (trace (snd (requestImage' x y z request b)))
     = List.filter isFetch (trace b)
  /\ promises (snd (requestImage' x y z request b)) = promises b.
Proof.
  intros Hd Hz Hfn Hproj Hurl Hfalsy Htile.
  unfold requestImage. rewrite Hd.
  destruct (Z.ltb_spec z (minimumLevel_ b)) as [?|_]; [lia|].
  cbv zeta. fold (sourceLevel b z). fold (sourceRow olUseNewCoordinates y).
  change (tileCache (logEvent _ b)) with (tileCache b).
  rewrite (lookupCache_miss _ _ Htile).
  change (source_ (logEvent _ b)) with (source_ b).
  change (projection_ (logEvent _ b)) with (projection_ b).
  rewrite Hfn, Hproj, Hurl.
  change (proxy (logEvent _ (logEvent _ b))) with (proxy b).
  unfold promiseForUrl.
  destruct (match proxy b with Some getURL => getURL url | None => url end)
    as [u|] eqn:Hu.
  - rewrite Hfalsy. cbn. rewrite !List.filter_app. cbn. rewrite !app_nil_r. tauto.
  - cbn. rewrite !List.filter_app. cbn. rewrite !app_nil_r. tauto.
Qed.

(** Repeated requests that hit the tile cache all return the stored
    promise, and nothing else happens. *)
Lemma requestImages_hits x y z request p :
  forall (n : nat) (b : Bridge),
    olWmsDelegate_ b = None ->
    (minimumLevel_ b <= z)%Z ->
    peek (getCacheKey_ (sourceLevel b z) x y) (tileCache b) = Some p ->
    let b' := snd (requestImages' n x y z request b) in
    fst (requestImages' n x y z request b) = repeat (ImgPromise p) n
    /\ promises b' = promises b
    /\ fetches b' = fetches b
    /\ featureCache b' = featureCache b.
Proof.
  induction n as [|n IH]; intros b Hd Hz Hp; cbn [requestImages].
  - cbn. tauto.
  - destruct (requestImage_hit x y z request b p Hd Hz Hp)
      as (cache & -> & Hpeek & _).
    match goal with
    | |- context [requestImages _ n x y z request ?b1] =>
        specialize (IH b1 Hd Hz Hpeek);
        destruct (requestImages olUseNewCoordinates n x y z request b1) as [rs b2]
    end.
    cbn [fst snd] in *. destruct IH as (-> & -> & -> & ->).
    repeat split. unfold fetches. cbn.
    rewrite List.filter_app, length_app. cbn. lia.
Qed.


(** [requestImage] below the minimum level, on the vector path. *)
Lemma requestImage_below_minimum x y z request b :
  olWmsDelegate_ b = None ->
  (z < minimumLevel_ b)%Z ->
  requestImage' x y z request b = (ImgPromise (emptyCanvasPromise_ b), b).
Proof.
  intros Hd Hz. unfold requestImage. rewrite Hd.
  destruct (Z.ltb_spec z (minimumLevel_ b)); [reflexivity | lia].
Qed.

(** [requestImage] never reads [ready_]. *)
Lemma requestImage_ignores_ready x y z request r b :
  requestImage' x y z request (setReady r b)
  = (fst (requestImage' x y z request b),
     setReady r (snd (requestImage' x y z request b))).
Proof.
  unfold requestImage, promiseForUrl, getTileFeatures, newPromise, logEvent.
  cbn [olWmsDelegate_ shouldRequestNextLevel minimumLevel_ emptyCanvasPromise_
       tileCache featureCache source_ projection_ proxy promises trace setReady
       setTrace setPromises setFeatureCache setTileCache].
  repeat break_match; cbn in *; try congruence;
    repeat match goal with
           | H : (_, _) = (_, _) |- _ => injection H as <- <-
           end; try reflexivity.
Qed.

Lemma requestImage_delegated x y z request b d :
  olWmsDelegate_ b = Some d ->
  requestImage' x y z request b = (ImgDelegated (d_requestImage d x y z request), b).
Proof. intros Hd. unfold requestImage. rewrite Hd. reflexivity. Qed.

(** C10.  The delegate test comes first: below the configured minimum
    level a request is forwarded when a delegate is active, and answered
    with the placeholder only when none is. *)
Theorem delegate_precedes_minimum_level :
  forall (b : Bridge) (x y z : Z) (request : option Request),
    (z < minimumLevel_ b)%Z ->
    requestImage' x y z request b
    = match olWmsDelegate_ b with
      | Some d => (ImgDelegated (d_requestImage d x y z request), b)
      | None => (ImgPromise (emptyCanvasPromise_ b), b)
      end.
Proof.
  intros b x y z request Hz. unfold requestImage.
  destruct (olWmsDelegate_ b); [reflexivity|].
  destruct (Z.ltb_spec z (minimumLevel_ b)); [reflexivity | lia].
Qed.

End RequestFacts.

Section LifeFacts.

Variable olUseNewCoordinates : bool.
Variable parseUrl : string -> option (string * Params).
Variable createXYZ : list float -> TileGrid.
Variable proj3857 : Projection.
Variable newOLImageryProvider : TileWMS -> option Projection -> OLImageryProvider.

Local Abbreviation requestImage' := (requestImage olUseNewCoordinates).
Local Abbreviation handleSourceChanged' :=
  (handleSourceChanged_ parseUrl createXYZ proj3857 newOLImageryProvider).
Local Abbreviation step' :=
  (step olUseNewCoordinates parseUrl createXYZ proj3857 newOLImageryProvider).
Local Abbreviation run' :=
  (run olUseNewCoordinates parseUrl createXYZ proj3857 newOLImageryProvider).

Lemma deriveTileWmsFromVector_frame b :
  let b' := snd (deriveTileWmsFromVector_ parseUrl createXYZ proj3857 b) in
  sameSettings b b'
  /\ memory b' = memory b
  /\ promises b' = promises b
  /\ tileCache b' = tileCache b
  /\ featureCache b' = featureCache b
  /\ List.filter isFetch (trace b') = List.filter isFetch (trace b)
  /\ List.filter isErrorRaised (trace b') = List.filter isErrorRaised (trace b).
Proof.
  unfold deriveTileWmsFromVector_, logEvent.
  repeat break_match; cbn; unfold sameSettings; cbn;
    rewrite ?List.filter_app; cbn; rewrite ?app_nil_r; tauto.
Qed.

Lemma handleSourceChanged_ready b :
  ready_ b = true -> handleSourceChanged' b = (Normal tt, b).
Proof. intros H. unfold handleSourceChanged_. rewrite H. reflexivity. Qed.

(** A source change writes neither buffers nor promises nor caches, and
    neither fetches nor raises an error. *)
Lemma handleSourceChanged_frame b :
  let b' := snd (handleSourceChanged' b) in
  memory b' = memory b
  /\ promises b' = promises b
  /\ tileCache b' = tileCache b
  /\ featureCache b' = featureCache b
  /\ emptyCanvasPromise_ b' = emptyCanvasPromise_ b
  /\ minimumLevel_ b' = minimumLevel_ b
  /\ List.filter isFetch (trace b') = List.filter isFetch (trace b)
  /\ List.filter isErrorRaised (trace b') = List.filter isErrorRaised (trace b).
Proof.
  unfold handleSourceChanged_, tryInitOlWmsDelegate_.
  repeat lazymatch goal with
         | |- context [deriveTileWmsFromVector_ ?a ?c ?d ?b] =>
             let H := fresh "Hd" in
             pose proof (deriveTileWmsFromVector_frame b) as H;
             destruct (deriveTileWmsFromVector_ a c d b)
         | |- _ => break_match
         end;
    cbn in *; unfold sameSettings in *; cbn in *; intuition congruence.
Qed.

Lemma step_memory o b : memory b `prefix_of` memory (step' o b).
Proof.
  destruct o as [s|x y z request|p outcome|p]; cbn [step].
  - pose proof (handleSourceChanged_frame (setSource s b)) as H. cbn in H.
    destruct H as [-> _]. reflexivity.
  - rewrite requestImage_memory. reflexivity.
  - apply fetchSettles_memory.
  - apply reaction_memory.
Qed.

Lemma run_cons o ops b : run' (o :: ops) b = run' ops (step' o b).
Proof. reflexivity. Qed.

Lemma run_memory ops b : memory b `prefix_of` memory (run' ops b).
Proof.
  revert b; induction ops as [|o ops IH]; intros b; [reflexivity|].
  rewrite run_cons. etransitivity; [apply step_memory | apply IH].
Qed.

(** Once ready, a bridge stays ready, and neither the next-level flag nor
    the delegate is written again. *)
Lemma step_ready o b :
  ready_ b = true ->
  ready_ (step' o b) = true
  /\ shouldRequestNextLevel (step' o b) = shouldRequestNextLevel b
  /\ olWmsDelegate_ (step' o b) = olWmsDelegate_ b.
Proof.
  intros Hready. destruct o as [s|x y z request|p outcome|p]; cbn [step].
  - rewrite handleSourceChanged_ready by exact Hready. cbn. tauto.
  - pose proof (requestImage_sameSettings olUseNewCoordinates x y z request b) as H.
    unfold sameSettings in H. intuition congruence.
  - pose proof (fetchSettles_sameSettings p outcome b) as H.
    unfold sameSettings in H. intuition congruence.
  - pose proof (reaction_sameSettings p b) as H.
    unfold sameSettings in H. intuition congruence.
Qed.

Lemma run_ready ops b :
  ready_ b = true ->
  ready_ (run' ops b) = true
  /\ shouldRequestNextLevel (run' ops b) = shouldRequestNextLevel b
  /\ olWmsDelegate_ (run' ops b) = olWmsDelegate_ b.
Proof.
  revert b; induction ops as [|o ops IH]; intros b Hready; [cbn; tauto|].
  rewrite run_cons.
  destruct (step_ready o b Hready) as (H1 & H2 & H3).
  destruct (IH _ H1) as (H4 & H5 & H6). intuition congruence.
Qed.

Lemma step_placeholderResolved o b :
  placeholderResolved b -> placeholderResolved (step' o b).
Proof.
  intros He. destruct o as [s|x y z request|p outcome|p]; cbn [step].
  - pose proof (handleSourceChanged_frame (setSource s b)) as H. cbn in H.
    unfold placeholderResolved in *. destruct H as (_ & -> & _ & _ & -> & _).
    exact He.
  - pose proof (requestImage_sameSettings olUseNewCoordinates x y z request b) as Hs.
    destruct (requestImage_promises olUseNewCoordinates x y z request b) as [new Hn].
    unfold placeholderResolved in *. unfold sameSettings in Hs.
    destruct Hs as (_ & _ & _ & _ & -> & _). rewrite Hn.
    apply lookup_app_l_Some. exact He.
  - unfold fetchSettles.
    repeat break_match; try exact He.
    + eapply settle_other; [eassumption | congruence | exact He].
    + eapply settle_other; [eassumption | congruence | exact He].
  - unfold reaction.
    repeat lazymatch goal with
           | |- context [rasterizeFeatures ?f ?s ?r ?b] =>
               let H := fresh "Hr" in
               pose proof (rasterizeFeatures_frame f s r b) as H;
               destruct (rasterizeFeatures f s r b)
           | |- _ => break_match
           end; try exact He;
      try solve [eapply settle_other; [eassumption | congruence | exact He]].
    cbn in Hr. destruct Hr as (Hs & _ & Hp & _).
    eapply settle_other.
    + rewrite Hp. eassumption.
    + congruence.
    + unfold placeholderResolved in *. unfold sameSettings in Hs.
      destruct Hs as (_ & _ & _ & _ & -> & _). rewrite Hp. exact He.
Qed.

Lemma run_placeholderResolved ops b :
  placeholderResolved b -> placeholderResolved (run' ops b).
Proof.
  revert b; induction ops as [|o ops IH]; intros b He; [exact He|].
  rewrite run_cons. apply IH, step_placeholderResolved, He.
Qed.

Lemma construct_placeholderResolved source fallback options world mem :
  placeholderResolved
    (snd (construct parseUrl createXYZ proj3857 newOLImageryProvider
            source fallback options world mem)).
Proof.
  unfold construct.
  match goal with
  | |- placeholderResolved (snd (handleSourceChanged_ _ _ _ _ ?b0)) =>
      pose proof (handleSourceChanged_frame b0) as H; cbn in H;
      destruct H as (_ & Hp & _ & _ & He & _)
  end.
  unfold placeholderResolved. rewrite Hp, He.
  rewrite lookup_app_r by lia.
  replace (length world - length world) with 0 by lia. reflexivity.
Qed.

Lemma handleSourceChanged_unsupported b :
  ready_ b = false ->
  reportsUnsupported (source_ b) ->
  snd (handleSourceChanged' b)
  = if String.eqb (getState (source_ b)) "ready"
    then setProjection (getSourceProjection (source_ b)) b
    else b.
Proof.
  intros Hready (p & Hp & Hcode). unfold handleSourceChanged_.
  rewrite Hready, Hp. cbn [negb andb].
  destruct (String.eqb (getState (source_ b)) "ready"); [|reflexivity].
  unfold supportedCode in Hcode. apply orb_false_iff in Hcode as [-> ->].
  reflexivity.
Qed.

Lemma step_unready o b :
  ready_ b = false -> olWmsDelegate_ b = None -> staysUnsupported o ->
  ready_ (step' o b) = false
  /\ olWmsDelegate_ (step' o b) = None
  /\ shouldRequestNextLevel (step' o b) = shouldRequestNextLevel b.
Proof.
  intros Hready Hd Ho. destruct o as [s|x y z request|p outcome|p]; cbn [step].
  - rewrite handleSourceChanged_unsupported by (cbn; assumption).
    destruct (String.eqb _ _); cbn; tauto.
  - pose proof (requestImage_sameSettings olUseNewCoordinates x y z request b) as H.
    unfold sameSettings in H. intuition congruence.
  - pose proof (fetchSettles_sameSettings p outcome b) as H.
    unfold sameSettings in H. intuition congruence.
  - pose proof (reaction_sameSettings p b) as H.
    unfold sameSettings in H. intuition congruence.
Qed.

Lemma run_unready ops b :
  ready_ b = false -> olWmsDelegate_ b = None -> Forall staysUnsupported ops ->
  ready_ (run' ops b) = false
  /\ olWmsDelegate_ (run' ops b) = None
  /\ shouldRequestNextLevel (run' ops b) = shouldRequestNextLevel b.
Proof.
  revert b; induction ops as [|o ops IH]; intros b Hready Hd Hops; [cbn; tauto|].
  rewrite run_cons. inversion Hops as [|? ? Ho Hops']; subst.
  destruct (step_unready o b Hready Hd Ho) as (H1 & H2 & H3).
  destruct (IH _ H1 H2 Hops') as (H4 & H5 & H6). intuition congruence.
Qed.

(** C2, as the code has it.  While the source reports a projection that is
    neither EPSG:4326 nor EPSG:3857, [ready] stays false whatever happens to
    the bridge, no delegate is activated and the next-level flag keeps its
    value.  [requestImage] does not consult [ready]: it answers an unready
    bridge as it would a ready one, so the placeholder is returned, with
    nothing else done, for every level below the minimum level. *)
Theorem unsupported_projection_stays_unready :
  forall (b : Bridge) (ops : list Op),
    ready_ b = false ->
    olWmsDelegate_ b = None ->
    Forall staysUnsupported ops ->
    let b' := run' ops b in
    ready_ b' = false
    /\ olWmsDelegate_ b' = None
    /\ shouldRequestNextLevel b' = shouldRequestNextLevel b
    /\ (forall x y z request,
          (z < minimumLevel_ b')%Z ->
          requestImage' x y z request b' = (ImgPromise (emptyCanvasPromise_ b'), b'))
    /\ (forall x y z request,
          fst (requestImage' x y z request b')
          = fst (requestImage' x y z request (setReady true b'))).
Proof.
  intros b ops Hready Hd Hops b'.
  destruct (run_unready ops b Hready Hd Hops) as (H1 & H2 & H3).
  repeat split; try assumption.
  - intros x y z request Hz. apply requestImage_below_minimum; assumption.
  - intros x y z request. rewrite requestImage_ignores_ready. reflexivity.
Qed.

(** C4, as the code has it.  On any bridge a life has led to, as long as no
    delegate is active, a request for a level strictly below the configured
    minimum level returns the placeholder promise, which is already
    resolved with the empty canvas, and leaves the bridge as it was: no
    cache lookup, no URL construction, no fetch. *)
Theorem below_minimum_level_placeholder :
  forall (source : Source) (fallback : option Projection)
         (options : MVTWMSOptions) (world : list Promise) (mem : heap)
         (ops : list Op) (x y z : Z) (request : option Request),
    let b := run' ops
               (snd (construct parseUrl createXYZ proj3857 newOLImageryProvider
                       source fallback options world mem)) in
    olWmsDelegate_ b = None ->
    (z < minimumLevel_ b)%Z ->
    requestImage' x y z request b = (ImgPromise (emptyCanvasPromise_ b), b)
    /\ statusOf b (emptyCanvasPromise_ b)
       = Some (Fulfilled (VCanvas createEmptyCanvas)).
Proof.
  intros source fallback options world mem ops x y z request b Hd Hz.
  split.
  - apply requestImage_below_minimum; assumption.
  - pose proof (run_placeholderResolved ops _
                  (construct_placeholderResolved source fallback options world mem))
      as H.
    fold b in H. unfold placeholderResolved in H. unfold statusOf.
    rewrite H. reflexivity.
Qed.

Lemma step_delegated o b d :
  olWmsDelegate_ b = Some d -> ready_ b = true ->
  olWmsDelegate_ (step' o b) = Some d
  /\ ready_ (step' o b) = true
  /\ trace (step' o b) = trace b
  /\ tileCache (step' o b) = tileCache b
  /\ featureCache (step' o b) = featureCache b.
Proof.
  intros Hd Hready. destruct o as [s|x y z request|p outcome|p]; cbn [step].
  - rewrite handleSourceChanged_ready by exact Hready. cbn. tauto.
  - rewrite (requestImage_delegated olUseNewCoordinates x y z request b d Hd). cbn. tauto.
  - pose proof (fetchSettles_sameSettings p outcome b) as H.
    pose proof (fetchSettles_quiet p outcome b) as Hq.
    unfold sameSettings in H. intuition congruence.
  - pose proof (reaction_sameSettings p b) as H.
    pose proof (reaction_quiet p b) as Hq.
    unfold sameSettings in H. intuition congruence.
Qed.

Lemma run_delegated ops b d :
  olWmsDelegate_ b = Some d -> ready_ b = true ->
  olWmsDelegate_ (run' ops b) = Some d
  /\ ready_ (run' ops b) = true
  /\ trace (run' ops b) = trace b
  /\ tileCache (run' ops b) = tileCache b
  /\ featureCache (run' ops b) = featureCache b.
Proof.
  revert b; induction ops as [|o ops IH]; intros b Hd Hready; [cbn; tauto|].
  rewrite run_cons.
  destruct (step_delegated o b d Hd Hready) as (H1 & H2 & H3 & H4 & H5).
  destruct (IH _ H1 H2) as (H6 & H7 & H8 & H9 & H10). intuition congruence.
Qed.

(** The delegate is activated when the bridge becomes ready on a source
    that names a format and has a companion description. *)
Lemma delegate_activation b p fmt companion :
  ready_ b = false ->
  getState (source_ b) = "ready"%string ->
  getSourceProjection (source_ b) = Some p ->
  supportedCode (getCode p) = true ->
  olcs_wmsFormat (source_ b) = Some fmt ->
  fmt <> ""%string ->
  olcs_wmsCompanion (source_ b) = Some companion ->
  exists overrides,
    olWmsDelegate_ (snd (handleSourceChanged' b))
    = Some (newOLImageryProvider (cloneTileWms_ companion overrides) (fallbackProj_ b))
    /\ ready_ (snd (handleSourceChanged' b)) = true.
Proof.
  intros Hready Hstate Hp Hcode Hfmt Hne Hcomp.
  unfold handleSourceChanged_. rewrite Hready, Hstate, Hp. cbn [negb andb String.eqb].
  replace (String.eqb "ready" "ready") with true by reflexivity. cbn [andb].
  assert (Ht : truthy (Some fmt) = true).
  { cbn. destruct (String.eqb_spec fmt ""); [contradiction|reflexivity]. }
  assert (Hinit : forall b0, source_ b0 = source_ b -> fallbackProj_ b0 = fallbackProj_ b ->
            exists overrides,
              olWmsDelegate_ (tryInitOlWmsDelegate_ parseUrl createXYZ proj3857
                                newOLImageryProvider b0)
              = Some (newOLImageryProvider (cloneTileWms_ companion overrides)
                        (fallbackProj_ b))
              /\ ready_ (tryInitOlWmsDelegate_ parseUrl createXYZ proj3857
                           newOLImageryProvider b0) = true).
  { intros b0 Hs Hf. unfold tryInitOlWmsDelegate_.
    rewrite Hs, Hfmt, Ht, Hcomp, Hf. eexists. split; reflexivity. }
  unfold supportedCode in Hcode.
  destruct (String.eqb (getCode p) "EPSG:4326") eqn:H4326.
  - cbn [snd]. destruct (rectangle_ _); apply Hinit; reflexivity.
  - cbn in Hcode. rewrite Hcode.
    cbn [snd]. destruct (rectangle_ _); apply Hinit; reflexivity.
Qed.


Lemma tryInitOlWmsDelegate_flag b :
  let b' := tryInitOlWmsDelegate_ parseUrl createXYZ proj3857 newOLImageryProvider b in
  shouldRequestNextLevel b' = shouldRequestNextLevel b
  /\ (ready_ b = true -> ready_ b' = true).
Proof.
  unfold tryInitOlWmsDelegate_.
  repeat lazymatch goal with
         | |- context [deriveTileWmsFromVector_ ?a ?c ?d ?b] =>
             let H := fresh "Hd" in
             pose proof (deriveTileWmsFromVector_frame b) as H;
             destruct (deriveTileWmsFromVector_ a c d b)
         | |- _ => break_match
         end;
    cbn in *; unfold sameSettings in *; cbn in *; intuition congruence.
Qed.

(** C8.  At the transition to ready: with EPSG:4326 the next-level flag
    becomes true exactly when the level-zero grid counts one tile on both
    axes; with EPSG:3857 it becomes false whatever the counts.  From then
    on nothing that happens to the bridge changes the flag. *)
Theorem next_level_flag_set_once :
  forall (b : Bridge) (s : Source) (p : Projection),
    ready_ b = false ->
    getState s = "ready"%string ->
    match getSourceProjection s with
    | Some q => Some q
    | None => fallbackProj_ b
    end = Some p ->
    let b' := step' (SourceChanges s) b in
    (getCode p = "EPSG:4326"%string ->
     ready_ b' = true
     /\ shouldRequestNextLevel b'
        = ((fst (levelZeroTiles s p) =? 1)%Z && (snd (levelZeroTiles s p) =? 1)%Z))
    /\ (getCode p = "EPSG:3857"%string ->
        ready_ b' = true /\ shouldRequestNextLevel b' = false)
    /\ (ready_ b' = true ->
        forall ops, shouldRequestNextLevel (run' ops b') = shouldRequestNextLevel b').
Proof.
  intros b s p Hready Hstate Hp b'.
  split; [|split].
  - intros Hcode. subst b'. cbn [step]. unfold handleSourceChanged_.
    cbn [ready_ source_ fallbackProj_ setSource]. rewrite Hready, Hstate, Hp, Hcode.
    cbn [negb andb String.eqb Ascii.eqb Bool.eqb snd].
    match goal with
    | |- context [tryInitOlWmsDelegate_ _ _ _ _ ?b0] =>
        destruct (tryInitOlWmsDelegate_flag b0) as [Hf Hr]
    end.
    destruct (rectangle_ _); cbn in *; rewrite Hf; auto.
  - intros Hcode. subst b'. cbn [step]. unfold handleSourceChanged_.
    cbn [ready_ source_ fallbackProj_ setSource]. rewrite Hready, Hstate, Hp, Hcode.
    cbn [negb andb String.eqb Ascii.eqb Bool.eqb snd].
    match goal with
    | |- context [tryInitOlWmsDelegate_ _ _ _ _ ?b0] =>
        destruct (tryInitOlWmsDelegate_flag b0) as [Hf Hr]
    end.
    destruct (rectangle_ _); cbn in *; rewrite Hf; auto.
  - intros Hr ops. apply (run_ready ops b' Hr).
Qed.

(** C5, on the code.  When the fetch behind a tile fails (the request
    fails, the response is not ok, or the body cannot be read or decoded),
    the feature promise and the tile promise reject with that failure; no
    further fetch is issued; and nothing is raised on [errorEvent]: the
    [catch] of [requestImage] is gone by the time the promise rejects. *)
Theorem failed_fetch_rejects_unreported :
  forall (b : Bridge) (features tile : pid) (url : string) (headers : Params)
         (x y z_ : Z) (why : Failure),
    promises b !! features
    = Some {| origin := FromFetch url headers; status := Pending |} ->
    promises b !! tile
    = Some {| origin := FromThen features x y z_; status := Pending |} ->
    let b' := run' [FetchSettles features (Failed why); Reaction tile] b in
    statusOf b' features = Some (Rejected why)
    /\ statusOf b' tile = Some (Rejected why)
    /\ fetches b' = fetches b
    /\ errorsRaised b' = errorsRaised b.
Proof.
  intros b features tile url headers x y z_ why Hf Ht b'.
  assert (Hne : features <> tile) by (intros ->; rewrite Hf in Ht; discriminate).
  subst b'. cbn [run fold_left step].
  unfold fetchSettles. rewrite Hf. cbn [origin status].
  set (b1 := settle features (Rejected why) b).
  assert (Hf1 : promises b1 !! features
                = Some {| origin := FromFetch url headers; status := Rejected why |}).
  { subst b1. cbn. rewrite list_lookup_alter_eq, Hf. reflexivity. }
  assert (Ht1 : promises b1 !! tile
                = Some {| origin := FromThen features x y z_; status := Pending |}).
  { subst b1. cbn. rewrite list_lookup_alter_ne by exact Hne. exact Ht. }
  unfold reaction. rewrite Ht1. cbn [origin status].
  assert (Hs : statusOf b1 features = Some (Rejected why))
    by (unfold statusOf; rewrite Hf1; reflexivity).
  rewrite Hs. unfold statusOf. cbn [promises settle setPromises].
  fold (promises b1).
  rewrite list_lookup_alter_ne by congruence.
  rewrite list_lookup_alter_eq, Hf1, Ht1.
  repeat split.
Qed.

(** C6.  [rasterizeFeatures] only adds arrays to the store: every array
    that was there before the call, and so the buffer of every feature it
    was given, has the same contents after it.  The same holds for
    everything else that can happen to a bridge: a decoded buffer is not
    written after the decoder has handed it out.  (The older copy of the
    provider scaled in place, but inside its decode step and only in the
    buffers that step had just made.) *)
Theorem decoded_buffers_never_mutated :
  forall (tw th : jsnum) (features : list RenderFeature) (styleFn : StyleFunction)
         (resolution : float) (h : heap),
    let h' := snd (Raster.rasterizeFeatures tw th features styleFn resolution h) in
    h `prefix_of` h'
    /\ (forall f src,
          In f features -> getFlatCoordinates f = Some src ->
          is_Some (h !! src) -> h' !! src = h !! src)
    /\ (forall b,
          memory b
          `prefix_of` memory (snd (rasterizeFeatures features styleFn resolution b)))
    /\ (forall b ops src,
          is_Some (memory b !! src) ->
          memory (run' ops b) !! src = memory b !! src)
    /\ (forall decoded tileWidth legacy,
          h `prefix_of`
            snd (Legacy.readFeaturesFromBuffer decoded tileWidth legacy h)).
Proof.
  intros tw th features styleFn resolution h h'.
  assert (Hpre : h `prefix_of` h') by apply rasterizeFeatures_extends.
  split; [exact Hpre|]. split; [|split; [|split]].
  - intros f src _ _ Hsome. apply prefix_lookup; assumption.
  - intros b. apply (rasterizeFeatures_frame features styleFn resolution b).
  - intros b ops src Hsome. apply prefix_lookup; [apply run_memory | exact Hsome].
  - intros decoded tileWidth legacy. apply legacy_readFeaturesFromBuffer_extends.
Qed.

End LifeFacts.


(* ================================================================== *)
(** * The theorems at concrete bridges *)
(* ================================================================== *)


(** A bridge on a source in EPSG:9999 stays unready through further
    changes and requests, and answers level 1, below its minimum level 2,
    with the placeholder. *)
Lemma unsupported_projection_stays_unready_witness :
  let b' :=
    exampleRun
      [SourceChanges (exampleSource "EPSG:9999" None);
       RequestImage 0 0 5 None;
       SourceChanges (exampleSource "EPSG:2056" None)]
      (exampleBridge "EPSG:9999" None (Some 2%Z)) in
  ready_ b' = false
  /\ olWmsDelegate_ b' = None
  /\ requestImage true 0 0 1 None b' = (ImgPromise (emptyCanvasPromise_ b'), b').
Proof.
  destruct (unsupported_projection_stays_unready true exampleParseUrl exampleGrid
              (exampleProjection "EPSG:3857") exampleDelegate
              (exampleBridge "EPSG:9999" None (Some 2%Z))
              [SourceChanges (exampleSource "EPSG:9999" None);
               RequestImage 0 0 5 None;
               SourceChanges (exampleSource "EPSG:2056" None)])
    as (H1 & H2 & _ & H4 & _).
  - reflexivity.
  - reflexivity.
  - repeat constructor; eexists; split; reflexivity.
  - cbv zeta. split; [exact H1|]. split; [exact H2|].
    apply H4. vm_compute. reflexivity.
Defined.

(** The second half of C2 fails: a bridge on a source in EPSG:9999 is not
    ready, yet a request at level 3 builds a URL, fetches it and returns a
    pending promise that is not the placeholder. *)
Lemma unsupported_projection_still_fetches :
  let b := exampleBridge "EPSG:9999" None None in
  reportsUnsupported (source_ b)
  /\ ready_ b = false
  /\ fst (requestImage true 1 2 3 None b) = ImgPromise 2
  /\ fst (requestImage true 1 2 3 None b) <> ImgPromise (emptyCanvasPromise_ b)
  /\ statusOf (snd (requestImage true 1 2 3 None b)) 2 = Some Pending
  /\ List.filter isFetch (trace (snd (requestImage true 1 2 3 None b)))
     = [Fetch "http://tiles/3/1/2" []].
Proof.
  cbv zeta. split; [eexists; split; reflexivity|].
  split; [reflexivity|]. split; [reflexivity|].
  split; [vm_compute; discriminate|]. split; reflexivity.
Qed.

(** Below the minimum level 5 of a web-mercator bridge that has already
    served another tile. *)
Lemma below_minimum_level_placeholder_witness :
  let b := exampleRun [RequestImage 1 2 7 None]
             (exampleBridge "EPSG:3857" None (Some 5%Z)) in
  requestImage true 0 0 3 None b = (ImgPromise (emptyCanvasPromise_ b), b)
  /\ statusOf b (emptyCanvasPromise_ b)
     = Some (Fulfilled (VCanvas createEmptyCanvas)).
Proof.
  refine (below_minimum_level_placeholder true exampleParseUrl exampleGrid
            (exampleProjection "EPSG:3857") exampleDelegate
            (exampleSource "EPSG:3857" None) None (exampleOptions (Some 5%Z))
            [] [] [RequestImage 1 2 7 None] 0 0 3 None _ _).
  - reflexivity.
  - vm_compute. reflexivity.
Defined.

(** C4 as stated fails when a delegate is active: level 3 is below the
    configured minimum level 5, and the request is answered by the
    delegate, not with the placeholder. *)
Lemma below_minimum_level_forwarded_to_delegate :
  let b := exampleBridge "EPSG:3857" (Some "image/png"%string) (Some 5%Z) in
  (3 < minimumLevel_ b)%Z
  /\ fst (requestImage true 0 0 3 None b) = ImgDelegated (Some "wms"%string)
  /\ fst (requestImage true 0 0 3 None b) <> ImgPromise (emptyCanvasPromise_ b).
Proof.
  cbv zeta. split; [vm_compute; reflexivity|].
  split; [reflexivity | vm_compute; discriminate].
Qed.

(** The same bridge, through the theorem. *)
Lemma delegate_precedes_minimum_level_witness :
  let b := exampleBridge "EPSG:3857" (Some "image/png"%string) (Some 5%Z) in
  requestImage true 0 0 3 None b = (ImgDelegated (Some "wms"%string), b).
Proof.
  refine (delegate_precedes_minimum_level true
            (exampleBridge "EPSG:3857" (Some "image/png"%string) (Some 5%Z))
            0 0 3 None _).
  vm_compute. reflexivity.
Defined.


(** A loading bridge whose source becomes ready in EPSG:4326 with no tile
    grid: one tile on both axes, so the flag is set, and it stays set. *)
Lemma next_level_flag_set_once_witness :
  let b' := exampleStep (SourceChanges (exampleSource "EPSG:4326" None))
              exampleLoadingBridge in
  shouldRequestNextLevel b' = true
  /\ shouldRequestNextLevel
       (exampleRun [RequestImage 0 0 0 None;
                    SourceChanges (exampleSource "EPSG:3857" None)] b')
     = true.
Proof.
  destruct (next_level_flag_set_once true exampleParseUrl exampleGrid
              (exampleProjection "EPSG:3857") exampleDelegate
              exampleLoadingBridge (exampleSource "EPSG:4326" None)
              (exampleProjection "EPSG:4326"))
    as (H4326 & _ & Hops).
  - reflexivity.
  - reflexivity.
  - reflexivity.
  - cbv zeta. destruct (H4326 eq_refl) as [Hr Hf].
    split; [exact Hf|]. rewrite (Hops Hr). exact Hf.
Defined.

(** The fetch of tile (1, 2) at level 3 fails on the network. *)
Lemma failed_fetch_rejects_unreported_witness :
  let b := snd (requestImage true 1 2 3 None (exampleBridge "EPSG:3857" None None)) in
  let b' := exampleRun [FetchSettles 1 (Failed NetworkError); Reaction 2] b in
  statusOf b' 2 = Some (Rejected NetworkError)
  /\ fetches b' = 1
  /\ errorsRaised b' = 0.
Proof.
  destruct (failed_fetch_rejects_unreported true exampleParseUrl exampleGrid
              (exampleProjection "EPSG:3857") exampleDelegate
              (snd (requestImage true 1 2 3 None (exampleBridge "EPSG:3857" None None)))
              1 2 "http://tiles/3/1/2"%string [] 1 2 3 NetworkError)
    as (_ & H2 & H3 & H4).
  - reflexivity.
  - reflexivity.
  - cbv zeta. split; [exact H2|]. split; [exact H3 | exact H4].
Defined.


(** What is painted for that line: the line from [[0, 0]] to
    [[256, 256]]. *)
Example exampleLine_rasterized :
  Raster.rasterizeFeatures (Some 256%float) (Some 256%float) [exampleLine]
    exampleStyle 1%float exampleHeap
  = ({| width := Some 256%float;
        height := Some 256%float;
        drawn := [({| strokeColor := "blue"; strokeWidth := 2 |},
                   LineString [(Some 0%float, Some 0%float);
                               (Some 256%float, Some 256%float)])] |},
     exampleHeap ++ [[Some 0%float; Some 0%float; Some 256%float; Some 256%float]]).
Proof. reflexivity. Qed.

(** With a high-water mark of 2: the fifth insertion is the first to pass
    twice the mark, and leaves the two newest entries. *)
Example exampleCache_hysteresis :
  let fill := fun c k => LRUCache.setAndGroom k 0 c in
  List.map fst
    (LRUCache.entries (fold_left fill ["a"; "b"; "c"; "d"]%string (LRUCache.create 2)))
  = ["a"; "b"; "c"; "d"]%string
  /\ List.map fst
       (LRUCache.entries
          (fold_left fill ["a"; "b"; "c"; "d"; "e"]%string (LRUCache.create 2)))
     = ["d"; "e"]%string.
Proof. split; reflexivity. Qed.

(* ================================================================== *)
(** * Further properties: cache keys *)
(* ================================================================== *)

Lemma string_of_uint_digits (d : Decimal.uint) :
  hasUnderscore (NilEmpty.string_of_uint d) = false.
Proof. induction d; cbn; auto. Qed.

Lemma numText_digits (z : Z) : hasUnderscore (numText z) = false.
Proof.
  unfold numText.
  destruct (Z.to_int z) as [d|d]; cbn;
    destruct d; cbn; auto using string_of_uint_digits.
Qed.

Lemma numText_inj (z z' : Z) : numText z = numText z' -> z = z'.
Proof.
  unfold numText. intros H.
  assert (Hn : forall n, NilZero.int_of_string (NilZero.string_of_int (Z.to_int n))
                         = Some (Z.to_int n)).
  { intros n. apply NilZero.isi; intros E;
      pose proof (DecimalZ.to_of (Z.to_int n)) as Hto;
      rewrite DecimalZ.of_to in Hto; rewrite E in Hto; discriminate. }
  apply DecimalZ.to_int_inj.
  pose proof (Hn z) as Hz. rewrite H, Hn in Hz. congruence.
Qed.

Lemma split_at_underscore (s1 s2 r1 r2 : string) :
  hasUnderscore s1 = false -> hasUnderscore s2 = false ->
  (s1 ++ String "_" r1 = s2 ++ String "_" r2)%string ->
  s1 = s2 /\ r1 = r2.
Proof.
  revert s2. induction s1 as [|c s1 IH]; intros [|c' s2]; cbn; intros H1 H2 E.
  - split; congruence.
  - injection E as <- _. discriminate.
  - injection E as -> _. discriminate.
  - apply orb_false_iff in H1 as [_ H1]. apply orb_false_iff in H2 as [_ H2].
    injection E as -> E. destruct (IH _ H1 H2 E). split; congruence.
Qed.

Lemma getCacheKey_inj (z x y z' x' y' : Z) :
  getCacheKey_ z x y = getCacheKey_ z' x' y' -> z = z' /\ x = x' /\ y = y'.
Proof.
  unfold getCacheKey_. cbn [String.append]. intros E.
  apply split_at_underscore in E as [Ez E]; auto using numText_digits.
  apply split_at_underscore in E as [Ex Ey]; auto using numText_digits.
  auto using numText_inj.
Qed.


(* ================================================================== *)
(** * Further properties: what a call does to a cache *)
(* ================================================================== *)

Section TouchedFacts.

Context {V : Type}.
Implicit Types (c : LRUCache.t V) (k : string) (v : V).

Lemma lookupCache_none k c c' :
  lookupCache k c = (None, c') -> LRUCache.containsKey k c = false.
Proof.
  unfold lookupCache, LRUCache.get, LRUCache.containsKey.
  destruct (existsb _ _) eqn:E; [|reflexivity].
  destruct (find _ _) eqn:F; [discriminate|].
  apply find_existsb in F. congruence.
Qed.

Lemma filter_hasKey_length k (es : list (string * V)) e :
  find (LRUCache.hasKey k) es = Some e ->
  S (length (List.filter (fun e' => negb (LRUCache.hasKey k e')) es)) <= length es.
Proof.
  induction es as [|a es IH]; cbn; [discriminate|].
  destruct (LRUCache.hasKey k a) eqn:E; cbn.
  - intros _.
    pose proof (List.filter_length_le (fun e' => negb (LRUCache.hasKey k e')) es).
    lia.
  - intros F. specialize (IH F). lia.
Qed.

Lemma touched_hwm c c' :
  touched c c' -> LRUCache.highWaterMark c' = LRUCache.highWaterMark c.
Proof.
  intros [|k v c2 H|k v H].
  - reflexivity.
  - unfold lookupCache, LRUCache.get in H.
    destruct (LRUCache.containsKey k c); [|discriminate].
    destruct (find _ _); inversion H; reflexivity.
  - unfold LRUCache.setAndGroom. rewrite groom_hwm. reflexivity.
Qed.

Lemma touched_withinBound c c' :
  touched c c' -> withinBound c -> withinBound c'.
Proof.
  unfold withinBound. intros T; pose proof (touched_hwm _ _ T) as ->.
  destruct T as [|k v c2 H|k v H]; intros B.
  - exact B.
  - unfold lookupCache, LRUCache.get in H.
    destruct (LRUCache.containsKey k c); [|discriminate].
    destruct (find _ _) eqn:F; inversion H; subst; clear H.
    unfold LRUCache.getCount in *. cbn [LRUCache.entries].
    rewrite length_app. cbn. pose proof (filter_hasKey_length _ _ _ F). lia.
  - unfold LRUCache.setAndGroom, LRUCache.getCount in *.
    rewrite groom_entries. unfold LRUCache.getCount.
    cbn [LRUCache.set LRUCache.entries LRUCache.highWaterMark].
    rewrite length_app. cbn [length].
    destruct (Nat.ltb_spec (2 * LRUCache.highWaterMark c)
                (length (LRUCache.entries c) + 1)).
    + rewrite length_drop, length_app. cbn. lia.
    + rewrite length_app. cbn. lia.
Qed.

Lemma containsKey_keys k c :
  LRUCache.containsKey k c = false -> ~ In k (keys c).
Proof.
  unfold LRUCache.containsKey, keys.
  induction (LRUCache.entries c) as [|a es IH]; cbn.
  - tauto.
  - unfold LRUCache.hasKey at 1. destruct (String.eqb_spec k (fst a)); cbn.
    + discriminate.
    + intros H [E|I]; [congruence|]. exact (IH H I).
Qed.

Lemma keys_unique_drop {A} (n : nat) (l : list A) :
  List.NoDup l -> List.NoDup (drop n l).
Proof.
  revert n. induction l as [|a l IH]; intros [|n] H; cbn; auto.
  inversion H; auto.
Qed.

Lemma keys_unique_snoc {A} (l : list A) (a : A) :
  List.NoDup l -> ~ In a l -> List.NoDup (l ++ [a]).
Proof.
  intros H N. apply List.NoDup_app; [exact H | repeat constructor; cbn; tauto |].
  intros x I [<-|[]]. exact (N I).
Qed.

Lemma keys_unique_filter k (es : list (string * V)) :
  List.NoDup (List.map fst es) ->
  List.NoDup (List.map fst (List.filter (fun e' => negb (LRUCache.hasKey k e')) es))
  /\ ~ In k (List.map fst (List.filter (fun e' => negb (LRUCache.hasKey k e')) es)).
Proof.
  induction es as [|a es IH]; cbn; intros H.
  - split; [constructor|tauto].
  - inversion H as [|? ? Hn Hd]; subst. destruct (IH Hd) as [IH1 IH2].
    destruct (LRUCache.hasKey k a) eqn:E; cbn.
    + split; assumption.
    + unfold LRUCache.hasKey in E. apply String.eqb_neq in E. split.
      * constructor; [|assumption]. intros I. apply Hn.
        apply in_map_iff in I as (e & <- & I). apply List.filter_In in I as [I _].
        apply in_map. exact I.
      * intros [E'|I]; [congruence|tauto].
Qed.

Lemma touched_keys c c' :
  touched c c' -> List.NoDup (keys c) -> List.NoDup (keys c').
Proof.
  unfold keys. intros [|k v c2 H|k v H] N.
  - exact N.
  - unfold lookupCache, LRUCache.get in H.
    destruct (LRUCache.containsKey k c); [|discriminate].
    destruct (find _ _) eqn:F; inversion H; subst; clear H.
    cbn [LRUCache.entries]. rewrite List.map_app. cbn.
    destruct (keys_unique_filter k _ N) as [N1 N2].
    apply keys_unique_snoc; [exact N1|].
    apply find_hasKey_key in F. unfold LRUCache.hasKey in F.
    apply String.eqb_eq in F. rewrite <- F. exact N2.
  - unfold LRUCache.setAndGroom. rewrite groom_entries.
    assert (N' : List.NoDup (List.map fst (LRUCache.entries (LRUCache.set k v c)))).
    { cbn. rewrite List.map_app. cbn. apply keys_unique_snoc; [exact N|].
      apply containsKey_keys. exact H. }
    destruct (_ <? _); [|exact N'].
    rewrite <- (List.skipn_map). apply keys_unique_drop. exact N'.
Qed.

Lemma containsKey_setAndGroom_other k k' v c :
  k' <> k ->
  LRUCache.containsKey k' c = false ->
  LRUCache.containsKey k' (LRUCache.setAndGroom k v c) = false.
Proof.
  intros Hne Hc. unfold LRUCache.containsKey, LRUCache.setAndGroom in *.
  rewrite groom_entries.
  assert (H : existsb (LRUCache.hasKey k') (LRUCache.entries (LRUCache.set k v c))
              = false).
  { cbn. rewrite existsb_app, Hc. cbn. unfold LRUCache.hasKey. cbn.
    apply String.eqb_neq in Hne. rewrite Hne. reflexivity. }
  destruct (_ <? _); [apply existsb_drop|]; exact H.
Qed.

End TouchedFacts.

(* ================================================================== *)
(** * Further properties: rasterizing *)
(* ================================================================== *)

Lemma arrayAt_app (h k : heap) (l : nat) :
  l < length h -> Js.arrayAt (h ++ k) l = Js.arrayAt h l.
Proof. intros H. unfold Js.arrayAt. rewrite lookup_app_l by exact H. reflexivity. Qed.

Lemma drawFeatures_closed (styleFn : StyleFunction) (resolution sx sy : float)
  (h : heap) :
  forall (features : list RenderFeature) (painted : list (Style * Geometry))
         (k : heap),
    allocatedIn h features ->
    Raster.drawFeatures features styleFn resolution sx sy painted (h ++ k)
    = (painted ++ flat_map (paintedFor styleFn resolution sx sy h) features,
       h ++ k ++ flat_map (clonesFor sx sy h) features).
Proof.
  induction features as [|f rest IH]; intros painted k Ha.
  - cbn. rewrite !app_nil_r. reflexivity.
  - inversion Ha as [|? ? Hf Hrest]; subst.
    cbn [Raster.drawFeatures flat_map]. rewrite cloneAndScaleGeometry_scaledCopy.
    assert (Ep : paintedFor styleFn resolution sx sy h f
                 = match getFlatCoordinates f with
                   | None => []
                   | Some src =>
                       List.map
                         (fun s => (s, Raster.buildGeometry f
                                         (scaledCopy (Js.arrayAt h src) sx sy)))
                         (stylesOf (styleFn f resolution))
                   end) by reflexivity.
    assert (Ec : clonesFor sx sy h f
                 = match getFlatCoordinates f with
                   | None => []
                   | Some src => [scaledCopy (Js.arrayAt h src) sx sy]
                   end) by reflexivity.
    rewrite Ep, Ec. clear Ep Ec.
    destruct (getFlatCoordinates f) as [src|] eqn:Hsrc.
    + cbv zeta. rewrite arrayAt_app by (apply Hf; reflexivity).
      rewrite <- app_assoc. rewrite IH by exact Hrest.
      fold (stylesOf (styleFn f resolution)).
      rewrite <- !app_assoc. reflexivity.
    + rewrite IH by exact Hrest. reflexivity.
Qed.

Lemma rasterizeFeatures_closed (tw th : jsnum) (features : list RenderFeature)
  (styleFn : StyleFunction) (resolution : float) (h : heap) :
  allocatedIn h features ->
  Raster.rasterizeFeatures tw th features styleFn resolution h
  = ({| width := tw;
        height := th;
        drawn :=
          flat_map
            (paintedFor styleFn resolution (Js.div tw Raster.MVT_EXTENT)
               (Js.div th Raster.MVT_EXTENT) h)
            features |},
     h ++ flat_map
            (clonesFor (Js.div tw Raster.MVT_EXTENT) (Js.div th Raster.MVT_EXTENT) h)
            features).
Proof.
  intros Ha. unfold Raster.rasterizeFeatures.
  pose proof (drawFeatures_closed styleFn resolution (Js.div tw Raster.MVT_EXTENT)
                (Js.div th Raster.MVT_EXTENT) h features [] [] Ha) as H.
  rewrite app_nil_r in H. rewrite H. reflexivity.
Qed.


Lemma scaledCopy_shape (sx sy : float) :
  forall (fuel : nat) (a : jsarray),
    length a <= fuel ->
    length (scaledCopy a sx sy) = 2 * Js.steps 0 (length a)
    /\ Forall is_Some (scaledCopy a sx sy)
    /\ (Nat.odd (length a) = true -> last (scaledCopy a sx sy) = Some (Some nan)).
Proof.
  induction fuel as [|fuel IH]; intros a Hlen.
  - destruct a; [|cbn in Hlen; lia]. cbn. repeat split; [constructor|discriminate].
  - destruct a as [|x [|y rest]].
    + cbn. repeat split; [constructor|discriminate].
    + cbn. repeat split; repeat constructor; eauto.
    + destruct (IH rest) as (H1 & H2 & H3); [cbn in Hlen; lia|].
      cbn [scaledCopy length]. rewrite steps_SS. split; [cbn [length]; lia|].
      split; [repeat constructor; eauto|].
      intros Ho.
      change (Nat.odd (S (S (length rest)))) with (Nat.odd (length rest)) in Ho.
      specialize (H3 Ho). rewrite !last_cons, H3. reflexivity.
Qed.

(** X3.  [cloneAndScaleGeometry_] on a feature with a buffer allocates one
    new array and leaves the rest of the store alone.  The clone has no
    holes and an even length: for a buffer of odd length the loop writes
    one element past the end, [undefined * sy], so the clone is one longer
    than the buffer and ends in [NaN]. *)
Theorem clone_is_padded_to_whole_pairs :
  forall (f : RenderFeature) (sx sy : float) (h : heap) (src : loc) (a : jsarray),
    getFlatCoordinates f = Some src ->
    h !! src = Some a ->
    exists flat : jsarray,
      Raster.cloneAndScaleGeometry_ f sx sy h
      = (Some (Raster.buildGeometry f flat), h ++ [flat])
      /\ length flat = 2 * Js.steps 0 (length a)
      /\ Forall is_Some flat
      /\ (Nat.odd (length a) = true -> last flat = Some (Some nan)).
Proof.
  intros f sx sy h src a Hsrc Ha.
  exists (scaledCopy a sx sy).
  rewrite cloneAndScaleGeometry_scaledCopy, Hsrc. unfold Js.arrayAt. rewrite Ha.
  split; [reflexivity|]. apply (scaledCopy_shape sx sy (length a) a). lia.
Qed.

Lemma steps_le (i e : nat) : e <= i -> Js.steps i e = 0.
Proof.
  intros H. unfold Js.steps. replace (e - i) with 0 by lia. reflexivity.
Qed.

Lemma pairsFrom_app (n m i : nat) (flat : jsarray) :
  Raster.pairsFrom (n + m) i flat
  = Raster.pairsFrom n i flat ++ Raster.pairsFrom m (i + 2 * n) flat.
Proof.
  revert i. induction n as [|n IH]; intros i; cbn [Raster.pairsFrom Nat.add].
  - replace (i + 2 * 0) with i by lia. reflexivity.
  - rewrite IH. cbn [app].
    replace (i + 2 + 2 * n) with (i + 2 * S n) by lia. reflexivity.
Qed.

Lemma concat_ringsFrom (flat : jsarray) (ends : list nat) :
  forall i, concat (Raster.ringsFrom i flat ends) = Raster.flatToCoordsFrom i flat ends.
Proof.
  induction ends as [|e es IH]; intros i; cbn; [reflexivity|].
  rewrite IH. reflexivity.
Qed.

Lemma div2_spec (x : nat) : 2 * (x / 2) <= x < 2 * (x / 2) + 2.
Proof.
  pose proof (Nat.div_mod_eq x 2). pose proof (Nat.mod_upper_bound x 2). lia.
Qed.

Lemma steps_join (k e m : nat) :
  Js.steps (2 * k) e + Js.steps (2 * (k + Js.steps (2 * k) e)) m
  = Js.steps (2 * k) (Nat.max e m).
Proof.
  unfold Js.steps.
  pose proof (div2_spec (e - 2 * k + 1)).
  pose proof (div2_spec (m - 2 * (k + (e - 2 * k + 1) / 2) + 1)).
  pose proof (div2_spec (Nat.max e m - 2 * k + 1)).
  lia.
Qed.

Lemma flatToCoordsFrom_closed (flat : jsarray) (ends : list nat) :
  forall k,
    Raster.flatToCoordsFrom (2 * k) flat ends
    = Raster.pairsFrom (Js.steps (2 * k) (list_max ends)) (2 * k) flat.
Proof.
  induction ends as [|e es IH]; intros k.
  - cbn [Raster.flatToCoordsFrom list_max fold_right].
    rewrite steps_le by lia. reflexivity.
  - cbn [Raster.flatToCoordsFrom list_max fold_right].
    replace (2 * k + 2 * Js.steps (2 * k) e) with (2 * (k + Js.steps (2 * k) e)) by lia.
    rewrite IH, <- steps_join, pairsFrom_app.
    replace (2 * (k + Js.steps (2 * k) e)) with (2 * k + 2 * Js.steps (2 * k) e) by lia.
    reflexivity.
Qed.

(** X4.  [flatToCoords_] reads the coordinate pairs at the indices 0, 2,
    4, ... below the largest of [ends], in order: the index runs on from
    one end to the next and never goes back, so the other ends do not
    change the result.  The ring loop of the [Polygon] case reads the same
    pairs and cuts them into one ring per end. *)
Theorem line_and_rings_cover_the_same_pairs :
  forall (flat : jsarray) (ends : list nat),
    Raster.flatToCoords_ flat ends
    = Raster.pairsFrom (Js.steps 0 (list_max ends)) 0 flat
    /\ concat (Raster.ringsFrom 0 flat ends) = Raster.flatToCoords_ flat ends
    /\ length (Raster.ringsFrom 0 flat ends) = length ends.
Proof.
  intros flat ends. split; [|split].
  - apply (flatToCoordsFrom_closed flat ends 0).
  - apply concat_ringsFrom.
  - generalize 0. induction ends as [|e es IH]; intros i; cbn; [reflexivity|].
    rewrite IH. reflexivity.
Qed.

(* ================================================================== *)
(** * Further properties: fetches that settle *)
(* ================================================================== *)

Lemma readFeatures_allocated ds :
  forall h : heap, allocatedIn (snd (readFeatures ds h)) (fst (readFeatures ds h)).
Proof.
  induction ds as [|d rest IH]; intros h; [constructor|].
  cbn [readFeatures].
  destruct (decodedCoordinates d) as [cs|].
  - cbn [Js.alloc]. specialize (IH (h ++ [List.map Some cs])).
    pose proof (readFeatures_extends rest (h ++ [List.map Some cs])) as Hp.
    destruct (readFeatures rest (h ++ [List.map Some cs])) as [fs h2].
    cbn [fst snd] in *. constructor; [|exact IH].
    cbn. intros src [= <-]. apply prefix_length in Hp.
    rewrite length_app in Hp. cbn in Hp. lia.
  - specialize (IH h). destruct (readFeatures rest h) as [fs h2].
    cbn [fst snd] in *. constructor; [|exact IH]. cbn. discriminate.
Qed.

Lemma failure_propagates b features tile url headers x y z_ why :
  promises b !! features
  = Some {| origin := FromFetch url headers; status := Pending |} ->
  promises b !! tile
  = Some {| origin := FromThen features x y z_; status := Pending |} ->
  reaction tile (fetchSettles features (Failed why) b)
  = settle tile (Rejected why) (settle features (Rejected why) b).
Proof.
  intros Hf Ht.
  assert (Hne : features <> tile) by (intros ->; rewrite Hf in Ht; discriminate).
  unfold fetchSettles. rewrite Hf. cbn [origin status].
  set (b1 := settle features (Rejected why) b).
  assert (Hf1 : promises b1 !! features
                = Some {| origin := FromFetch url headers; status := Rejected why |}).
  { subst b1. cbn. rewrite list_lookup_alter_eq, Hf. reflexivity. }
  assert (Ht1 : promises b1 !! tile
                = Some {| origin := FromThen features x y z_; status := Pending |}).
  { subst b1. cbn. rewrite list_lookup_alter_ne by exact Hne. exact Ht. }
  unfold reaction. rewrite Ht1. cbn [origin status].
  unfold statusOf. rewrite Hf1. reflexivity.
Qed.

Lemma success_propagates b features tile url headers x y z_ ds :
  promises b !! features
  = Some {| origin := FromFetch url headers; status := Pending |} ->
  promises b !! tile
  = Some {| origin := FromThen features x y z_; status := Pending |} ->
  let fs := fst (readFeatures ds (memory b)) in
  let h1 := snd (readFeatures ds (memory b)) in
  let raster :=
    Raster.rasterizeFeatures (tileWidth b) (tileHeight b) fs (styleFunction_ b)
      (nominalResolution z_ b) h1 in
  reaction tile (fetchSettles features (Decoded ds) b)
  = settle tile (Fulfilled (VCanvas (fst raster)))
      (setMemory (snd raster)
         (settle features (Fulfilled (VFeatures fs)) (setMemory h1 b))).
Proof.
  intros Hf Ht fs h1 raster.
  assert (Hne : features <> tile) by (intros ->; rewrite Hf in Ht; discriminate).
  unfold fetchSettles. rewrite Hf. cbn [origin status].
  subst raster fs h1. destruct (readFeatures ds (memory b)) as [fs h1]. cbn [fst snd].
  set (b1 := settle features (Fulfilled (VFeatures fs)) (setMemory h1 b)).
  assert (Hf1 : promises b1 !! features
                = Some {| origin := FromFetch url headers;
                          status := Fulfilled (VFeatures fs) |}).
  { subst b1. cbn. rewrite list_lookup_alter_eq, Hf. reflexivity. }
  assert (Ht1 : promises b1 !! tile
                = Some {| origin := FromThen features x y z_; status := Pending |}).
  { subst b1. cbn. rewrite list_lookup_alter_ne by exact Hne. exact Ht. }
  unfold reaction. rewrite Ht1. cbn [origin status].
  unfold statusOf. rewrite Hf1. cbn [option_map status].
  unfold rasterizeFeatures.
  change (tileWidth b1) with (tileWidth b). change (tileHeight b1) with (tileHeight b).
  change (styleFunction_ b1) with (styleFunction_ b).
  change (nominalResolution z_ b1) with (nominalResolution z_ b).
  change (memory b1) with h1.
  destruct (Raster.rasterizeFeatures _ _ _ _ _ _) as [canvas h2]. reflexivity.
Qed.


(* ================================================================== *)
(** * Further properties: requests *)
(* ================================================================== *)

Section MoreRequestFacts.

Variable olUseNewCoordinates : bool.

Local Abbreviation requestImage' := (requestImage olUseNewCoordinates).

Lemma getTileFeatures_touched url z x y b :
  touched (featureCache b) (featureCache (snd (getTileFeatures url z x y b)))
  /\ tileCache (snd (getTileFeatures url z x y b)) = tileCache b.
Proof.
  unfold getTileFeatures. cbv zeta.
  change (featureCache (logEvent _ b)) with (featureCache b).
  destruct (lookupCache _ (featureCache b)) as [[p|] c'] eqn:E; cbn.
  - split; [eapply touched_hit; exact E|reflexivity].
  - split; [|reflexivity]. apply touched_set. eapply lookupCache_none; exact E.
Qed.

Lemma promiseForUrl_touched url x y z_ b :
  touched (featureCache b) (featureCache (snd (promiseForUrl url x y z_ b)))
  /\ tileCache (snd (promiseForUrl url x y z_ b)) = tileCache b.
Proof.
  unfold promiseForUrl. destruct url as [u|]; [|split; [constructor|reflexivity]].
  destruct (truthy _); [|split; [constructor|reflexivity]].
  pose proof (getTileFeatures_touched u z_ x y b) as H.
  destruct (getTileFeatures u z_ x y b) as [p b1]. exact H.
Qed.

Lemma requestImage_touched x y z request b :
  touched (tileCache b) (tileCache (snd (requestImage' x y z request b)))
  /\ touched (featureCache b) (featureCache (snd (requestImage' x y z request b))).
Proof.
  unfold requestImage.
  destruct (olWmsDelegate_ b); [split; constructor|].
  destruct (_ <? _)%Z; [split; constructor|].
  cbv zeta. change (tileCache (logEvent _ b)) with (tileCache b).
  destruct (lookupCache _ (tileCache b)) as [[p|] c'] eqn:E.
  - cbn. split; [eapply touched_hit; exact E|constructor].
  - apply lookupCache_none in E.
    destruct (getTileUrlFunction _) as [urlFn|]; [|split; constructor].
    destruct (projection_ _) as [pr|]; [|split; constructor].
    destruct (urlFn _ _) as [url|e]; [|split; constructor].
    match goal with
    | |- context [promiseForUrl ?u ?x ?y ?z ?b0] =>
        pose proof (promiseForUrl_touched u x y z b0) as [H1 H2];
        destruct (promiseForUrl u x y z b0) as [p b1]
    end.
    cbn in *. rewrite H2. split; [apply touched_set; exact E|exact H1].
Qed.

Lemma getTileFeatures_hit url z x y b p :
  peek (getCacheKey_ z x y) (featureCache b) = Some p ->
  exists cache,
    getTileFeatures url z x y b
    = (p, setFeatureCache cache (logEvent (FeatureCacheLookup (getCacheKey_ z x y)) b))
    /\ peek (getCacheKey_ z x y) cache = Some p
    /\ LRUCache.highWaterMark cache = LRUCache.highWaterMark (featureCache b).
Proof.
  intros Hp. unfold getTileFeatures. cbv zeta.
  change (featureCache (logEvent _ b)) with (featureCache b).
  destruct (lookupCache_hit _ _ _ Hp) as (cache & -> & Hpeek & Hhwm).
  exists cache. auto.
Qed.

Lemma requestImage_no_url_cached x y z request b tileUrlFunction projection url :
  olWmsDelegate_ b = None ->
  (minimumLevel_ b <= z)%Z ->
  getTileUrlFunction (source_ b) = Some tileUrlFunction ->
  projection_ b = Some projection ->
  tileUrlFunction (sourceLevel b z, x, sourceRow olUseNewCoordinates y) projection
  = Normal url ->
  truthy (match proxy b with Some getURL => getURL url | None => url end) = false ->
  LRUCache.containsKey (getCacheKey_ (sourceLevel b z) x y) (tileCache b) = false ->
  requestImage' x y z request b
  = (ImgPromise (emptyCanvasPromise_ b),
     setTileCache
       (LRUCache.setAndGroom (getCacheKey_ (sourceLevel b z) x y)
          (emptyCanvasPromise_ b) (tileCache b))
       (setTrace
          (trace b ++ [TileCacheLookup (getCacheKey_ (sourceLevel b z) x y);
                       UrlBuilt (sourceLevel b z) x (sourceRow olUseNewCoordinates y)])
          b)).
Proof.
  intros Hd Hz Hfn Hproj Hurl Hfalsy Htile.
  unfold requestImage. rewrite Hd.
  destruct (Z.ltb_spec z (minimumLevel_ b)) as [?|_]; [lia|].
  cbv zeta. fold (sourceLevel b z). fold (sourceRow olUseNewCoordinates y).
  change (tileCache (logEvent _ b)) with (tileCache b).
  rewrite (lookupCache_miss _ _ Htile).
  change (source_ (logEvent _ b)) with (source_ b).
  change (projection_ (logEvent _ b)) with (projection_ b).
  rewrite Hfn, Hproj, Hurl.
  change (proxy (logEvent _ (logEvent _ b))) with (proxy b).
  unfold promiseForUrl.
  destruct (match proxy b with Some getURL => getURL url | None => url end)
    as [u|] eqn:Hu.
  - rewrite Hfalsy. unfold logEvent. cbn. rewrite <- !app_assoc. reflexivity.
  - unfold logEvent. cbn. rewrite <- !app_assoc. reflexivity.
Qed.

(** X6.  A request that misses both caches does these things, in this
    order: it looks the key of [(z_, x, y)] up in the tile cache, asks the
    source's URL function for [[z_, x, y_]] ([y_] being [-y - 1] with the
    legacy row numbering), passes the URL through the proxy if there is
    one, looks the same key up in the feature cache, and fetches the URL
    with the headers [olcs_authHeaders] gives for [(z_, x, y)].  The feature
    promise and the tile promise chained on it are the two promises it
    creates. *)
Theorem cold_request_fetches_the_proxied_url :
  forall (x y z : Z) (request : option Request) (b : Bridge)
         (tileUrlFunction : Z * Z * Z -> Projection -> Completion (option string))
         (projection : Projection) (url : option string) (u : string),
    olWmsDelegate_ b = None ->
    (minimumLevel_ b <= z)%Z ->
    getTileUrlFunction (source_ b) = Some tileUrlFunction ->
    projection_ b = Some projection ->
    tileUrlFunction (sourceLevel b z, x, sourceRow olUseNewCoordinates y) projection
    = Normal url ->
    match proxy b with Some getURL => getURL url | None => url end = Some u ->
    u <> ""%string ->
    LRUCache.containsKey (getCacheKey_ (sourceLevel b z) x y) (tileCache b) = false ->
    LRUCache.containsKey (getCacheKey_ (sourceLevel b z) x y) (featureCache b) = false ->
    let key := getCacheKey_ (sourceLevel b z) x y in
    let headers := match olcs_authHeaders (source_ b) with
                   | Some headersFn => headersFn (sourceLevel b z) x y
                   | None => []
                   end in
    let b' := snd (requestImage' x y z request b) in
    trace b'
    = trace b ++ [TileCacheLookup key;
                  UrlBuilt (sourceLevel b z) x (sourceRow olUseNewCoordinates y);
                  FeatureCacheLookup key;
                  Fetch u headers]
    /\ promises b'
       = promises b ++ [ {| origin := FromFetch u headers; status := Pending |};
                         {| origin := FromThen (length (promises b)) x y
                                        (sourceLevel b z);
                            status := Pending |} ].
Proof.
  intros x y z request b tileUrlFunction projection url u
         Hd Hz Hfn Hproj Hurl Hproxy Hu Htile Hfeat key headers b'.
  destruct (requestImage_miss olUseNewCoordinates x y z request b tileUrlFunction
              projection url u Hd Hz Hfn Hproj Hurl Hproxy Hu Htile Hfeat)
    as (_ & _ & Hp & Ht & _).
  split; assumption.
Qed.

(** X7.  Requests for two different tiles do not share anything: when
    neither tile is in a cache, the second request gets a promise of its
    own and issues a fetch of its own. *)
Theorem distinct_tiles_are_fetched_separately :
  forall (x y z x' y' z' : Z) (request : option Request) (b : Bridge)
         (tileUrlFunction : Z * Z * Z -> Projection -> Completion (option string))
         (projection : Projection) (url url' : option string) (u u' : string),
    olWmsDelegate_ b = None ->
    (minimumLevel_ b <= z)%Z ->
    (minimumLevel_ b <= z')%Z ->
    getTileUrlFunction (source_ b) = Some tileUrlFunction ->
    projection_ b = Some projection ->
    tileUrlFunction (sourceLevel b z, x, sourceRow olUseNewCoordinates y) projection
    = Normal url ->
    match proxy b with Some getURL => getURL url | None => url end = Some u ->
    u <> ""%string ->
    tileUrlFunction (sourceLevel b z', x', sourceRow olUseNewCoordinates y') projection
    = Normal url' ->
    match proxy b with Some getURL => getURL url' | None => url' end = Some u' ->
    u' <> ""%string ->
    LRUCache.containsKey (getCacheKey_ (sourceLevel b z) x y) (tileCache b) = false ->
    LRUCache.containsKey (getCacheKey_ (sourceLevel b z) x y) (featureCache b) = false ->
    LRUCache.containsKey (getCacheKey_ (sourceLevel b z') x' y') (tileCache b) = false ->
    LRUCache.containsKey (getCacheKey_ (sourceLevel b z') x' y') (featureCache b) = false ->
    (x, y, z) <> (x', y', z') ->
    let b1 := snd (requestImage' x y z request b) in
    let b2 := snd (requestImage' x' y' z' request b1) in
    fst (requestImage' x y z request b) = ImgPromise (S (length (promises b)))
    /\ fst (requestImage' x' y' z' request b1)
       = ImgPromise (S (S (S (length (promises b)))))
    /\ fetches b2 = S (S (fetches b)).
Proof.
  intros x y z x' y' z' request b tileUrlFunction projection url url' u u'
         Hd Hz Hz' Hfn Hproj Hurl Hproxy Hu Hurl' Hproxy' Hu'
         Htile Hfeat Htile' Hfeat' Hne b1 b2.
  pose proof (requestImage_miss olUseNewCoordinates x y z request b tileUrlFunction
                projection url u Hd Hz Hfn Hproj Hurl Hproxy Hu Htile Hfeat) as H1.
  cbv zeta in H1. fold b1 in H1. destruct H1 as (Hr1 & Hs & Hp & Ht & Htc & Hfc).
  assert (Hs' := Hs). unfold sameSettings in Hs'.
  destruct Hs' as (Hsrc & Hpr & _ & Hflag & _ & _ & _ & _ & Hmin & Hdel & Hpx).
  assert (Hlevel : forall w, sourceLevel b1 w = sourceLevel b w)
    by (intros w; unfold sourceLevel; rewrite Hflag; reflexivity).
  assert (Hkeys : getCacheKey_ (sourceLevel b z') x' y'
                  <> getCacheKey_ (sourceLevel b z) x y).
  { intros E. apply getCacheKey_inj in E as (Ez & Ex & Ey). apply Hne.
    assert (Ezz : z = z')
      by (unfold sourceLevel in Ez; destruct (shouldRequestNextLevel b); lia).
    congruence. }
  pose proof (requestImage_miss olUseNewCoordinates x' y' z' request b1 tileUrlFunction
                projection url' u') as H2.
  rewrite !Hlevel, Hsrc, Hpr, Hdel, Hmin, Hpx, Htc, Hfc in H2.
  specialize (H2 Hd Hz' Hfn Hproj Hurl' Hproxy' Hu'
                 (containsKey_setAndGroom_other _ _ _ _ Hkeys Htile')
                 (containsKey_setAndGroom_other _ _ _ _ Hkeys Hfeat')).
  cbv zeta in H2. fold b2 in H2. destruct H2 as (Hr2 & _ & _ & Ht2 & _).
  split; [exact Hr1|]. split.
  - rewrite Hr2, Hp, length_app. cbn. f_equal. lia.
  - unfold fetches. rewrite Ht2, Ht, !List.filter_app, !length_app. cbn. lia.
Qed.

(** X8.  A tile that is not in the tile cache while its features are in
    the feature cache (a cache handed in through [options.featureCache],
    or a tile evicted from the tile cache only) is not fetched again: the
    request creates one promise, chained on the cached feature promise,
    stores it in the tile cache and leaves the feature promise in its
    cache. *)
Theorem cached_features_are_not_fetched_again :
  forall (x y z : Z) (request : option Request) (b : Bridge)
         (tileUrlFunction : Z * Z * Z -> Projection -> Completion (option string))
         (projection : Projection) (url : option string) (u : string) (p : pid),
    olWmsDelegate_ b = None ->
    (minimumLevel_ b <= z)%Z ->
    getTileUrlFunction (source_ b) = Some tileUrlFunction ->
    projection_ b = Some projection ->
    tileUrlFunction (sourceLevel b z, x, sourceRow olUseNewCoordinates y) projection
    = Normal url ->
    match proxy b with Some getURL => getURL url | None => url end = Some u ->
    u <> ""%string ->
    LRUCache.containsKey (getCacheKey_ (sourceLevel b z) x y) (tileCache b) = false ->
    peek (getCacheKey_ (sourceLevel b z) x y) (featureCache b) = Some p ->
    let key := getCacheKey_ (sourceLevel b z) x y in
    let tile := length (promises b) in
    let b' := snd (requestImage' x y z request b) in
    fst (requestImage' x y z request b) = ImgPromise tile
    /\ promises b'
       = promises b ++ [ {| origin := FromThen p x y (sourceLevel b z);
                            status := Pending |} ]
    /\ fetches b' = fetches b
    /\ tileCache b' = LRUCache.setAndGroom key tile (tileCache b)
    /\ peek key (featureCache b') = Some p.
Proof.
  intros x y z request b tileUrlFunction projection url u p
         Hd Hz Hfn Hproj Hurl Hproxy Hu Htile Hfeat.
  unfold requestImage. rewrite Hd.
  destruct (Z.ltb_spec z (minimumLevel_ b)) as [?|_]; [lia|].
  cbv zeta. fold (sourceLevel b z). fold (sourceRow olUseNewCoordinates y).
  change (tileCache (logEvent _ b)) with (tileCache b).
  rewrite (lookupCache_miss _ _ Htile).
  change (source_ (logEvent _ b)) with (source_ b).
  change (projection_ (logEvent _ b)) with (projection_ b).
  rewrite Hfn, Hproj, Hurl.
  change (proxy (logEvent _ (logEvent _ b))) with (proxy b).
  rewrite Hproxy. unfold promiseForUrl.
  assert (Ht : truthy (Some u) = true).
  { cbn. destruct (String.eqb_spec u ""); [contradiction|reflexivity]. }
  rewrite Ht.
  match goal with
  | |- context [getTileFeatures u ?z ?x ?y ?b0] =>
      destruct (getTileFeatures_hit u z x y b0 p Hfeat) as (cache & -> & Hpeek & _)
  end.
  cbn. unfold fetches. cbn. rewrite !List.filter_app. cbn. rewrite !app_nil_r.
  auto.
Qed.

(** X9.  A tile for which the source has no URL (the URL function, or the
    proxy after it, answers with nothing or with the empty text) gets the
    placeholder promise, and the placeholder is stored under the tile's
    key: the next request for the tile is answered from the tile cache,
    without asking the URL function again.  Nothing is fetched. *)
Theorem tile_without_url_is_remembered :
  forall (x y z : Z) (request : option Request) (b : Bridge)
         (tileUrlFunction : Z * Z * Z -> Projection -> Completion (option string))
         (projection : Projection) (url : option string),
    olWmsDelegate_ b = None ->
    (minimumLevel_ b <= z)%Z ->
    getTileUrlFunction (source_ b) = Some tileUrlFunction ->
    projection_ b = Some projection ->
    tileUrlFunction (sourceLevel b z, x, sourceRow olUseNewCoordinates y) projection
    = Normal url ->
    truthy (match proxy b with Some getURL => getURL url | None => url end) = false ->
    LRUCache.containsKey (getCacheKey_ (sourceLevel b z) x y) (tileCache b) = false ->
    0 < LRUCache.highWaterMark (tileCache b) ->
    let key := getCacheKey_ (sourceLevel b z) x y in
    let b1 := snd (requestImage' x y z request b) in
    fst (requestImage' x y z request b) = ImgPromise (emptyCanvasPromise_ b)
    /\ fetches b1 = fetches b
    /\ promises b1 = promises b
    /\ exists cache,
         requestImage' x y z request b1
         = (ImgPromise (emptyCanvasPromise_ b),
            setTileCache cache (logEvent (TileCacheLookup key) b1)).
Proof.
  intros x y z request b tileUrlFunction projection url
         Hd Hz Hfn Hproj Hurl Hfalsy Htile Hhwm.
  cbv zeta.
  rewrite (requestImage_no_url_cached x y z request b tileUrlFunction projection url
             Hd Hz Hfn Hproj Hurl Hfalsy Htile).
  cbn [fst snd].
  split; [reflexivity|]. split.
  { unfold fetches. cbn. rewrite List.filter_app. cbn. rewrite app_nil_r. reflexivity. }
  split; [reflexivity|].
  match goal with
  | |- context [requestImage _ x y z request ?b1] =>
      destruct (requestImage_hit olUseNewCoordinates x y z request b1
                  (emptyCanvasPromise_ b) Hd Hz) as (cache & Heq & _)
  end.
  { cbn [tileCache setTileCache]. apply peek_setAndGroom; assumption. }
  exists cache. exact Heq.
Qed.

(** X10.  When the source's URL function throws, [requestImage] returns
    [undefined], raises [errorEvent] once, creates no promise, fetches
    nothing and stores nothing in either cache.  So the failure is not
    remembered: the next request for the tile asks the URL function again
    and raises again. *)
Theorem url_error_is_raised_and_not_cached :
  forall (x y z : Z) (request : option Request) (b : Bridge)
         (tileUrlFunction : Z * Z * Z -> Projection -> Completion (option string))
         (projection : Projection) (e : string),
    olWmsDelegate_ b = None ->
    (minimumLevel_ b <= z)%Z ->
    getTileUrlFunction (source_ b) = Some tileUrlFunction ->
    projection_ b = Some projection ->
    tileUrlFunction (sourceLevel b z, x, sourceRow olUseNewCoordinates y) projection
    = Throw e ->
    LRUCache.containsKey (getCacheKey_ (sourceLevel b z) x y) (tileCache b) = false ->
    let b1 := snd (requestImage' x y z request b) in
    let b2 := snd (requestImage' x y z request b1) in
    fst (requestImage' x y z request b) = ImgUndefined
    /\ errorsRaised b1 = S (errorsRaised b)
    /\ fetches b1 = fetches b
    /\ promises b1 = promises b
    /\ tileCache b1 = tileCache b
    /\ featureCache b1 = featureCache b
    /\ fst (requestImage' x y z request b1) = ImgUndefined
    /\ errorsRaised b2 = S (S (errorsRaised b)).
Proof.
  intros x y z request b tileUrlFunction projection e Hd Hz Hfn Hproj Hurl Htile.
  cbv zeta.
  rewrite (requestImage_throw olUseNewCoordinates x y z request b tileUrlFunction
             projection e Hd Hz Hfn Hproj Hurl Htile).
  cbn [fst snd].
  match goal with
  | |- context [requestImage _ x y z request ?b1] =>
      rewrite (requestImage_throw olUseNewCoordinates x y z request b1
                 tileUrlFunction projection e Hd Hz Hfn Hproj Hurl Htile)
  end.
  unfold errorsRaised, fetches. cbn. rewrite !List.filter_app, !length_app. cbn.
  repeat split; lia.
Qed.

(** X11.  A tile whose fetch failed is not fetched again while its promise
    is in the tile cache: after the fetch has failed and the tile promise
    has rejected, the next request for the tile returns that same rejected
    promise; no fetch is issued and nothing is raised. *)
Theorem failed_tile_is_not_retried :
  forall (x y z : Z) (request : option Request) (b : Bridge)
         (tileUrlFunction : Z * Z * Z -> Projection -> Completion (option string))
         (projection : Projection) (url : option string) (u : string)
         (why : Failure),
    olWmsDelegate_ b = None ->
    (minimumLevel_ b <= z)%Z ->
    getTileUrlFunction (source_ b) = Some tileUrlFunction ->
    projection_ b = Some projection ->
    tileUrlFunction (sourceLevel b z, x, sourceRow olUseNewCoordinates y) projection
    = Normal url ->
    match proxy b with Some getURL => getURL url | None => url end = Some u ->
    u <> ""%string ->
    LRUCache.containsKey (getCacheKey_ (sourceLevel b z) x y) (tileCache b) = false ->
    LRUCache.containsKey (getCacheKey_ (sourceLevel b z) x y) (featureCache b) = false ->
    0 < LRUCache.highWaterMark (tileCache b) ->
    let features := length (promises b) in
    let tile := S features in
    let b1 := snd (requestImage' x y z request b) in
    let b2 := reaction tile (fetchSettles features (Failed why) b1) in
    let b3 := snd (requestImage' x y z request b2) in
    fst (requestImage' x y z request b2) = ImgPromise tile
    /\ statusOf b3 tile = Some (Rejected why)
    /\ fetches b3 = S (fetches b)
    /\ errorsRaised b3 = errorsRaised b.
Proof.
  intros x y z request b tileUrlFunction projection url u why
         Hd Hz Hfn Hproj Hurl Hproxy Hu Htile Hfeat Hhwm features tile b1 b2 b3.
  pose proof (requestImage_miss olUseNewCoordinates x y z request b tileUrlFunction
                projection url u Hd Hz Hfn Hproj Hurl Hproxy Hu Htile Hfeat) as Hmiss.
  cbv zeta in Hmiss. fold b1 features in Hmiss.
  destruct Hmiss as (_ & Hs & Hp & Htr & Htc & _).
  assert (Hf1 : promises b1 !! features
                = Some {| origin := FromFetch u
                            match olcs_authHeaders (source_ b) with
                            | Some headersFn => headersFn (sourceLevel b z) x y
                            | None => []
                            end;
                          status := Pending |}).
  { rewrite Hp, lookup_app_r by (subst features; lia).
    replace (features - length (promises b)) with 0 by (subst features; lia).
    reflexivity. }
  assert (Ht1 : promises b1 !! tile
                = Some {| origin := FromThen features x y (sourceLevel b z);
                          status := Pending |}).
  { rewrite Hp, lookup_app_r by (subst tile features; lia).
    replace (tile - length (promises b)) with 1 by (subst tile features; lia).
    reflexivity. }
  assert (E2 : b2 = settle tile (Rejected why) (settle features (Rejected why) b1)).
  { subst b2. eapply failure_propagates; eassumption. }
  assert (Hs2 : tileCache b2 = tileCache b1 /\ trace b2 = trace b1
                /\ olWmsDelegate_ b2 = None /\ minimumLevel_ b2 = minimumLevel_ b
                /\ shouldRequestNextLevel b2 = shouldRequestNextLevel b).
  { rewrite E2. cbn. unfold sameSettings in Hs. intuition congruence. }
  destruct Hs2 as (Hc2 & Htr2 & Hd2 & Hm2 & Hn2).
  assert (Hlevel : sourceLevel b2 z = sourceLevel b z)
    by (unfold sourceLevel; rewrite Hn2; reflexivity).
  destruct (requestImage_hit olUseNewCoordinates x y z request b2 tile Hd2)
    as (cache & Heq & _).
  { lia. }
  { rewrite Hlevel, Hc2, Htc. apply peek_setAndGroom; assumption. }
  subst b3. rewrite Heq. cbn [fst snd].
  split; [reflexivity|]. split; [|split].
  - unfold statusOf. cbn [promises setTileCache logEvent setTrace].
    rewrite E2. cbn [promises settle setPromises].
    rewrite list_lookup_alter_eq, list_lookup_alter_ne by (subst tile; lia).
    rewrite Ht1. reflexivity.
  - unfold fetches. cbn [trace setTileCache logEvent setTrace].
    rewrite Htr2, Htr, !List.filter_app, !length_app. cbn. lia.
  - unfold errorsRaised. cbn [trace setTileCache logEvent setTrace].
    rewrite Htr2, Htr, !List.filter_app, !length_app. cbn. lia.
Qed.

End MoreRequestFacts.

(* ================================================================== *)
(** * Further properties: the life of a bridge *)
(* ================================================================== *)

Section MoreLifeFacts.

Variable olUseNewCoordinates : bool.
Variable parseUrl : string -> option (string * Params).
Variable createXYZ : list float -> TileGrid.
Variable proj3857 : Projection.
Variable newOLImageryProvider : TileWMS -> option Projection -> OLImageryProvider.

Local Abbreviation requestImage' := (requestImage olUseNewCoordinates).
Local Abbreviation handleSourceChanged' :=
  (handleSourceChanged_ parseUrl createXYZ proj3857 newOLImageryProvider).
Local Abbreviation tryInit' :=
  (tryInitOlWmsDelegate_ parseUrl createXYZ proj3857 newOLImageryProvider).
Local Abbreviation step' :=
  (step olUseNewCoordinates parseUrl createXYZ proj3857 newOLImageryProvider).
Local Abbreviation run' :=
  (run olUseNewCoordinates parseUrl createXYZ proj3857 newOLImageryProvider).
Local Abbreviation construct' :=
  (construct parseUrl createXYZ proj3857 newOLImageryProvider).
Local Abbreviation run_cons' :=
  (run_cons olUseNewCoordinates parseUrl createXYZ proj3857 newOLImageryProvider).

(** *** The caches *)
Lemma step_touched o b :
  touched (tileCache b) (tileCache (step' o b))
  /\ touched (featureCache b) (featureCache (step' o b)).
Proof.
  destruct o as [s|x y z request|p outcome|p]; cbn [step].
  - pose proof (handleSourceChanged_frame parseUrl createXYZ proj3857
                  newOLImageryProvider (setSource s b)) as H.
    cbn in H. destruct H as (_ & _ & -> & -> & _). split; constructor.
  - apply (requestImage_touched olUseNewCoordinates).
  - destruct (fetchSettles_quiet p outcome b) as (_ & -> & ->). split; constructor.
  - destruct (reaction_quiet p b) as (_ & -> & ->). split; constructor.
Qed.

Lemma run_touched (P : LRUCache.t pid -> Prop) :
  (forall c c', touched c c' -> P c -> P c') ->
  forall ops b,
    (P (tileCache b) -> P (tileCache (run' ops b)))
    /\ (P (featureCache b) -> P (featureCache (run' ops b))).
Proof.
  intros HP ops. induction ops as [|o ops IH]; intros b; [cbn; auto|].
  rewrite run_cons'.
  destruct (step_touched o b) as [Ht Hf]. destruct (IH (step' o b)) as [IHt IHf].
  split; intros H0; [apply IHt | apply IHf]; eapply HP; eassumption.
Qed.

Lemma construct_caches source fallback options world mem :
  let b := snd (construct' source fallback options world mem) in
  tileCache b
  = LRUCache.create (match opt_cacheSize options with Some n => n | None => 50 end)
  /\ featureCache b
     = match opt_featureCache options with
       | Some c => c
       | None =>
           LRUCache.create
             (match opt_cacheSize options with Some n => n | None => 50 end)
       end.
Proof.
  unfold construct.
  match goal with
  | |- context [handleSourceChanged_ _ _ _ _ ?b0] =>
      pose proof (handleSourceChanged_frame parseUrl createXYZ proj3857
                    newOLImageryProvider b0) as H; cbn in H;
      destruct H as (_ & _ & Ht & Hf & _)
  end.
  cbv zeta. rewrite Ht, Hf. split; reflexivity.
Qed.

(** X12.  Over the whole life of a bridge built with a positive
    [cacheSize], the tile cache keeps that mark and never holds more than
    twice as many entries, whatever is requested; the same bound holds for
    the feature cache when it is the bridge's own, or was handed in within
    its bound. *)
Theorem caches_stay_within_twice_their_mark :
  forall (source : Source) (fallback : option Projection)
         (options : MVTWMSOptions) (world : list Promise) (mem : heap)
         (ops : list Op),
    let cacheSize := match opt_cacheSize options with Some n => n | None => 50 end in
    let b := run' ops (snd (construct' source fallback options world mem)) in
    0 < cacheSize ->
    LRUCache.highWaterMark (tileCache b) = cacheSize
    /\ LRUCache.getCount (tileCache b) <= 2 * cacheSize
    /\ (match opt_featureCache options with
        | Some c => withinBound c
        | None => True
        end -> withinBound (featureCache b)).
Proof.
  intros source fallback options world mem ops cacheSize b _.
  destruct (construct_caches source fallback options world mem) as [Ht Hf].
  cbv zeta in Ht, Hf. fold cacheSize in Ht, Hf.
  set (b0 := snd (construct' source fallback options world mem)) in *.
  assert (Hh : LRUCache.highWaterMark (tileCache b) = cacheSize).
  { subst b.
    destruct (run_touched (fun c => LRUCache.highWaterMark c = cacheSize)) with
      (ops := ops) (b := b0) as [H _].
    - intros c c' T. rewrite (touched_hwm _ _ T). auto.
    - apply H. rewrite Ht. reflexivity. }
  destruct (run_touched withinBound (@touched_withinBound pid) ops b0) as [Bt Bf].
  fold b in Bt, Bf.
  split; [exact Hh|]. split.
  - rewrite <- Hh. apply Bt. rewrite Ht. unfold withinBound. cbn. lia.
  - intros Hc. apply Bf. rewrite Hf.
    destruct (opt_featureCache options); [exact Hc|]. unfold withinBound. cbn. lia.
Qed.

(** X13.  No key is ever held twice by the tile cache or the feature cache:
    over the whole life of a bridge, [set] is only called for a key that
    [containsKey] has just reported absent (a feature cache handed in must
    hold each of its keys once). *)
Theorem cache_keys_stay_unique :
  forall (source : Source) (fallback : option Projection)
         (options : MVTWMSOptions) (world : list Promise) (mem : heap)
         (ops : list Op),
    let b := run' ops (snd (construct' source fallback options world mem)) in
    match opt_featureCache options with
    | Some c => List.NoDup (keys c)
    | None => True
    end ->
    List.NoDup (keys (tileCache b)) /\ List.NoDup (keys (featureCache b)).
Proof.
  intros source fallback options world mem ops b Hc.
  destruct (construct_caches source fallback options world mem) as [Ht Hf].
  cbv zeta in Ht, Hf.
  destruct (run_touched (fun c => List.NoDup (keys c)) (@touched_keys pid) ops
              (snd (construct' source fallback options world mem))) as [Nt Nf].
  fold b in Nt, Nf. split.
  - apply Nt. rewrite Ht. constructor.
  - apply Nf. rewrite Hf. destruct (opt_featureCache options); [exact Hc|constructor].
Qed.

(** *** The delegate is optional *)

Lemma tryInit_no_format b :
  truthy (olcs_wmsFormat (source_ b)) = false -> tryInit' b = b.
Proof.
  intros H. unfold tryInitOlWmsDelegate_.
  destruct (olcs_wmsFormat (source_ b)) as [fmt|]; [|reflexivity].
  rewrite H. reflexivity.
Qed.

Lemma handleSourceChanged_no_format b :
  truthy (olcs_wmsFormat (source_ b)) = false ->
  olWmsDelegate_ (snd (handleSourceChanged' b)) = olWmsDelegate_ b.
Proof.
  intros H. unfold handleSourceChanged_.
  repeat break_match; cbn [snd];
    try rewrite tryInit_no_format by (cbn; exact H); reflexivity.
Qed.

Lemma step_no_format o b :
  asksNoWms o -> olWmsDelegate_ b = None -> olWmsDelegate_ (step' o b) = None.
Proof.
  intros Ho Hd. destruct o as [s|x y z request|p outcome|p]; cbn [step].
  - rewrite handleSourceChanged_no_format by (cbn; exact Ho). exact Hd.
  - pose proof (requestImage_sameSettings olUseNewCoordinates x y z request b) as H.
    unfold sameSettings in H. intuition congruence.
  - pose proof (fetchSettles_sameSettings p outcome b) as H.
    unfold sameSettings in H. intuition congruence.
  - pose proof (reaction_sameSettings p b) as H.
    unfold sameSettings in H. intuition congruence.
Qed.

(** X14.  The vector path is the default: on a source that never names an
    [olcs_wmsFormat], no delegate is ever created, whatever happens to the
    bridge, and no request is handed to one. *)
Theorem vector_path_is_the_default :
  forall (source : Source) (fallback : option Projection)
         (options : MVTWMSOptions) (world : list Promise) (mem : heap)
         (ops : list Op),
    truthy (olcs_wmsFormat source) = false ->
    Forall asksNoWms ops ->
    let b := run' ops (snd (construct' source fallback options world mem)) in
    olWmsDelegate_ b = None
    /\ forall x y z request r,
         fst (requestImage' x y z request b) <> ImgDelegated r.
Proof.
  intros source fallback options world mem ops Hs Hops b.
  assert (Hd : olWmsDelegate_ b = None).
  { subst b. unfold construct.
    match goal with
    | |- context [handleSourceChanged_ _ _ _ _ ?b0] =>
        pose proof (handleSourceChanged_no_format b0 Hs) as H0;
        set (b1 := snd (handleSourceChanged' b0)) in *
    end.
    cbn in H0. clearbody b1. revert b1 H0.
    induction Hops as [|o ops Ho Hops IH]; intros b1 H0; [exact H0|].
    rewrite run_cons'. apply IH. apply step_no_format; assumption. }
  split; [exact Hd|].
  intros x y z request r. unfold requestImage. rewrite Hd.
  repeat lazymatch goal with
         | |- context [promiseForUrl ?u ?x ?y ?z ?b] =>
             destruct (promiseForUrl u x y z b)
         | |- _ => break_match
         end; cbn; discriminate.
Qed.

(** *** The rectangle *)

Lemma tryInit_rectangle b :
  olWmsDelegate_ (tryInit' b) = None -> rectangle_ (tryInit' b) = rectangle_ b.
Proof.
  unfold tryInitOlWmsDelegate_.
  destruct (olcs_wmsFormat (source_ b)) as [fmt|]; [|reflexivity].
  destruct (truthy (Some fmt)); [|reflexivity].
  destruct (olcs_wmsCompanion (source_ b)) as [companion|]; [cbn; discriminate|].
  pose proof (deriveTileWmsFromVector_frame parseUrl createXYZ proj3857 b) as H.
  destruct (deriveTileWmsFromVector_ parseUrl createXYZ proj3857 b) as [[w|] b1];
    [cbn; discriminate|].
  cbn in H. unfold sameSettings in H. intros _. intuition congruence.
Qed.

Lemma tryInit_delegate_kept b :
  olWmsDelegate_ b <> None -> olWmsDelegate_ (tryInit' b) <> None.
Proof.
  unfold tryInitOlWmsDelegate_.
  destruct (olcs_wmsFormat (source_ b)) as [fmt|]; [|auto].
  destruct (truthy (Some fmt)); [|auto].
  destruct (olcs_wmsCompanion (source_ b)) as [companion|]; [cbn; discriminate|].
  pose proof (deriveTileWmsFromVector_frame parseUrl createXYZ proj3857 b) as H.
  destruct (deriveTileWmsFromVector_ parseUrl createXYZ proj3857 b) as [[w|] b1];
    [cbn; discriminate|].
  cbn in H. unfold sameSettings in H. intros Hd. intuition congruence.
Qed.

Lemma handleSourceChanged_rectangle b r :
  rectangle_ b = Some r ->
  olWmsDelegate_ (snd (handleSourceChanged' b)) = None ->
  rectangle_ (snd (handleSourceChanged' b)) = Some r.
Proof.
  intros Hr. unfold handleSourceChanged_.
  repeat break_match; cbn [snd]; try (intros _; exact Hr);
    try (cbn in *; congruence);
    intros Hd; rewrite (tryInit_rectangle _ Hd); cbn; exact Hr.
Qed.

Lemma handleSourceChanged_delegate_kept b :
  olWmsDelegate_ b <> None -> olWmsDelegate_ (snd (handleSourceChanged' b)) <> None.
Proof.
  intros Hd. unfold handleSourceChanged_.
  repeat break_match; cbn [snd]; try exact Hd;
    apply tryInit_delegate_kept; cbn; exact Hd.
Qed.

Lemma step_delegate_kept o b :
  olWmsDelegate_ b <> None -> olWmsDelegate_ (step' o b) <> None.
Proof.
  intros Hd. destruct o as [s|x y z request|p outcome|p]; cbn [step].
  - apply handleSourceChanged_delegate_kept. exact Hd.
  - pose proof (requestImage_sameSettings olUseNewCoordinates x y z request b) as H.
    unfold sameSettings in H. intuition congruence.
  - pose proof (fetchSettles_sameSettings p outcome b) as H.
    unfold sameSettings in H. intuition congruence.
  - pose proof (reaction_sameSettings p b) as H.
    unfold sameSettings in H. intuition congruence.
Qed.

Lemma run_delegate_kept ops b :
  olWmsDelegate_ b <> None -> olWmsDelegate_ (run' ops b) <> None.
Proof.
  revert b; induction ops as [|o ops IH]; intros b Hd; [exact Hd|].
  rewrite run_cons'. apply IH, step_delegate_kept, Hd.
Qed.

Lemma step_rectangle o b r :
  rectangle_ b = Some r ->
  olWmsDelegate_ (step' o b) = None ->
  rectangle_ (step' o b) = Some r.
Proof.
  intros Hr. destruct o as [s|x y z request|p outcome|p]; cbn [step].
  - apply handleSourceChanged_rectangle. exact Hr.
  - pose proof (requestImage_sameSettings olUseNewCoordinates x y z request b) as H.
    unfold sameSettings in H. intuition congruence.
  - pose proof (fetchSettles_sameSettings p outcome b) as H.
    unfold sameSettings in H. intuition congruence.
  - pose proof (reaction_sameSettings p b) as H.
    unfold sameSettings in H. intuition congruence.
Qed.

Lemma run_rectangle ops b r :
  rectangle_ b = Some r ->
  olWmsDelegate_ (run' ops b) = None ->
  rectangle_ (run' ops b) = Some r.
Proof.
  revert b; induction ops as [|o ops IH]; intros b Hr Hd; [exact Hr|].
  rewrite run_cons' in *. apply IH; [|exact Hd].
  apply step_rectangle; [exact Hr|].
  destruct (olWmsDelegate_ (step' o b)) eqn:E; [|reflexivity].
  exfalso. apply (run_delegate_kept ops (step' o b)); [rewrite E; discriminate|exact Hd].
Qed.

(** X15.  As long as no delegate is active, [rectangle] is what the
    constructor set: [options.rectangle], or else the rectangle of the
    default Web Mercator tiling scheme the constructor creates.  Becoming
    ready replaces the tiling scheme but not the rectangle, the test
    [!this.rectangle_] in [handleSourceChanged_] never being true. *)
Theorem rectangle_kept_from_construction :
  forall (source : Source) (fallback : option Projection)
         (options : MVTWMSOptions) (world : list Promise) (mem : heap)
         (ops : list Op),
    let b := run' ops (snd (construct' source fallback options world mem)) in
    olWmsDelegate_ b = None ->
    rectangle_ b
    = Some match opt_rectangle options with
           | Some r => r
           | None => RectangleOf (WebMercatorTilingScheme None)
           end.
Proof.
  intros source fallback options world mem ops b Hd. subst b.
  apply run_rectangle; [|exact Hd].
  unfold construct. apply handleSourceChanged_rectangle.
  - cbn. destruct (opt_rectangle options); reflexivity.
  - match goal with
    | |- olWmsDelegate_ ?b0 = None =>
        destruct (olWmsDelegate_ b0) eqn:E; [|reflexivity]
    end.
    exfalso. eapply run_delegate_kept; [|exact Hd].
    unfold construct. rewrite E. discriminate.
Qed.

(** *** A ready bridge *)

Lemma step_grid o b :
  ready_ b = true ->
  projection_ (step' o b) = projection_ b
  /\ tilingScheme_ (step' o b) = tilingScheme_ b
  /\ rectangle_ (step' o b) = rectangle_ b.
Proof.
  intros Hready. destruct o as [s|x y z request|p outcome|p]; cbn [step].
  - rewrite (handleSourceChanged_ready parseUrl createXYZ proj3857
               newOLImageryProvider) by exact Hready. cbn. tauto.
  - pose proof (requestImage_sameSettings olUseNewCoordinates x y z request b) as H.
    unfold sameSettings in H. intuition congruence.
  - pose proof (fetchSettles_sameSettings p outcome b) as H.
    unfold sameSettings in H. intuition congruence.
  - pose proof (reaction_sameSettings p b) as H.
    unfold sameSettings in H. intuition congruence.
Qed.

(** X16.  Once a bridge is ready, its projection, tiling scheme and
    rectangle are never written again, whatever the source reports later
    (a different projection included) and whatever is requested. *)
Theorem ready_bridge_keeps_its_grid :
  forall (b : Bridge) (ops : list Op),
    ready_ b = true ->
    let b' := run' ops b in
    ready_ b' = true
    /\ projection_ b' = projection_ b
    /\ tilingScheme_ b' = tilingScheme_ b
    /\ rectangle_ b' = rectangle_ b.
Proof.
  intros b ops. revert b. induction ops as [|o ops IH]; intros b Hready; [cbn; tauto|].
  cbv zeta. rewrite run_cons'.
  destruct (step_ready olUseNewCoordinates parseUrl createXYZ proj3857
              newOLImageryProvider o b Hready) as (H1 & _).
  destruct (step_grid o b Hready) as (H2 & H3 & H4).
  destruct (IH _ H1) as (H5 & H6 & H7 & H8). cbv zeta in *.
  intuition congruence.
Qed.

(** *** A source that is still loading *)

Lemma requestImage_idle x y z request b :
  idle b ->
  (minimumLevel_ b <= z)%Z ->
  requestImage' x y z request b
  = (ImgUndefined, logEvent (TileCacheLookup (getCacheKey_ (sourceLevel b z) x y)) b).
Proof.
  intros (_ & Hp & Hd & Hc & _) Hz. unfold requestImage. rewrite Hd.
  destruct (Z.ltb_spec z (minimumLevel_ b)) as [?|_]; [lia|].
  cbv zeta. fold (sourceLevel b z).
  change (tileCache (logEvent _ b)) with (tileCache b).
  rewrite lookupCache_miss by (unfold LRUCache.containsKey; rewrite Hc; reflexivity).
  change (projection_ (logEvent _ b)) with (projection_ b). rewrite Hp.
  destruct (getTileUrlFunction _); reflexivity.
Qed.

Lemma step_idle o b : staysLoading o -> idle b -> idle (step' o b).
Proof.
  intros Ho Hi. destruct o as [s|x y z request|p outcome|p]; cbn [step].
  - cbn in Ho. unfold handleSourceChanged_. cbn [source_ setSource].
    apply String.eqb_neq in Ho. rewrite Ho, andb_false_r. exact Hi.
  - destruct (Z.ltb_spec z (minimumLevel_ b)).
    + rewrite requestImage_below_minimum; [exact Hi| apply Hi | assumption].
    + rewrite requestImage_idle by assumption.
      unfold idle in *. cbn. rewrite !List.filter_app. cbn. rewrite !app_nil_r.
      exact Hi.
  - pose proof (fetchSettles_sameSettings p outcome b) as H.
    destruct (fetchSettles_quiet p outcome b) as (Ht & Hc & _).
    unfold sameSettings, idle in *. rewrite Ht, Hc. intuition congruence.
  - pose proof (reaction_sameSettings p b) as H.
    destruct (reaction_quiet p b) as (Ht & Hc & _).
    unfold sameSettings, idle in *. rewrite Ht, Hc. intuition congruence.
Qed.

(** X17.  A bridge built on a source that is not ready, and stays so, is
    not ready, has fetched nothing and raised nothing, and answers every
    request at or above its minimum level with [undefined], after a look
    into the tile cache and nothing else. *)
Theorem loading_source_serves_nothing :
  forall (source : Source) (fallback : option Projection)
         (options : MVTWMSOptions) (world : list Promise) (mem : heap)
         (ops : list Op),
    getState source <> "ready"%string ->
    Forall staysLoading ops ->
    let b := run' ops (snd (construct' source fallback options world mem)) in
    ready_ b = false
    /\ fetches b = 0
    /\ errorsRaised b = 0
    /\ forall x y z request,
         (minimumLevel_ b <= z)%Z ->
         requestImage' x y z request b
         = (ImgUndefined,
            logEvent (TileCacheLookup (getCacheKey_ (sourceLevel b z) x y)) b).
Proof.
  intros source fallback options world mem ops Hs Hops b.
  assert (Hi : idle b).
  { subst b. unfold construct, handleSourceChanged_ at 1. cbn [source_ ready_ negb andb].
    apply String.eqb_neq in Hs. rewrite Hs. cbn [snd].
    match goal with |- idle (run' ops ?b0) => assert (H0 : idle b0) by (repeat split);
      revert H0; generalize b0 end.
    induction Hops as [|o ops Ho Hops IH]; intros b0 H0; [exact H0|].
    rewrite run_cons'. apply IH, step_idle; assumption. }
  split; [apply Hi|]. unfold fetches, errorsRaised.
  destruct Hi as (H1 & H2 & H3 & H4 & H5 & H6). rewrite H5, H6.
  split; [reflexivity|]. split; [reflexivity|].
  intros x y z request Hz. apply requestImage_idle; [repeat split; assumption|exact Hz].
Qed.

(** *** Becoming ready without a delegate *)

Lemma construct_geographic source fallback options world mem p :
  getState source = "ready"%string ->
  getSourceProjection source = Some p ->
  getCode p = "EPSG:4326"%string ->
  tileGrid source = None ->
  truthy (olcs_wmsFormat source) = false ->
  snd (construct' source fallback options world mem)
  = setReady true
      (setTilingScheme (GeographicTilingScheme (1, 1)%Z)
         (setShouldRequestNextLevel true
            (setProjection (Some p)
               {| source_ := source;
                  projection_ := None;
                  fallbackProj_ := fallback;
                  styleFunction_ :=
                    match opt_styleFunction options with
                    | Some f => f
                    | None => fun _ _ => StyleMany styles
                    end;
                  shouldRequestNextLevel := false;
                  emptyCanvasPromise_ := length world;
                  tilingScheme_ := WebMercatorTilingScheme None;
                  ready_ := false;
                  rectangle_ :=
                    match opt_rectangle options with
                    | Some r => Some r
                    | None => Some (RectangleOf (WebMercatorTilingScheme None))
                    end;
                  minimumLevel_ :=
                    match opt_minimumLevel options with Some m => m | None => 0%Z end;
                  featureCache :=
                    match opt_featureCache options with
                    | Some c => c
                    | None =>
                        LRUCache.create
                          match opt_cacheSize options with Some n => n | None => 50 end
                    end;
                  tileCache :=
                    LRUCache.create
                      match opt_cacheSize options with Some n => n | None => 50 end;
                  olWmsDelegate_ := None;
                  proxy := olcs_proxy source;
                  promises :=
                    world ++ [ {| origin := FromResolve;
                                  status := Fulfilled (VCanvas createEmptyCanvas) |} ];
                  memory := mem;
                  trace := [] |}))).
Proof.
  intros Hstate Hp Hcode Hgrid Hfmt.
  unfold construct, handleSourceChanged_. cbn [ready_ source_ negb andb].
  rewrite Hstate, Hp. cbn [String.eqb Ascii.eqb Bool.eqb andb].
  unfold levelZeroTiles. cbn [source_ setProjection]. rewrite Hgrid, Hcode.
  cbn [String.eqb Ascii.eqb Bool.eqb fst snd Z.eqb Pos.eqb andb].
  cbn [rectangle_ setTilingScheme setShouldRequestNextLevel setProjection].
  destruct (opt_rectangle options);
    rewrite tryInit_no_format by (cbn; exact Hfmt); reflexivity.
Qed.

(** X18.  A bridge built on a ready EPSG:4326 source without a tile grid
    (one tile at level zero) and without [olcs_wmsFormat] is ready at once,
    on a geographic tiling scheme with one root tile, and asks the source
    one level deeper than Cesium asks the bridge: a cold request for level
    [z] uses the cache key, the URL and the headers of level [z + 1]. *)
Theorem single_root_geographic_source_is_asked_one_level_deeper :
  forall (source : Source) (fallback : option Projection) (options : MVTWMSOptions)
         (world : list Promise) (mem : heap) (p : Projection)
         (tileUrlFunction : Z * Z * Z -> Projection -> Completion (option string))
         (x y z : Z) (request : option Request) (url : option string) (u : string),
    getState source = "ready"%string ->
    getSourceProjection source = Some p ->
    getCode p = "EPSG:4326"%string ->
    tileGrid source = None ->
    truthy (olcs_wmsFormat source) = false ->
    opt_featureCache options = None ->
    getTileUrlFunction source = Some tileUrlFunction ->
    (match opt_minimumLevel options with Some m => m | None => 0 end <= z)%Z ->
    tileUrlFunction ((z + 1)%Z, x, sourceRow olUseNewCoordinates y) p = Normal url ->
    match olcs_proxy source with Some getURL => getURL url | None => url end = Some u ->
    u <> ""%string ->
    let b := snd (construct' source fallback options world mem) in
    let headers := match olcs_authHeaders source with
                   | Some headersFn => headersFn (z + 1)%Z x y
                   | None => []
                   end in
    ready_ b = true
    /\ tilingScheme_ b = GeographicTilingScheme (1, 1)%Z
    /\ shouldRequestNextLevel b = true
    /\ trace (snd (requestImage' x y z request b))
       = [TileCacheLookup (getCacheKey_ (z + 1) x y);
          UrlBuilt (z + 1) x (sourceRow olUseNewCoordinates y);
          FeatureCacheLookup (getCacheKey_ (z + 1) x y);
          Fetch u headers].
Proof.
  intros source fallback options world mem p tileUrlFunction x y z request url u
         Hstate Hp Hcode Hgrid Hfmt Hfc Hfn Hz Hurl Hproxy Hu b headers.
  assert (Eb : b = _) by exact (construct_geographic source fallback options world mem
                                  p Hstate Hp Hcode Hgrid Hfmt).
  rewrite Hfc in Eb.
  split; [rewrite Eb; reflexivity|]. split; [rewrite Eb; reflexivity|].
  split; [rewrite Eb; reflexivity|].
  destruct (requestImage_miss olUseNewCoordinates x y z request b tileUrlFunction p
              url u) as (_ & _ & _ & Ht & _);
    try (rewrite Eb; first [reflexivity | assumption]); try assumption.
  rewrite Ht. rewrite Eb. reflexivity.
Qed.

(** X19.  Naming a format is not enough for a delegate: when the source
    names an [olcs_wmsFormat] but carries no companion, and no description
    can be derived from it (it has no URL function, or the URL function
    throws or yields no URL for tile [[0, 0, 0]], or that URL does not
    parse), the bridge still becomes ready, without delegate, without
    fetching and without raising anything, and answers requests itself. *)
Theorem named_format_without_a_base_keeps_the_vector_path :
  forall (b : Bridge) (p : Projection) (fmt : string),
    ready_ b = false ->
    olWmsDelegate_ b = None ->
    getState (source_ b) = "ready"%string ->
    getSourceProjection (source_ b) = Some p ->
    supportedCode (getCode p) = true ->
    olcs_wmsFormat (source_ b) = Some fmt ->
    olcs_wmsCompanion (source_ b) = None ->
    match getTileUrlFunction (source_ b) with
    | None => True
    | Some urlFn =>
        forall proj,
          match urlFn (0, 0, 0)%Z proj with
          | Throw _ => True
          | Normal sample =>
              truthy sample = false
              \/ exists s, sample = Some s /\ parseUrl s = None
          end
    end ->
    let b' := snd (handleSourceChanged' b) in
    ready_ b' = true
    /\ olWmsDelegate_ b' = None
    /\ fetches b' = fetches b
    /\ errorsRaised b' = errorsRaised b
    /\ forall x y z request r,
         fst (requestImage' x y z request b') <> ImgDelegated r.
Proof.
  intros b p fmt Hready Hd Hstate Hp Hcode Hfmt Hcomp Hbase b'.
  assert (Hderive : forall b0, source_ b0 = source_ b ->
            fst (deriveTileWmsFromVector_ parseUrl createXYZ proj3857 b0) = None).
  { intros b0 Hs. unfold deriveTileWmsFromVector_. cbv zeta. rewrite Hs.
    destruct (getTileUrlFunction (source_ b)) as [urlFn|]; [|reflexivity].
    match goal with
    | |- context [urlFn (0%Z, 0%Z, 0%Z) ?proj] =>
        specialize (Hbase proj); destruct (urlFn (0%Z, 0%Z, 0%Z) proj) as [sample|e]
    end; [|reflexivity].
    destruct Hbase as [Hf|(s & -> & Hparse)].
    - destruct sample as [s|]; [rewrite Hf|]; reflexivity.
    - destruct (truthy (Some s)); [rewrite Hparse|]; reflexivity. }
  assert (Hinit : forall b0, source_ b0 = source_ b -> olWmsDelegate_ b0 = None ->
            ready_ b0 = true ->
            ready_ (tryInit' b0) = true /\ olWmsDelegate_ (tryInit' b0) = None).
  { intros b0 Hs Hd0 Hr0. unfold tryInitOlWmsDelegate_. rewrite Hs, Hfmt, Hcomp.
    destruct (truthy (Some fmt)); [|auto].
    pose proof (Hderive b0 Hs) as Hn.
    pose proof (deriveTileWmsFromVector_frame parseUrl createXYZ proj3857 b0) as Hf.
    destruct (deriveTileWmsFromVector_ parseUrl createXYZ proj3857 b0) as [base b1].
    cbn [fst snd] in *. subst base. unfold sameSettings in Hf.
    split; intuition congruence. }
  assert (Hb : ready_ b' = true /\ olWmsDelegate_ b' = None).
  { subst b'. unfold handleSourceChanged_.
    rewrite Hready, Hstate, Hp. cbn [negb andb String.eqb].
    replace (String.eqb "ready" "ready") with true by reflexivity. cbn [andb].
    unfold supportedCode in Hcode.
    destruct (String.eqb (getCode p) "EPSG:4326") eqn:H4326.
    - cbn [snd]. destruct (rectangle_ _); apply Hinit; cbn; auto.
    - cbn in Hcode. rewrite Hcode.
      cbn [snd]. destruct (rectangle_ _); apply Hinit; cbn; auto. }
  destruct Hb as [Hb1 Hb2].
  destruct (handleSourceChanged_frame parseUrl createXYZ proj3857 newOLImageryProvider b)
    as (_ & _ & _ & _ & _ & _ & Hf & He).
  fold b' in Hf, He.
  split; [exact Hb1|]. split; [exact Hb2|].
  split; [unfold fetches; rewrite Hf; reflexivity|].
  split; [unfold errorsRaised; rewrite He; reflexivity|].
  intros x y z request r. unfold requestImage. rewrite Hb2.
  repeat lazymatch goal with
         | |- context [promiseForUrl ?u ?x ?y ?z ?b] =>
             destruct (promiseForUrl u x y z b)
         | |- _ => break_match
         end; cbn; discriminate.
Qed.

End MoreLifeFacts.

(* ================================================================== *)
(** * Further properties: the description handed to the delegate *)
(* ================================================================== *)

Lemma paramOf_assign (k k' v : string) (o : Params) :
  paramOf k' (assign k v o) = if String.eqb k' k then Some v else paramOf k' o.
Proof.
  unfold paramOf. induction o as [|[k0 v0] rest IH]; cbn.
  - destruct (String.eqb k' k); reflexivity.
  - destruct (String.eqb_spec k k0) as [->|Hne]; cbn.
    + destruct (String.eqb k' k0); reflexivity.
    + destruct (String.eqb_spec k' k0) as [->|Hne'].
      * destruct (String.eqb_spec k0 k); [congruence|reflexivity].
      * exact IH.
Qed.

Lemma paramOf_snoc (k : string) (o : Params) (kv : string * string) :
  paramOf k (o ++ [kv])
  = match paramOf k o with
    | Some v => Some v
    | None => if String.eqb k (fst kv) then Some (snd kv) else None
    end.
Proof.
  unfold paramOf. induction o as [|[k0 v0] rest IH]; cbn.
  - destruct (String.eqb k (fst kv)); reflexivity.
  - destruct (String.eqb k k0); [reflexivity|exact IH].
Qed.

Lemma paramOf_spread (k : string) (b : Params) :
  forall a : Params,
    paramOf k (spread a b)
    = match paramOf k (rev b) with
      | Some v => Some v
      | None => paramOf k a
      end.
Proof.
  unfold spread. induction b as [|kv b IH]; intros a; cbn [fold_left rev].
  - reflexivity.
  - rewrite IH, paramOf_snoc, paramOf_assign.
    destruct (paramOf k (rev b)); [reflexivity|].
    destruct (String.eqb k (fst kv)); reflexivity.
Qed.

Lemma parsed_upperKeys (query : Params) :
  forall a : Params,
    fold_left (fun o kv => assign (toUpperCase (fst kv)) (snd kv) o) query a
    = spread a (upperKeys query).
Proof.
  unfold spread, upperKeys. induction query as [|kv q IH]; intros a; cbn;
    [reflexivity|apply IH].
Qed.

Section DelegateFacts.

Variable parseUrl : string -> option (string * Params).
Variable createXYZ : list float -> TileGrid.
Variable proj3857 : Projection.
Variable newOLImageryProvider : TileWMS -> option Projection -> OLImageryProvider.

Local Abbreviation handleSourceChanged' :=
  (handleSourceChanged_ parseUrl createXYZ proj3857 newOLImageryProvider).



End DelegateFacts.

(* ================================================================== *)
(** * Further properties: the older copy *)
(* ================================================================== *)

Lemma readFeatures_buffers ds :
  forall h : heap, snd (readFeatures ds h) = h ++ decodedBuffers ds.
Proof.
  induction ds as [|d rest IH]; intros h; cbn [readFeatures decodedBuffers flat_map].
  - rewrite app_nil_r. reflexivity.
  - destruct (decodedCoordinates d) as [cs|].
    + cbn [Js.alloc]. specialize (IH (h ++ [List.map Some cs])).
      destruct (readFeatures rest _) as [fs h2]. cbn [snd] in *.
      rewrite IH, <- app_assoc. reflexivity.
    + specialize (IH h). destruct (readFeatures rest h) as [fs h2]. cbn [snd] in *.
      exact IH.
Qed.

Lemma store_at (h : heap) (l i : nat) (v : float) (pre rest : jsarray) (x : option float) :
  h !! l = Some (pre ++ x :: rest) -> i = length pre ->
  Js.store l i v h = <[l := pre ++ Some v :: rest]> h.
Proof.
  intros Hl ->. unfold Js.store.
  apply list_eq. intros j. destruct (decide (j = l)) as [->|Hne].
  - rewrite list_lookup_alter_eq, Hl, list_lookup_insert_eq
      by (apply lookup_lt_is_Some; eauto).
    cbn. unfold Js.setItem. rewrite length_app. cbn [length].
    destruct (Nat.ltb_spec (length pre) (length pre + S (length rest))); [|lia].
    f_equal. replace (length pre) with (length pre + 0) at 1 by lia.
    rewrite insert_app_r. reflexivity.
  - rewrite list_lookup_alter_ne, list_lookup_insert_ne by congruence. reflexivity.
Qed.

Lemma scaleInPlace_closed (l : nat) (sf tw : float) (legacy : bool) :
  forall (rest pre : jsarray) (flip : bool) (h : heap),
    h !! l = Some (pre ++ rest) ->
    Legacy.scaleInPlace (length rest) (length pre) l sf tw legacy flip h
    = <[l := pre ++ legacyScaled rest sf tw legacy flip]> h.
Proof.
  induction rest as [|x rest IH]; intros pre flip h Hl.
  - cbn. rewrite list_insert_id by exact Hl. reflexivity.
  - cbn [length Legacy.scaleInPlace legacyScaled].
    assert (Hload : Js.load h l (length pre) = x).
    { unfold Js.load, Js.arrayAt, Js.item. rewrite Hl.
      rewrite lookup_app_r by lia. replace (length pre - length pre) with 0 by lia.
      reflexivity. }
    rewrite Hload.
    rewrite (store_at h l (length pre) _ pre rest x Hl eq_refl).
    set (h1 := <[l := pre ++ Some (Js.mul x sf) :: rest]> h).
    assert (Hl1 : h1 !! l = Some (pre ++ Some (Js.mul x sf) :: rest)).
    { subst h1. apply list_lookup_insert_eq. apply lookup_lt_is_Some. eauto. }
    assert (Hload1 : Js.load h1 l (length pre) = Some (Js.mul x sf)).
    { unfold Js.load, Js.arrayAt, Js.item. rewrite Hl1.
      rewrite lookup_app_r by lia. replace (length pre - length pre) with 0 by lia.
      reflexivity. }
    set (v := if flip then PrimFloat.sub tw (Js.mul x sf) else Js.mul x sf).
    assert (E : (if flip
                 then Js.store l (length pre)
                        (Legacy.minus tw (Js.load h1 l (length pre))) h1
                 else h1)
                = <[l := pre ++ Some v :: rest]> h).
    { subst v. destruct flip.
      - rewrite Hload1. cbn [Legacy.minus].
        rewrite (store_at h1 l (length pre) _ pre rest _ Hl1 eq_refl).
        subst h1. rewrite list_insert_insert_eq. reflexivity.
      - reflexivity. }
    rewrite E.
    replace (length pre + 1) with (length (pre ++ [Some v]))
      by (rewrite length_app; reflexivity).
    replace (pre ++ Some v :: rest) with ((pre ++ [Some v]) ++ rest)
      by (rewrite <- app_assoc; reflexivity).
    rewrite IH.
    + rewrite list_insert_insert_eq, <- app_assoc. reflexivity.
    + apply list_lookup_insert_eq. apply lookup_lt_is_Some. eauto.
Qed.

Lemma scaleFeatures_closed (sf tw : float) (legacy : bool) :
  forall (ds : list DecodedFeature) (h h' : heap),
    Forall hasCoordinates ds ->
    length h' = length h ->
    Legacy.scaleFeatures (fst (readFeatures ds h)) sf tw legacy (h' ++ decodedBuffers ds)
    = (Normal tt,
       h' ++ List.map (fun a => legacyScaled a sf tw legacy false) (decodedBuffers ds)).
Proof.
  induction ds as [|d rest IH]; intros h h' Hc Hlen.
  - reflexivity.
  - inversion Hc as [|? ? [cs Hd] Hrest]; subst.
    cbn [readFeatures decodedBuffers flat_map]. rewrite Hd. cbn [Js.alloc].
    specialize (IH (h ++ [List.map Some cs])
                   (h' ++ [legacyScaled (List.map Some cs) sf tw legacy false]) Hrest).
    destruct (readFeatures rest (h ++ [List.map Some cs])) as [fs h2].
    cbn [fst] in *. cbn [Legacy.scaleFeatures getFlatCoordinates app List.map].
    fold (decodedBuffers rest).
    assert (Hl : (h' ++ List.map Some cs :: decodedBuffers rest) !! length h
                 = Some ([] ++ List.map Some cs)).
    { rewrite <- Hlen, lookup_app_r by lia.
      replace (length h' - length h') with 0 by lia. reflexivity. }
    assert (Ha : Js.arrayAt (h' ++ List.map Some cs :: decodedBuffers rest) (length h)
                 = List.map Some cs).
    { unfold Js.arrayAt. rewrite Hl. reflexivity. }
    rewrite Ha.
    pose proof (scaleInPlace_closed (length h) sf tw legacy (List.map Some cs) []
                  false _ Hl) as E.
    change (length (@nil (option float))) with 0 in E. rewrite E. clear E.
    cbn [app]. rewrite <- Hlen.
    replace (length h') with (length h' + 0) at 1 by lia.
    rewrite insert_app_r. cbn [insert list_insert].
    replace (h' ++ legacyScaled (List.map Some cs) sf tw legacy false
                :: decodedBuffers rest)
      with ((h' ++ [legacyScaled (List.map Some cs) sf tw legacy false])
              ++ decodedBuffers rest)
      by (rewrite <- app_assoc; reflexivity).
    rewrite IH by (rewrite !length_app; cbn; lia).
    rewrite <- app_assoc. reflexivity.
Qed.

Lemma legacyScaled_lookup (sf tw : float) (legacy : bool) :
  forall (cs : list float) (flip : bool) (i : nat) (c : float),
    cs !! i = Some c ->
    legacyScaled (List.map Some cs) sf tw legacy flip !! i
    = Some (Some (if (if legacy then xorb flip (Nat.odd i) else flip)
                  then PrimFloat.sub tw (PrimFloat.mul c sf)
                  else PrimFloat.mul c sf)).
Proof.
  induction cs as [|c0 cs IH]; intros flip i c Hi; [discriminate|].
  destruct i as [|i].
  - injection Hi as ->. cbn. destruct legacy, flip; reflexivity.
  - cbn [List.map legacyScaled]. cbn [lookup list_lookup].
    change (legacyScaled (List.map Some cs) sf tw legacy
              (if legacy then negb flip else flip) !! i
            = Some (Some (if (if legacy then xorb flip (Nat.odd (S i)) else flip)
                          then PrimFloat.sub tw (PrimFloat.mul c sf)
                          else PrimFloat.mul c sf))).
    rewrite (IH _ i c Hi). rewrite Nat.odd_succ, <- Nat.negb_odd.
    destruct legacy, flip, (Nat.odd i); reflexivity.
Qed.

(** X22.  [readFeaturesFromBuffer] of the older copy, on features that all
    have coordinates: it returns the decoded features, and the store grows
    by their buffers, in which every coordinate has been multiplied by
    [tileWidth / 4096] (both axes by the same factor, whatever
    [tileHeight]); for OpenLayers up to 6.4.4 every second coordinate (the
    rows) is then subtracted from [tileWidth]. *)
Theorem older_decode_scales_in_place :
  forall (decoded : list DecodedFeature) (tileWidth : float) (legacy : bool)
         (h : heap),
    Forall hasCoordinates decoded ->
    let scaleFactor := (tileWidth / 4096)%float in
    Legacy.readFeaturesFromBuffer decoded tileWidth legacy h
    = (Normal (fst (readFeatures decoded h)),
       h ++ List.map (fun a => legacyScaled a scaleFactor tileWidth legacy false)
              (decodedBuffers decoded))
    /\ forall (cs : list float) (i : nat) (c : float),
         cs !! i = Some c ->
         legacyScaled (List.map Some cs) scaleFactor tileWidth legacy false !! i
         = Some (Some (if legacy && Nat.odd i
                       then PrimFloat.sub tileWidth (PrimFloat.mul c scaleFactor)
                       else PrimFloat.mul c scaleFactor)).
Proof.
  intros decoded tileWidth legacy h Hc scaleFactor. split.
  - unfold Legacy.readFeaturesFromBuffer. fold scaleFactor.
    pose proof (readFeatures_buffers decoded h) as Hb.
    pose proof (scaleFeatures_closed scaleFactor tileWidth legacy decoded h h Hc eq_refl)
      as Hs.
    destruct (readFeatures decoded h) as [fs h1]. cbn [fst snd] in *. subst h1.
    rewrite Hs. reflexivity.
  - intros cs i c Hi. rewrite (legacyScaled_lookup _ _ _ cs false i c Hi).
    destruct legacy; reflexivity.
Qed.

Lemma scaledCopy_even (s : float) (tw : float) :
  forall (n : nat) (cs : list float),
    length cs = 2 * n ->
    scaledCopy (List.map Some cs) s s = legacyScaled (List.map Some cs) s tw false false.
Proof.
  induction n as [|n IH]; intros cs Hlen.
  - destruct cs; [reflexivity|discriminate].
  - destruct cs as [|a [|b cs]]; cbn in Hlen; try lia.
    cbn [List.map scaledCopy legacyScaled Js.mul]. rewrite (IH cs) by lia. reflexivity.
Qed.


(* ================================================================== *)
(** * The further properties at concrete bridges *)
(* ================================================================== *)


(** A buffer of three coordinates: the clone has four, the last one
    [NaN]. *)
Lemma clone_is_padded_to_whole_pairs_witness :
  exists flat : jsarray,
    Raster.cloneAndScaleGeometry_ exampleLine 2%float 2%float
      [[Some 1%float; Some 2%float; Some 3%float]]
    = (Some (Raster.buildGeometry exampleLine flat),
       [[Some 1%float; Some 2%float; Some 3%float]] ++ [flat])
    /\ length flat = 4
    /\ last flat = Some (Some nan).
Proof.
  destruct (clone_is_padded_to_whole_pairs exampleLine 2%float 2%float
              [[Some 1%float; Some 2%float; Some 3%float]] 0
              [Some 1%float; Some 2%float; Some 3%float] eq_refl eq_refl)
    as (flat & H1 & H2 & _ & H4).
  exists flat. split; [exact H1|]. split; [exact H2|]. apply H4. reflexivity.
Defined.


(** A cold request with the legacy row numbering, on a source behind a
    proxy and with authorization headers. *)
Lemma cold_request_fetches_the_proxied_url_witness :
  trace (snd (requestImage false 1 2 3 None
                (exampleBridgeOn exampleSecuredSource (exampleOptions None) [])))
  = [TileCacheLookup "3_1_2"; UrlBuilt 3 1 (-3); FeatureCacheLookup "3_1_2";
     Fetch "http://proxy/?url=http://tiles/3/1/-3"
       [("Authorization"%string, "Bearer t"%string)]].
Proof.
  destruct (cold_request_fetches_the_proxied_url false 1 2 3 None
              (exampleBridgeOn exampleSecuredSource (exampleOptions None) [])
              exampleUrl (exampleProjection "EPSG:3857")
              (Some "http://tiles/3/1/-3"%string)
              "http://proxy/?url=http://tiles/3/1/-3"%string) as [H _].
  - reflexivity.
  - vm_compute. discriminate.
  - reflexivity.
  - reflexivity.
  - reflexivity.
  - reflexivity.
  - discriminate.
  - reflexivity.
  - reflexivity.
  - exact H.
Defined.

(** Tiles (1, 2) and (1, 3) at level 3. *)
Lemma distinct_tiles_are_fetched_separately_witness :
  let b := exampleBridge "EPSG:3857" None None in
  let b1 := snd (requestImage true 1 2 3 None b) in
  fst (requestImage true 1 2 3 None b) = ImgPromise 2
  /\ fst (requestImage true 1 3 3 None b1) = ImgPromise 4
  /\ fetches (snd (requestImage true 1 3 3 None b1)) = 2.
Proof.
  refine (distinct_tiles_are_fetched_separately true 1 2 3 1 3 3 None
            (exampleBridge "EPSG:3857" None None) exampleUrl
            (exampleProjection "EPSG:3857")
            (Some "http://tiles/3/1/2"%string) (Some "http://tiles/3/1/3"%string)
            "http://tiles/3/1/2"%string "http://tiles/3/1/3"%string
            _ _ _ _ _ _ _ _ _ _ _ _ _ _ _ _).
  - reflexivity.
  - vm_compute. discriminate.
  - vm_compute. discriminate.
  - reflexivity.
  - reflexivity.
  - reflexivity.
  - reflexivity.
  - discriminate.
  - reflexivity.
  - reflexivity.
  - discriminate.
  - reflexivity.
  - reflexivity.
  - reflexivity.
  - reflexivity.
  - discriminate.
Defined.

(** A bridge that was handed a feature cache holding the features of tile
    (1, 2) at level 3. *)
Lemma cached_features_are_not_fetched_again_witness :
  let b := exampleBridgeOn (exampleSource "EPSG:3857" None) exampleSharedOptions
             exampleSharedWorld in
  fst (requestImage true 1 2 3 None b) = ImgPromise 2
  /\ promises (snd (requestImage true 1 2 3 None b))
     = promises b ++ [ {| origin := FromThen 0 1 2 3; status := Pending |} ]
  /\ fetches (snd (requestImage true 1 2 3 None b)) = 0.
Proof.
  destruct (cached_features_are_not_fetched_again true 1 2 3 None
              (exampleBridgeOn (exampleSource "EPSG:3857" None) exampleSharedOptions
                 exampleSharedWorld)
              exampleUrl (exampleProjection "EPSG:3857")
              (Some "http://tiles/3/1/2"%string) "http://tiles/3/1/2"%string 0)
    as (H1 & H2 & H3 & _).
  - reflexivity.
  - vm_compute. discriminate.
  - reflexivity.
  - reflexivity.
  - reflexivity.
  - reflexivity.
  - discriminate.
  - reflexivity.
  - reflexivity.
  - cbv zeta. split; [exact H1|]. split; [exact H2 | exact H3].
Defined.

(** A source that has no URL for any tile. *)
Lemma tile_without_url_is_remembered_witness :
  let b := exampleBridgeOn (exampleSourceAnswering (Normal None))
             (exampleOptions None) [] in
  let b1 := snd (requestImage true 1 2 3 None b) in
  fst (requestImage true 1 2 3 None b) = ImgPromise 0
  /\ fetches b1 = 0
  /\ fst (requestImage true 1 2 3 None b1) = ImgPromise 0
  /\ trace (snd (requestImage true 1 2 3 None b1))
     = [TileCacheLookup "3_1_2"; UrlBuilt 3 1 2; TileCacheLookup "3_1_2"].
Proof.
  destruct (tile_without_url_is_remembered true 1 2 3 None
              (exampleBridgeOn (exampleSourceAnswering (Normal None))
                 (exampleOptions None) [])
              (fun _ _ => Normal None) (exampleProjection "EPSG:3857") None)
    as (H1 & H2 & _ & cache & H4).
  - reflexivity.
  - vm_compute. discriminate.
  - reflexivity.
  - reflexivity.
  - reflexivity.
  - reflexivity.
  - reflexivity.
  - vm_compute. lia.
  - cbv zeta. split; [exact H1|]. split; [exact H2|]. rewrite H4.
    split; reflexivity.
Defined.

(** A source whose URL function throws. *)
Lemma url_error_is_raised_and_not_cached_witness :
  let b := exampleBridgeOn (exampleSourceAnswering (Throw "boom"))
             (exampleOptions None) [] in
  let b1 := snd (requestImage true 1 2 3 None b) in
  fst (requestImage true 1 2 3 None b) = ImgUndefined
  /\ errorsRaised b1 = 1
  /\ LRUCache.getCount (tileCache b1) = 0
  /\ errorsRaised (snd (requestImage true 1 2 3 None b1)) = 2.
Proof.
  destruct (url_error_is_raised_and_not_cached true 1 2 3 None
              (exampleBridgeOn (exampleSourceAnswering (Throw "boom"))
                 (exampleOptions None) [])
              (fun _ _ => Throw "boom") (exampleProjection "EPSG:3857")
              "boom"%string)
    as (H1 & H2 & _ & _ & H5 & _ & _ & H8).
  - reflexivity.
  - vm_compute. discriminate.
  - reflexivity.
  - reflexivity.
  - reflexivity.
  - reflexivity.
  - cbv zeta. split; [exact H1|]. split; [exact H2|].
    split; [rewrite H5; reflexivity | exact H8].
Defined.

(** The fetch of tile (1, 2) at level 3 fails on the network, and the tile
    is requested again. *)
Lemma failed_tile_is_not_retried_witness :
  let b1 := snd (requestImage true 1 2 3 None (exampleBridge "EPSG:3857" None None)) in
  let b2 := reaction 2 (fetchSettles 1 (Failed NetworkError) b1) in
  fst (requestImage true 1 2 3 None b2) = ImgPromise 2
  /\ statusOf (snd (requestImage true 1 2 3 None b2)) 2 = Some (Rejected NetworkError)
  /\ fetches (snd (requestImage true 1 2 3 None b2)) = 1
  /\ errorsRaised (snd (requestImage true 1 2 3 None b2)) = 0.
Proof.
  refine (failed_tile_is_not_retried true 1 2 3 None
            (exampleBridge "EPSG:3857" None None) exampleUrl
            (exampleProjection "EPSG:3857") (Some "http://tiles/3/1/2"%string)
            "http://tiles/3/1/2"%string NetworkError _ _ _ _ _ _ _ _ _ _).
  - reflexivity.
  - vm_compute. discriminate.
  - reflexivity.
  - reflexivity.
  - reflexivity.
  - reflexivity.
  - discriminate.
  - reflexivity.
  - reflexivity.
  - vm_compute. lia.
Defined.

(** A bridge that was handed a feature cache, after three requests. *)
Lemma cache_keys_stay_unique_witness :
  let b := exampleRun [RequestImage 1 2 3 None; RequestImage 1 2 3 None;
                       RequestImage 0 0 0 None]
             (exampleBridgeOn (exampleSource "EPSG:3857" None) exampleSharedOptions
                exampleSharedWorld) in
  List.NoDup (keys (tileCache b)) /\ List.NoDup (keys (featureCache b)).
Proof.
  refine (cache_keys_stay_unique true exampleParseUrl exampleGrid
            (exampleProjection "EPSG:3857") exampleDelegate
            (exampleSource "EPSG:3857" None) None exampleSharedOptions
            exampleSharedWorld []
            [RequestImage 1 2 3 None; RequestImage 1 2 3 None;
             RequestImage 0 0 0 None] _).
  cbn. constructor; [intros []|constructor].
Defined.

(** A bridge with the default cache size of 50, after two requests. *)
Lemma caches_stay_within_twice_their_mark_witness :
  let b := exampleRun [RequestImage 1 2 3 None; RequestImage 0 0 0 None]
             (exampleBridge "EPSG:3857" None None) in
  LRUCache.highWaterMark (tileCache b) = 50
  /\ LRUCache.getCount (tileCache b) <= 100
  /\ withinBound (featureCache b).
Proof.
  destruct (caches_stay_within_twice_their_mark true exampleParseUrl exampleGrid
              (exampleProjection "EPSG:3857") exampleDelegate
              (exampleSource "EPSG:3857" None) None (exampleOptions None) [] []
              [RequestImage 1 2 3 None; RequestImage 0 0 0 None])
    as (H1 & H2 & H3).
  - cbn. lia.
  - cbv zeta. split; [exact H1|]. split; [exact H2 | exact (H3 I)].
Defined.

(** A bridge on a source that is loading and still is after a change. *)
Lemma loading_source_serves_nothing_witness :
  let b := exampleRun [RequestImage 0 0 0 None;
                       SourceChanges (exampleSourceIn "loading" "EPSG:3857" None);
                       RequestImage 1 1 1 None]
             exampleLoadingBridge in
  ready_ b = false
  /\ fetches b = 0
  /\ fst (requestImage true 2 2 2 None b) = ImgUndefined.
Proof.
  destruct (loading_source_serves_nothing true exampleParseUrl exampleGrid
              (exampleProjection "EPSG:3857") exampleDelegate
              (exampleSourceIn "loading" "EPSG:4326" None) None (exampleOptions None)
              [] []
              [RequestImage 0 0 0 None;
               SourceChanges (exampleSourceIn "loading" "EPSG:3857" None);
               RequestImage 1 1 1 None])
    as (H1 & H2 & _ & H4).
  - discriminate.
  - constructor; [exact I|]. constructor; [cbn; discriminate|].
    constructor; [exact I|]. constructor.
  - cbv zeta. split; [exact H1|]. split; [exact H2|].
    rewrite H4 by (vm_compute; discriminate). reflexivity.
Defined.

(** A ready web-mercator bridge whose source then reports EPSG:4326. *)
Lemma ready_bridge_keeps_its_grid_witness :
  let b := exampleRun [SourceChanges (exampleSource "EPSG:4326" None);
                       RequestImage 0 0 0 None]
             (exampleBridge "EPSG:3857" None None) in
  projection_ b = Some (exampleProjection "EPSG:3857")
  /\ tilingScheme_ b = WebMercatorTilingScheme (Some (1, 1)%Z).
Proof.
  destruct (ready_bridge_keeps_its_grid true exampleParseUrl exampleGrid
              (exampleProjection "EPSG:3857") exampleDelegate
              (exampleBridge "EPSG:3857" None None)
              [SourceChanges (exampleSource "EPSG:4326" None);
               RequestImage 0 0 0 None])
    as (_ & H2 & H3 & _).
  - reflexivity.
  - cbv zeta. split; [exact H2 | exact H3].
Defined.

(** A bridge on an EPSG:4326 source: its tiling scheme is the geographic
    one, its rectangle still that of the constructor's Web Mercator
    scheme. *)
Lemma rectangle_kept_from_construction_witness :
  let b := exampleRun [RequestImage 0 0 0 None] (exampleBridge "EPSG:4326" None None) in
  tilingScheme_ b = GeographicTilingScheme (1, 1)%Z
  /\ rectangle_ b = Some (RectangleOf (WebMercatorTilingScheme None)).
Proof.
  cbv zeta. split; [reflexivity|].
  refine (rectangle_kept_from_construction true exampleParseUrl exampleGrid
            (exampleProjection "EPSG:3857") exampleDelegate
            (exampleSource "EPSG:4326" None) None (exampleOptions None) [] []
            [RequestImage 0 0 0 None] _).
  reflexivity.
Defined.

(** A source without [olcs_wmsFormat], through a request and a change. *)
Lemma vector_path_is_the_default_witness :
  let b := exampleRun [RequestImage 1 2 3 None;
                       SourceChanges (exampleSource "EPSG:4326" None)]
             (exampleBridge "EPSG:3857" None None) in
  olWmsDelegate_ b = None
  /\ fst (requestImage true 1 2 3 None b) <> ImgDelegated (Some "wms"%string).
Proof.
  destruct (vector_path_is_the_default true exampleParseUrl exampleGrid
              (exampleProjection "EPSG:3857") exampleDelegate
              (exampleSource "EPSG:3857" None) None (exampleOptions None) [] []
              [RequestImage 1 2 3 None;
               SourceChanges (exampleSource "EPSG:4326" None)])
    as (H1 & H2).
  - reflexivity.
  - constructor; [exact I|]. constructor; [reflexivity|]. constructor.
  - cbv zeta. split; [exact H1 | apply H2].
Defined.



(** The older copy with an OpenLayers up to 6.4.4, on 256-pixel tiles: the
    line from [[0, 0]] to [[4096, 4096]] becomes the line from [[0, 256]]
    to [[256, 0]], in the decoded buffer itself. *)
Lemma older_decode_scales_in_place_witness :
  Legacy.readFeaturesFromBuffer [exampleDecoded] 256%float true []
  = (Normal [exampleLine],
     [[Some 0%float; Some 256%float; Some 256%float; Some 0%float]]).
Proof.
  destruct (older_decode_scales_in_place [exampleDecoded] 256%float true [])
    as [H _].
  - constructor; [eexists; reflexivity|constructor].
  - exact H.
Defined.


(** A fresh bridge on an EPSG:4326 source without a tile grid: tile (1, 2)
    at level 3 is fetched as tile (1, 2) of level 4. *)
Lemma single_root_geographic_source_is_asked_one_level_deeper_witness :
  let b := exampleBridge "EPSG:4326" None None in
  shouldRequestNextLevel b = true
  /\ trace (snd (requestImage true 1 2 3 None b))
     = [TileCacheLookup "4_1_2"; UrlBuilt 4 1 2; FeatureCacheLookup "4_1_2";
        Fetch "http://tiles/4/1/2" []].
Proof.
  destruct (single_root_geographic_source_is_asked_one_level_deeper true
              exampleParseUrl exampleGrid (exampleProjection "EPSG:3857")
              exampleDelegate (exampleSource "EPSG:4326" None) None
              (exampleOptions None) [] [] (exampleProjection "EPSG:4326")
              exampleUrl 1 2 3 None (Some "http://tiles/4/1/2"%string)
              "http://tiles/4/1/2"%string)
    as (_ & _ & H3 & H4).
  - reflexivity.
  - reflexivity.
  - reflexivity.
  - reflexivity.
  - reflexivity.
  - reflexivity.
  - reflexivity.
  - vm_compute. discriminate.
  - reflexivity.
  - reflexivity.
  - discriminate.
  - cbv zeta. split; [exact H3 | exact H4].
Defined.

(** A loading bridge whose source becomes ready naming [image/png], with a
    URL function that throws. *)
Lemma named_format_without_a_base_keeps_the_vector_path_witness :
  let b' := exampleStep (SourceChanges exampleBaselessSource) exampleLoadingBridge in
  ready_ b' = true
  /\ olWmsDelegate_ b' = None
  /\ errorsRaised b' = 0.
Proof.
  destruct (named_format_without_a_base_keeps_the_vector_path true exampleParseUrl
              exampleGrid (exampleProjection "EPSG:3857") exampleDelegate
              (setSource exampleBaselessSource exampleLoadingBridge)
              (exampleProjection "EPSG:3857") "image/png"%string)
    as (H1 & H2 & _ & H4 & _).
  - reflexivity.
  - reflexivity.
  - reflexivity.
  - reflexivity.
  - reflexivity.
  - reflexivity.
  - reflexivity.
  - cbn. intros proj. exact I.
  - cbv zeta. split; [exact H1|]. split; [exact H2 | exact H4].
Defined.
